(** * TheBetterLibraries: the stock analysis pipeline of [TheBetterLibraries.py]

    A shallow embedding of the script's four stages: the market-data fetch
    ([fetch_fmp_data]), the indicator computations ([add_indicator]), the
    recommendation round trip and the extraction of a verdict from the model's
    reply ([analyze_ticker]), and the loop that fills the summary table.

    Conventions of the embedding.
    - A Python [str] is a [string] holding its UTF-8 bytes.  The two characters
      the script searches for, the braces, are ASCII, so cutting at their
      byte offsets cuts the same substring as cutting at code points.
    - Python exceptions are values of [exn]; code that may raise returns a
      [result], and [try]/[except] is [try_except].
    - The numeric cells of a DataFrame are [option Qc]: exact rationals, with
      [None] for NaN, pandas' missing value.  pandas computes in IEEE doubles
      (and in 64-bit integers on a column of whole numbers), so a value of
      the model is the value of the script up to rounding.  A property that
      rounding or wrap-around could break names the data on which the
      script's arithmetic is exact and is stated for those; a property about
      which rows are missing, or about which quantity a row holds, is read
      up to rounding.
    - Everything outside the script (the HTTP endpoint, pandas' reading of the
      payload, the image export, the generative model, the square root) is a
      field of the record [world].  The endpoint answers a URL the same way
      throughout one press of the button. *)

From Stdlib Require Import String Ascii List ZArith Lia Bool Arith.
From Stdlib Require Import QArith Qcanon Qround Field DecimalString.
From Stdlib Require Import Sorting.Sorted Sorting.Permutation.
Import ListNotations.

Local Open Scope string_scope.
Local Open Scope Z_scope.

(** ** Python strings *)

Module PyStr.

(** [s.find(c)] for a one-character needle: the least index, or -1. *)
Fixpoint find_from (c : ascii) (s : string) (i : Z) : Z :=
  match s with
  | EmptyString => -1
  | String a s' => if Ascii.eqb a c then i else find_from c s' (i + 1)
  end.

Definition find (c : ascii) (s : string) : Z := find_from c s 0.

(** [s.rfind(c)]: the greatest index, or -1. *)
Fixpoint rfind_from (c : ascii) (s : string) (i last : Z) : Z :=
  match s with
  | EmptyString => last
  | String a s' => rfind_from c s' (i + 1) (if Ascii.eqb a c then i else last)
  end.

Definition rfind (c : ascii) (s : string) : Z := rfind_from c s 0 (-1).

(** [s[a:b]] for [0 <= a]: the script only slices under the guard
    [json_start_index != -1 and json_end_index > json_start_index]. *)
Definition slice (s : string) (a b : Z) : string :=
  substring (Z.to_nat a) (Z.to_nat (b - a)) s.

(** [c in s] *)
Fixpoint contains (c : ascii) (s : string) : bool :=
  match s with
  | EmptyString => false
  | String a s' => Ascii.eqb a c || contains c s'
  end.

Definition len (s : string) : Z := Z.of_nat (String.length s).

End PyStr.

(** ** Exceptions and results *)

Inductive exn : Type :=
| JSONDecodeError (msg : string)          (* json.JSONDecodeError, a ValueError *)
| ValueError (msg : string)
| OtherException (cls msg : string).      (* any other subclass of Exception *)

(** [str(e)], what an f-string prints for [{e}]. *)
Definition str_exn (e : exn) : string :=
  match e with
  | JSONDecodeError m => m
  | ValueError m => m
  | OtherException _ m => m
  end.

Inductive result (A : Type) : Type :=
| Ok (a : A)
| Raise (e : exn).

Arguments Ok {A} a.
Arguments Raise {A} e.

Definition bind {A B : Type} (r : result A) (k : A -> result B) : result B :=
  match r with
  | Ok a => k a
  | Raise e => Raise e
  end.

Notation "x <- r ;; k" := (bind r (fun x => k))
  (at level 61, r at next level, right associativity).

(** [try: body except E as e: handler e]; [handler] returns [None] for an
    exception no clause matches, which then propagates. *)
Definition try_except {A : Type} (body : result A)
    (handler : exn -> option (result A)) : result A :=
  match body with
  | Ok a => Ok a
  | Raise e => match handler e with
               | Some r => r
               | None => Raise e
               end
  end.

(** ** Python dictionaries: insertion-ordered, one entry per key *)

Section Dict.
Context {V : Type}.

Definition dict : Type := list (string * V).

(** [d.get(k)] *)
Fixpoint dict_get (k : string) (d : dict) : option V :=
  match d with
  | [] => None
  | (k', v) :: d' => if String.eqb k k' then Some v else dict_get k d'
  end.

(** [d[k] = v]: a present key keeps its position, a new key goes last. *)
Fixpoint dict_set (k : string) (v : V) (d : dict) : dict :=
  match d with
  | [] => [(k, v)]
  | (k', v') :: d' =>
      if String.eqb k k' then (k', v) :: d' else (k', v') :: dict_set k v d'
  end.

(** [list(d.keys())] *)
Definition dict_keys (d : dict) : list string := map fst d.

(** [dict(pairs)] *)
Definition dict_of_pairs (ps : list (string * V)) : dict :=
  fold_left (fun d kv => dict_set (fst kv) (snd kv) d) ps [].
End Dict.

Arguments dict V : clear implicits.

(** ** JSON values and [json.loads] *)

(** What [json.loads] builds: [None], [bool], a number, [str], [list],
    [dict].  A number keeps the text it was read from. *)
#[warnings="-register-all"]
Inductive json : Type :=
| JNull
| JBool (b : bool)
| JNumber (lexeme : string)
| JString (s : string)
| JArray (items : list json)
| JObject (members : list (string * json)).

Module Json.

Inductive presult (A : Type) : Type :=
| POk (a : A) (rest : string)   (* parsed value and the unread input *)
| PErr (msg : string)           (* the message of the JSONDecodeError *)
| PFuel.                        (* recursion budget exhausted *)

Arguments POk {A} a rest.
Arguments PErr {A} msg.
Arguments PFuel {A}.

Definition pmap {A B : Type} (f : A -> B) (r : presult A) : presult B :=
  match r with
  | POk a rest => POk (f a) rest
  | PErr m => PErr m
  | PFuel => PFuel
  end.

Definition dquote : ascii := "034"%char.
Definition backslash_char : ascii := "\"%char.

Definition code (c : ascii) : Z := Z.of_nat (nat_of_ascii c).
Definition byte (n : Z) : ascii := ascii_of_nat (Z.to_nat n).

(** The decoder's whitespace: space, tab, line feed, carriage return. *)
Definition is_ws (c : ascii) : bool :=
  let n := code c in (n =? 32) || (n =? 9) || (n =? 10) || (n =? 13).

Fixpoint skip_ws (s : string) : string :=
  match s with
  | String c s' => if is_ws c then skip_ws s' else s
  | EmptyString => s
  end.

Definition is_digit (c : ascii) : bool := (48 <=? code c) && (code c <=? 57).

Definition hex_val (c : ascii) : option Z :=
  let n := code c in
  if (48 <=? n) && (n <=? 57) then Some (n - 48)
  else if (97 <=? n) && (n <=? 102) then Some (n - 87)
  else if (65 <=? n) && (n <=? 70) then Some (n - 55)
  else None.

(** The four hexadecimal digits of a [\uXXXX] escape. *)
Definition decode_uXXXX (s : string) : option (Z * string) :=
  match s with
  | String a (String b (String c (String d r))) =>
      match hex_val a, hex_val b, hex_val c, hex_val d with
      | Some x, Some y, Some z, Some w => Some (((x * 16 + y) * 16 + z) * 16 + w, r)
      | _, _, _, _ => None
      end
  | _ => None
  end.

(** [chr(u)] as UTF-8 bytes (a lone surrogate gets the generic three-byte
    form). *)
Definition utf8 (u : Z) : string :=
  if u <? 128 then String (byte u) ""
  else if u <? 2048 then
    String (byte (192 + u / 64)) (String (byte (128 + u mod 64)) "")
  else if u <? 65536 then
    String (byte (224 + u / 4096))
      (String (byte (128 + (u / 64) mod 64)) (String (byte (128 + u mod 64)) ""))
  else
    String (byte (240 + u / 262144))
      (String (byte (128 + (u / 4096) mod 64))
         (String (byte (128 + (u / 64) mod 64)) (String (byte (128 + u mod 64)) ""))).

(** The decoder's BACKSLASH table. *)
Definition backslash (e : ascii) : option ascii :=
  let n := code e in
  if n =? 34 then Some dquote
  else if n =? 92 then Some backslash_char
  else if n =? 47 then Some "/"%char
  else if n =? 98 then Some (byte 8)
  else if n =? 102 then Some (byte 12)
  else if n =? 110 then Some (byte 10)
  else if n =? 114 then Some (byte 13)
  else if n =? 116 then Some (byte 9)
  else None.

(** A high surrogate followed by an escaped low surrogate is one code point. *)
Definition join_surrogates (uni : Z) (r : string) : Z * string :=
  if (55296 <=? uni) && (uni <=? 56319) then
    match r with
    | String b (String u r') =>
        if Ascii.eqb b backslash_char && Ascii.eqb u "u"%char then
          match decode_uXXXX r' with
          | Some (uni2, r'') =>
              if (56320 <=? uni2) && (uni2 <=? 57343)
              then (65536 + ((uni - 55296) * 1024 + (uni2 - 56320)), r'')
              else (uni, r)
          | None => (uni, r)
          end
        else (uni, r)
    | _ => (uni, r)
    end
  else (uni, r).

(** [scanstring], strict mode, entered after the opening quote. *)
Fixpoint scanstring (n : nat) (s : string) : presult string :=
  match n with
  | O => PFuel
  | S n' =>
      match s with
      | EmptyString => PErr "Unterminated string starting at"
      | String c s' =>
          if Ascii.eqb c dquote then POk "" s'
          else if Ascii.eqb c backslash_char then
            match s' with
            | EmptyString => PErr "Unterminated string starting at"
            | String e s'' =>
                if Ascii.eqb e "u"%char then
                  match decode_uXXXX s'' with
                  | None => PErr "Invalid \uXXXX escape"
                  | Some (uni, r) =>
                      let '(uni', r') := join_surrogates uni r in
                      pmap (String.append (utf8 uni')) (scanstring n' r')
                  end
                else
                  match backslash e with
                  | Some ch => pmap (String ch) (scanstring n' s'')
                  | None => PErr "Invalid \escape"
                  end
            end
          else if code c <? 32 then PErr "Invalid control character at"
          else pmap (String c) (scanstring n' s')
      end
  end.

Fixpoint take_digits (s : string) : string * string :=
  match s with
  | String c s' =>
      if is_digit c then let '(d, r) := take_digits s' in (String c d, r)
      else ("", s)
  | EmptyString => ("", s)
  end.

(** The integer part of NUMBER_RE: an optional minus sign, then either a
    single zero or a non-zero digit followed by any digits. *)
Definition lex_int (s : string) : option (string * string) :=
  let '(sign, s1) :=
    match s with
    | String c r => if Ascii.eqb c "-"%char then ("-", r) else ("", s)
    | EmptyString => ("", s)
    end in
  match s1 with
  | String c r =>
      if Ascii.eqb c "0"%char then Some (sign ++ "0", r)
      else if is_digit c then
        let '(d, r') := take_digits r in Some (sign ++ String c d, r')
      else None
  | EmptyString => None
  end.

(** The optional fraction: a dot followed by at least one digit. *)
Definition lex_frac (s : string) : string * string :=
  match s with
  | String c r =>
      if Ascii.eqb c "."%char then
        match take_digits r with
        | (EmptyString, _) => ("", s)
        | (d, r') => (String c d, r')
        end
      else ("", s)
  | EmptyString => ("", s)
  end.

(** The optional exponent: e or E, an optional sign, at least one digit. *)
Definition lex_exp (s : string) : string * string :=
  match s with
  | String c r =>
      if Ascii.eqb c "e"%char || Ascii.eqb c "E"%char then
        let '(sign, r1) :=
          match r with
          | String g r0 =>
              if Ascii.eqb g "-"%char || Ascii.eqb g "+"%char
              then (String g "", r0) else ("", r)
          | EmptyString => ("", r)
          end in
        match take_digits r1 with
        | (EmptyString, _) => ("", s)
        | (d, r') => (String c (sign ++ d), r')
        end
      else ("", s)
  | EmptyString => ("", s)
  end.

Definition lex_number (s : string) : option (string * string) :=
  match lex_int s with
  | None => None
  | Some (i, r) =>
      let '(f, r1) := lex_frac r in
      let '(e, r2) := lex_exp r1 in
      Some (i ++ f ++ e, r2)
  end.

(** [s[n:]] *)
Fixpoint drop (n : nat) (s : string) : string :=
  match n, s with
  | S n', String _ s' => drop n' s'
  | _, _ => s
  end.

Definition literal (w : string) (v : json) (s : string) : option (presult json) :=
  if String.prefix w s then Some (POk v (drop (String.length w) s)) else None.

Definition first_of {A : Type} (xs : list (option A)) (dflt : A) : A :=
  fold_right (fun o acc => match o with Some a => a | None => acc end) dflt xs.

(** [scan_once], with [JSONObject] and [JSONArray] as its two loops.  All
    three count down the same budget. *)
Fixpoint scan_once (n : nat) (s : string) : presult json :=
  match n with
  | O => PFuel
  | S n' =>
      match s with
      | EmptyString => PErr "Expecting value"
      | String c s' =>
          if Ascii.eqb c dquote then
            pmap JString (scanstring (S (String.length s')) s')
          else if Ascii.eqb c "{"%char then
            match skip_ws s' with
            | String c1 r1 =>
                if Ascii.eqb c1 "}"%char then POk (JObject []) r1
                else if Ascii.eqb c1 dquote then object_members n' [] r1
                else PErr "Expecting property name enclosed in double quotes"
            | EmptyString =>
                PErr "Expecting property name enclosed in double quotes"
            end
          else if Ascii.eqb c "["%char then
            match skip_ws s' with
            | String c1 r1 =>
                if Ascii.eqb c1 "]"%char then POk (JArray []) r1
                else array_items n' [] (skip_ws s')
            | EmptyString => PErr "Expecting value"
            end
          else
            first_of
              [ literal "null" JNull s;
                literal "true" (JBool true) s;
                literal "false" (JBool false) s;
                option_map (fun '(lx, r) => POk (JNumber lx) r) (lex_number s);
                literal "NaN" (JNumber "NaN") s;
                literal "Infinity" (JNumber "Infinity") s;
                literal "-Infinity" (JNumber "-Infinity") s ]
              (PErr "Expecting value")
      end
  end

(** The loop of [JSONObject], entered after the opening quote of a key;
    [acc] is the dictionary built so far. *)
with object_members (n : nat) (acc : dict json) (s : string) : presult json :=
  match n with
  | O => PFuel
  | S n' =>
      match scanstring (S (String.length s)) s with
      | PFuel => PFuel
      | PErr m => PErr m
      | POk key r =>
          match skip_ws r with
          | String c r1 =>
              if Ascii.eqb c ":"%char then
                match scan_once n' (skip_ws r1) with
                | PFuel => PFuel
                | PErr m => PErr m
                | POk v r2 =>
                    let acc' := dict_set key v acc in
                    match skip_ws r2 with
                    | String c2 r3 =>
                        if Ascii.eqb c2 "}"%char then POk (JObject acc') r3
                        else if Ascii.eqb c2 ","%char then
                          match skip_ws r3 with
                          | String c3 r4 =>
                              if Ascii.eqb c3 dquote
                              then object_members n' acc' r4
                              else PErr "Expecting property name enclosed in double quotes"
                          | EmptyString =>
                              PErr "Expecting property name enclosed in double quotes"
                          end
                        else PErr "Expecting ',' delimiter"
                    | EmptyString => PErr "Expecting ',' delimiter"
                    end
                end
              else PErr "Expecting ':' delimiter"
          | EmptyString => PErr "Expecting ':' delimiter"
          end
      end
  end

(** The loop of [JSONArray], entered at the first character of an item;
    [acc] holds the items read so far, last first. *)
with array_items (n : nat) (acc : list json) (s : string) : presult json :=
  match n with
  | O => PFuel
  | S n' =>
      match scan_once n' s with
      | PFuel => PFuel
      | PErr m => PErr m
      | POk v r =>
          match skip_ws r with
          | String c r1 =>
              if Ascii.eqb c "]"%char then POk (JArray (rev (v :: acc))) r1
              else if Ascii.eqb c ","%char then array_items n' (v :: acc) (skip_ws r1)
              else PErr "Expecting ',' delimiter"
          | EmptyString => PErr "Expecting ',' delimiter"
          end
      end
  end.

(** The digits of a piece of a number's text read as one whole number; the
    other characters (a sign, the dot, the letter of the exponent) are
    passed over. *)
Definition digits_value (s : string) : Z :=
  fold_left (fun acc c => if is_digit c then 10 * acc + (code c - 48) else acc)
            (list_ascii_of_string s) 0.

Definition count_digits (s : string) : Z :=
  Z.of_nat (List.length (filter is_digit (list_ascii_of_string s))).

(** The text of a number as its sign, its digits and a power of ten:
    [-12.50e-3] is minus 1250 x 10^-5.  [None] for [NaN], [Infinity] and
    [-Infinity]. *)
Definition number_parts (lexeme : string) : option (bool * Z * Z) :=
  match lex_int lexeme with
  | None => None
  | Some (i, r) =>
      let '(f, r1) := lex_frac r in
      let '(e, _) := lex_exp r1 in
      let exponent :=
        if PyStr.contains "-"%char e then - digits_value e else digits_value e in
      Some (String.prefix "-" i, digits_value (i ++ f), exponent - count_digits f)
  end.

(** The decoder builds an [int] from a number without fraction and exponent
    and a [float] from any other. *)
Definition is_int_lexeme (lexeme : string) : bool :=
  match lex_int lexeme with
  | Some (_, EmptyString) => true
  | _ => false
  end.

(** Whether the number [m x 10^k] is read as zero: a [float] is zero up to
    2^-1075, half the least positive double. *)
Definition reads_as_zero (m k : Z) : bool :=
  if 0 <=? k then m =? 0 else m * 2 ^ 1075 <=? 10 ^ (- k).

End Json.

(** The UTF-8 bytes of U+FEFF. *)
Definition utf8_bom : string :=
  String (Json.byte 239) (String (Json.byte 187) (String (Json.byte 191) "")).

(** [json.loads(s)]: leading whitespace, one value, trailing whitespace,
    nothing else.  The text of a [JSONDecodeError] is the decoder's message
    without its position suffix.  The budget of two steps per character is
    never used up ([json_loads_decodes] below).  The limits of the
    interpreter stand outside the model: CPython gives up with a
    RecursionError on a text nested deeper than its recursion limit and with
    a ValueError on a whole number of more than 4300 digits. *)
Definition json_loads (s : string) : result json :=
  if String.prefix utf8_bom s then
    Raise (JSONDecodeError "Unexpected UTF-8 BOM (decode using utf-8-sig)")
  else
    match Json.scan_once (S (2 * String.length s)) (Json.skip_ws s) with
    | Json.POk v r =>
        match Json.skip_ws r with
        | EmptyString => Ok v
        | String _ _ => Raise (JSONDecodeError "Extra data")
        end
    | Json.PErr m => Raise (JSONDecodeError m)
    | Json.PFuel =>
        Raise (OtherException "RecursionError" "maximum recursion depth exceeded")
    end.

Definition q : string := String Json.dquote "".

(** [type(v).__name__] *)
Definition type_name (v : json) : string :=
  match v with
  | JNull => "NoneType"
  | JBool _ => "bool"
  | JNumber lexeme => if Json.is_int_lexeme lexeme then "int" else "float"
  | JString _ => "str"
  | JArray _ => "list"
  | JObject _ => "dict"
  end.

(** [bool(v)], the test of [if not v]: [None], [False], zero and the empty
    string, list and dict are false. *)
Definition truthy (v : json) : bool :=
  match v with
  | JNull => false
  | JBool b => b
  | JNumber lexeme =>
      match Json.number_parts lexeme with
      | Some (_, m, k) => negb (Json.reads_as_zero m k)
      | None => true
      end
  | JString s => negb (String.eqb s "")
  | JArray [] => false
  | JArray (_ :: _) => true
  | JObject [] => false
  | JObject (_ :: _) => true
  end.

(** [v.get(key, default)]: a method of [dict] alone. *)
Definition py_get (v : json) (key : string) (default : json) : result json :=
  match v with
  | JObject members =>
      Ok match dict_get key members with
         | Some x => x
         | None => default
         end
  | _ =>
      Raise (OtherException "AttributeError"
               ("'" ++ type_name v ++ "' object has no attribute 'get'"))
  end.

(** ** Series and DataFrames *)

(** A float64 cell; [None] is NaN. *)
Definition cell : Type := option Qc.
Definition series : Type := list cell.

(** An integer as a cell value. *)
Definition qc (z : Z) : Qc := Q2Qc (inject_Z z).

Module Series.

Definition lift2 (f : Qc -> Qc -> Qc) (a b : cell) : cell :=
  match a, b with
  | Some x, Some y => Some (f x y)
  | _, _ => None
  end.

(** Elementwise operators of two series over the same index. *)
Definition add (xs ys : series) : series :=
  map (fun p => lift2 Qcplus (fst p) (snd p)) (combine xs ys).
Definition sub (xs ys : series) : series :=
  map (fun p => lift2 Qcminus (fst p) (snd p)) (combine xs ys).
Definition mul (xs ys : series) : series :=
  map (fun p => lift2 Qcmult (fst p) (snd p)) (combine xs ys).
Definition scale (k : Qc) (xs : series) : series :=
  map (option_map (Qcmult k)) xs.

(** [a / b].  Zero over zero is not a number.  Any other float over zero is
    an infinity, which the cells do not have: where the script divides by a
    sum of volumes, the properties ask for volumes that are not negative,
    so that a divisor of zero comes with a dividend of zero. *)
Definition cell_div (a b : cell) : cell :=
  match a, b with
  | Some x, Some y => if Qc_eq_dec y 0%Qc then None else Some (x / y)%Qc
  | _, _ => None
  end.
Definition div (xs ys : series) : series :=
  map (fun p => cell_div (fst p) (snd p)) (combine xs ys).

(** [s.cumsum()], skipna: a NaN row stays NaN and the running sum steps
    over it. *)
Fixpoint cumsum_from (acc : Qc) (xs : series) : series :=
  match xs with
  | [] => []
  | None :: xs' => None :: cumsum_from acc xs'
  | Some x :: xs' => Some (acc + x)%Qc :: cumsum_from (acc + x)%Qc xs'
  end.
Definition cumsum (xs : series) : series := cumsum_from 0%Qc xs.

Definition sum (xs : list Qc) : Qc := fold_right Qcplus 0%Qc xs.
Definition count (xs : list Qc) : Qc := qc (Z.of_nat (length xs)).

(** The non-NaN values of a run of cells. *)
Definition observations (xs : series) : list Qc :=
  flat_map (fun c => match c with Some x => [x] | None => [] end) xs.

(** The rows [i-w+1 .. i] of a trailing window (fewer at the start). *)
Definition window (w : nat) (xs : series) (i : nat) : series :=
  skipn (S i - w) (firstn (S i) xs).

(** [s.rolling(window=w)] followed by a reduction: [min_periods] defaults to
    the window size, so a row with fewer than [w] observations in its window
    is NaN. *)
Definition rolling (w : nat) (f : list Qc -> cell) (xs : series) : series :=
  map (fun i =>
         let obs := observations (window w xs i) in
         if (w <=? length obs)%nat then f obs else None)
      (seq 0 (length xs)).

Definition mean (obs : list Qc) : cell :=
  cell_div (Some (sum obs)) (Some (count obs)).

(** Sample standard deviation (ddof = 1). *)
Definition std (sqrt : Qc -> Qc) (obs : list Qc) : cell :=
  match mean obs with
  | Some m =>
      option_map sqrt
        (cell_div (Some (sum (map (fun x => (x - m) * (x - m))%Qc obs)))
                  (Some (count obs - 1)%Qc))
  | None => None
  end.

Definition rolling_mean (w : nat) (xs : series) : series := rolling w mean xs.
Definition rolling_std (sqrt : Qc -> Qc) (w : nat) (xs : series) : series :=
  rolling w (std sqrt) xs.

(** [s.ewm(span=span).mean()] with pandas' defaults [adjust=True],
    [ignore_na=False], [min_periods=0]: the running weighted mean
    [weighted], and the total weight [old_wt] of the rows behind it, which
    decays by [1 - alpha] at every row.  (pandas leaves [weighted] alone when
    the new value equals it, to spare a rounding; in exact arithmetic the
    update gives the same value.) *)
Fixpoint ewm_loop (old_wt_factor new_wt : Qc) (weighted : cell) (old_wt : Qc)
    (xs : series) : series :=
  match xs with
  | [] => []
  | cur :: xs' =>
      let '(weighted', old_wt') :=
        match weighted with
        | Some wv =>
            let ow := (old_wt * old_wt_factor)%Qc in
            match cur with
            | Some c =>
                (Some ((ow * wv + new_wt * c) / (ow + new_wt))%Qc, (ow + new_wt)%Qc)
            | None => (Some wv, ow)
            end
        | None => (cur, old_wt)
        end in
      weighted' :: ewm_loop old_wt_factor new_wt weighted' old_wt' xs'
  end.

Definition ewm_mean (span : Qc) (xs : series) : series :=
  let alpha := (qc 2 / (span + 1))%Qc in
  match xs with
  | [] => []
  | x0 :: xs' => x0 :: ewm_loop (1 - alpha)%Qc 1%Qc x0 1%Qc xs'
  end.

End Series.

(** A DataFrame after [set_index("Date")]: the dates are the index, the
    other fields are named columns in their order. *)
Record DataFrame : Type := mkDataFrame {
  index : list Z;
  columns : dict series
}.

(** [pd.DataFrame()] *)
Definition empty_frame : DataFrame := mkDataFrame [] [].

(** [df.empty]: no rows or no columns. *)
Definition df_empty (df : DataFrame) : bool :=
  match index df, columns df with
  | [], _ => true
  | _, [] => true
  | _, _ => false
  end.

(** [df[name]]; a missing column raises KeyError. *)
Definition getitem (df : DataFrame) (name : string) : result series :=
  match dict_get name (columns df) with
  | Some s => Ok s
  | None => Raise (OtherException "KeyError" name)
  end.

(** [df[name] = s] *)
Definition setitem (df : DataFrame) (name : string) (s : series) : DataFrame :=
  mkDataFrame (index df) (dict_set name s (columns df)).

(** ** What the script shows and what it talks to *)

(** One candlestick trace and the line traces added over it. *)
Record Candlestick : Type := mkCandlestick {
  cs_x : list Z;
  cs_open : series;
  cs_high : series;
  cs_low : series;
  cs_close : series;
  cs_name : string
}.

Record Scatter : Type := mkScatter {
  sc_x : list Z;
  sc_y : series;
  sc_mode : string;
  sc_name : string
}.

Record Figure : Type := mkFigure {
  fig_candles : Candlestick;
  fig_traces : list Scatter;
  xaxis_rangeslider_visible : bool
}.

(** [fig.add_trace(t)] *)
Definition add_trace (fig : Figure) (t : Scatter) : Figure :=
  mkFigure (fig_candles fig) (fig_traces fig ++ [t])%list (xaxis_rangeslider_visible fig).

(** A row of the summary table. *)
Record summary_row : Type := mkRow {
  Stock : string;
  Recommendation : json
}.

(** The calls the script makes on streamlit, in order. *)
Inductive ui_event : Type :=
| st_warning (msg : string)
| st_success (msg : string)
| st_info (msg : string)
| st_subheader (msg : string)
| st_plotly_chart (fig : Figure)
| st_write (value : json)
| st_table (rows : list summary_row).

(** A row of the frame that [pd.DataFrame(historical)] builds.  [h_date] is
    the timestamp that [pd.to_datetime] reads from the row's date, in days; a
    value field is either something [pd.to_numeric] reads as a number or
    anything else. *)
Inductive payload_value : Type :=
| PNumeric (x : Qc)
| PNonNumeric (text : string).

Record hist_record : Type := mkHist {
  h_date : Z;
  h_open : payload_value;
  h_high : payload_value;
  h_low : payload_value;
  h_close : payload_value;
  h_volume : payload_value
}.

Record http_response : Type := mkResponse {
  status_code : Z;
  reason : string;                    (* resp.reason, the text of the status *)
  resp_url : string;                  (* resp.url *)
  resp_json : result json             (* resp.json() *)
}.

(** The reply of the generative model; reading [.text] may itself raise. *)
Record gen_response : Type := mkGenResponse {
  text : result string
}.

Record world : Type := mkWorld {
  requests_get : string -> result http_response;          (* requests.get(url, timeout=30) *)
  frame_records : json -> result (list hist_record);
      (* pandas on the value under "historical", lines 81 to 95:
         pd.DataFrame, the renaming, pd.to_datetime and the look-up of the six
         columns give these rows, or raise *)
  write_image : Figure -> result string;                  (* the PNG bytes of fig.write_image *)
  generate_content : string -> string -> result gen_response;
      (* gen_model.generate_content on the prompt and the image bytes *)
  sqrt : Qc -> Qc
}.

(** ** 4. Fetch Data from FMP *)

Record pydate : Type := mkDate { year : Z; month : Z; day : Z }.

Definition str_of_Z (z : Z) : string := NilZero.string_of_int (Z.to_int z).
Definition pad2 (z : Z) : string :=
  if z <? 10 then "0" ++ str_of_Z z else str_of_Z z.

(** [d.strftime("%Y-%m-%d")] *)
Definition strftime_ymd (d : pydate) : string :=
  str_of_Z (year d) ++ "-" ++ pad2 (month d) ++ "-" ++ pad2 (day d).

Definition FMP_API_KEY : string := "".

(** [resp.raise_for_status()] *)
Definition raise_for_status (resp : http_response) : result unit :=
  let status := status_code resp in
  if (400 <=? status) && (status <? 500) then
    Raise (OtherException "HTTPError"
             (str_of_Z status ++ " Client Error: " ++ reason resp
              ++ " for url: " ++ resp_url resp))
  else if (500 <=? status) && (status <? 600) then
    Raise (OtherException "HTTPError"
             (str_of_Z status ++ " Server Error: " ++ reason resp
              ++ " for url: " ++ resp_url resp))
  else Ok tt.

(** A row of the frame once its fields are renamed and converted. *)
Record bar : Type := mkBar {
  Date : Z;
  Open : cell;
  High : cell;
  Low : cell;
  Close : cell;
  Volume : cell
}.

(** [pd.to_numeric(x, errors="coerce")] *)
Definition to_numeric (v : payload_value) : cell :=
  match v with
  | PNumeric x => Some x
  | PNonNumeric _ => None
  end.

Definition bar_of_record (r : hist_record) : bar :=
  mkBar (h_date r) (to_numeric (h_open r)) (to_numeric (h_high r))
        (to_numeric (h_low r)) (to_numeric (h_close r)) (to_numeric (h_volume r)).

(** [df.sort_values("Date")]: ascending.  pandas does not promise an order
    among rows of equal date; this insertion keeps them in payload order. *)
Fixpoint insert_by_date (b : bar) (bs : list bar) : list bar :=
  match bs with
  | [] => [b]
  | b' :: bs' =>
      if Date b <=? Date b' then b :: bs else b' :: insert_by_date b bs'
  end.

Fixpoint sort_values (bs : list bar) : list bar :=
  match bs with
  | [] => []
  | b :: bs' => insert_by_date b (sort_values bs')
  end.

(** [df.set_index("Date")] *)
Definition set_index (bs : list bar) : DataFrame :=
  mkDataFrame (map Date bs)
    [ ("Open", map Open bs); ("High", map High bs); ("Low", map Low bs);
      ("Close", map Close bs); ("Volume", map Volume bs) ].

Definition fmp_url (ticker : string) (start_dt end_dt : pydate) (apikey : string) : string :=
  "https://financialmodelingprep.com/api/v3/historical-price-full/" ++ ticker
  ++ "?from=" ++ strftime_ymd start_dt ++ "&to=" ++ strftime_ymd end_dt
  ++ "&apikey=" ++ apikey.

(** The body of the [try]: the request, the status check, the decoding. *)
Definition fetch_json (w : world) (url : string) : result json :=
  resp <- requests_get w url ;;
  _ <- raise_for_status resp ;;
  resp_json resp.

(** [fetch_fmp_data]: the frame and the warnings it shows on the way, or the
    exception that leaves it.  Only the request, the status check and the
    decoding stand inside the [try]. *)
Definition fetch_fmp_data (w : world) (ticker : string) (start_dt end_dt : pydate)
    : result (DataFrame * list ui_event) :=
  let url := fmp_url ticker start_dt end_dt FMP_API_KEY in
  match fetch_json w url with
  | Raise e =>
      Ok (empty_frame,
          [st_warning ("Error fetching data from FMP for " ++ ticker ++ ": " ++ str_exn e)])
  | Ok data_json =>
      historical <- py_get data_json "historical" (JArray []) ;;
      if negb (truthy historical) then Ok (empty_frame, [])
      else
        records <- frame_records w historical ;;
        Ok (set_index (sort_values (map bar_of_record records)), [])
  end.

(** ** 5. Data Fetch Button *)

(** [", ".join(xs)] *)
Fixpoint join (sep : string) (xs : list string) : string :=
  match xs with
  | [] => ""
  | [x] => x
  | x :: xs' => x ++ sep ++ join sep xs'
  end.

(** The loop over [tickers], from the [stock_data] built so far. *)
Fixpoint fetch_loop (w : world) (start_date end_date : pydate)
    (tickers : list string) (stock_data : dict DataFrame)
    : result (dict DataFrame * list ui_event) :=
  match tickers with
  | [] => Ok (stock_data, [])
  | ticker :: rest =>
      fetched <- fetch_fmp_data w ticker start_date end_date ;;
      let '(df, warned) := fetched in
      let '(stock_data', shown) :=
        if negb (df_empty df) then (dict_set ticker df stock_data, [])
        else (stock_data,
              [st_warning ("No data found for " ++ ticker ++ " (FMP returned empty).")]) in
      looped <- fetch_loop w start_date end_date rest stock_data' ;;
      let '(final, later) := looped in
      Ok (final, (warned ++ shown ++ later)%list)
  end.

(** The handler of the button: the new [st.session_state["stock_data"]] and
    what is shown, or the exception that ends the handler. *)
Definition fetch_button (w : world) (tickers : list string)
    (start_date end_date : pydate) : result (dict DataFrame * list ui_event) :=
  looped <- fetch_loop w start_date end_date tickers [] ;;
  let '(stock_data, shown) := looped in
  Ok (stock_data,
      (shown ++
       [ match stock_data with
         | _ :: _ =>
             st_success ("Stock data loaded successfully for: "
                         ++ join ", " (dict_keys stock_data))
         | [] =>
             st_warning "No stock data loaded. Check tickers, date range, or FMP usage."
         end ])%list).

(** ** 6. Analysis + Chart *)

Section Analysis.
Variable w : world.
Variable indicators : list string.     (* the sidebar's multiselect *)

(** [add_indicator(ind)], on the frame and the figure it closes over. *)
Definition add_indicator (ind : string) (st : DataFrame * Figure)
    : result (DataFrame * Figure) :=
  let '(data, fig) := st in
  if String.eqb ind "20-Day SMA" then
    close <- getitem data "Close" ;;
    let sma := Series.rolling_mean 20 close in
    Ok (data, add_trace fig (mkScatter (index data) sma "lines" "SMA (20)"))
  else if String.eqb ind "20-Day EMA" then
    close <- getitem data "Close" ;;
    let ema := Series.ewm_mean (qc 20) close in
    Ok (data, add_trace fig (mkScatter (index data) ema "lines" "EMA (20)"))
  else if String.eqb ind "20-Day Bollinger Bands" then
    close <- getitem data "Close" ;;
    let sma := Series.rolling_mean 20 close in
    close' <- getitem data "Close" ;;
    let std := Series.rolling_std (sqrt w) 20 close' in
    let bb_upper := Series.add sma (Series.scale (qc 2) std) in
    let bb_lower := Series.sub sma (Series.scale (qc 2) std) in
    let fig1 := add_trace fig (mkScatter (index data) bb_upper "lines" "BB Upper") in
    Ok (data, add_trace fig1 (mkScatter (index data) bb_lower "lines" "BB Lower"))
  else if String.eqb ind "VWAP" then
    close <- getitem data "Close" ;;
    volume <- getitem data "Volume" ;;
    volume' <- getitem data "Volume" ;;
    let data' :=
      setitem data "VWAP"
        (Series.div (Series.cumsum (Series.mul close volume)) (Series.cumsum volume')) in
    vwap <- getitem data' "VWAP" ;;
    Ok (data', add_trace fig (mkScatter (index data') vwap "lines" "VWAP"))
  else Ok (data, fig).

(** [for indicator in indicators: add_indicator(indicator)] *)
Fixpoint add_indicators (inds : list string) (st : DataFrame * Figure)
    : result (DataFrame * Figure) :=
  match inds with
  | [] => Ok st
  | ind :: rest => st' <- add_indicator ind st ;; add_indicators rest st'
  end.

Definition analysis_prompt (ticker : string) : string :=
  "You are a Stock Trader specializing in Technical Analysis at a top financial institution. "
  ++ "Analyze the stock chart for " ++ ticker
  ++ " based on its candlestick chart and the displayed technical indicators. "
  ++ "Provide a detailed justification of your analysis, explaining what patterns, signals, and trends you observe. "
  ++ "Then, based solely on the chart, provide a recommendation from the following options: "
  ++ "'Strong Buy', 'Buy', 'Weak Buy', 'Hold', 'Weak Sell', 'Sell', or 'Strong Sell'. "
  ++ "Return your output as a JSON object with two keys: 'action' and 'justification'.".

(** The body of the [try] that reads the reply. *)
Definition extract_json (response : gen_response) : result json :=
  result_text <- text response ;;
  let json_start_index := PyStr.find "{"%char result_text in
  let json_end_index := PyStr.rfind "}"%char result_text + 1 in
  if negb (json_start_index =? -1) && (json_end_index >? json_start_index) then
    let json_string := PyStr.slice result_text json_start_index json_end_index in
    json_loads json_string
  else Raise (ValueError "No valid JSON object found in the response").

(** The dictionary an [except] clause builds; its f-string reads
    [response.text] again. *)
Definition error_result (label : string) (e : exn) (response : gen_response)
    : result json :=
  raw <- text response ;;
  Ok (JObject
        [ ("action", JString "Error");
          ("justification", JString (label ++ str_exn e ++ ". Raw text: " ++ raw)) ]).

(** The three [except] clauses, in their order. *)
Definition except_clauses (response : gen_response) (e : exn) : option (result json) :=
  match e with
  | JSONDecodeError _ => Some (error_result "JSON Parsing error: " e response)
  | ValueError _ => Some (error_result "Value Error: " e response)
  | OtherException _ _ => Some (error_result "General Error: " e response)
  end.

Definition parse_response (response : gen_response) : result json :=
  try_except (extract_json response) (except_clauses response).

(** [analyze_ticker(ticker, data)]: the figure and the result it returns,
    with the frame as the call leaves it. *)
Definition analyze_ticker (ticker : string) (data : DataFrame)
    : result (DataFrame * Figure * json) :=
  o <- getitem data "Open" ;;
  h <- getitem data "High" ;;
  l <- getitem data "Low" ;;
  c <- getitem data "Close" ;;
  let fig := mkFigure (mkCandlestick (index data) o h l c "Candlestick") [] true in
  st <- add_indicators indicators (data, fig) ;;
  let '(data1, fig1) := st in
  let fig2 := mkFigure (fig_candles fig1) (fig_traces fig1) false in
  image_bytes <- write_image w fig2 ;;
  response <- generate_content w (analysis_prompt ticker) image_bytes ;;
  result <- parse_response response ;;
  Ok (data1, fig2, result).

(** [result.get(key, default)] *)
Definition result_get (res : json) (key deflt : string) : result json :=
  match res with
  | JObject d =>
      Ok match dict_get key d with
         | Some v => v
         | None => JString deflt
         end
  | _ => Raise (OtherException "AttributeError" "get")
  end.

(** What the page holds once every ticker of [stock_data] is analysed. *)
Record page : Type := mkPage {
  session : dict DataFrame;             (* st.session_state["stock_data"] *)
  overall_results : list summary_row;
  ticker_tabs : list (string * list ui_event)
}.

(** The loop over the tickers of [stock_data]. *)
Fixpoint analyze_loop (todo : list string) (p : page) : result page :=
  match todo with
  | [] => Ok p
  | ticker :: rest =>
      match dict_get ticker (session p) with
      | None => Raise (OtherException "KeyError" ticker)
      | Some data =>
          r <- analyze_ticker ticker data ;;
          let '(data', fig, result) := r in
          action <- result_get result "action" "N/A" ;;
          justification <- result_get result "justification" "No justification provided." ;;
          analyze_loop rest
            (mkPage (dict_set ticker data' (session p))
                    (overall_results p ++ [mkRow ticker action])%list
                    (ticker_tabs p ++
                     [(ticker,
                       [ st_subheader ("Analysis for " ++ ticker);
                         st_plotly_chart fig;
                         st_write (JString "**Detailed Justification:**");
                         st_write justification ])])%list)
      end
  end.

(** The tabs of the page, "Overall Summary" first; without stock data, the
    hint to fetch some. *)
Definition render (stock_data : dict DataFrame)
    : result (dict DataFrame * list (string * list ui_event)) :=
  match stock_data with
  | [] => Ok (stock_data, [("", [st_info "Please fetch stock data using the sidebar."])])
  | _ :: _ =>
      p <- analyze_loop (dict_keys stock_data) (mkPage stock_data [] []) ;;
      Ok (session p,
          ("Overall Summary",
           [ st_subheader "Overall Structured Recommendations";
             st_table (overall_results p) ]) :: ticker_tabs p)
  end.

End Analysis.

(** The summary table of a rendered page, if it has one. *)
Definition summary_table (tabs : list (string * list ui_event)) : option (list summary_row) :=
  match tabs with
  | (_, [_; st_table rows]) :: _ => Some rows
  | _ => None
  end.

(** One press of "Fetch Data" followed by the rerun that analyses it. *)
Definition run (w : world) (indicators tickers : list string)
    (start_date end_date : pydate)
    : result (dict DataFrame * list (string * list ui_event)) :=
  pressed <- fetch_button w tickers start_date end_date ;;
  render w indicators (fst pressed).

(** ** 3. Sidebar Inputs *)

(** The list of tickers read from the text box.  The three string methods
    are modelled on ASCII text: on other text [strip] also removes Unicode
    spaces and [upper] also changes letters outside a-z, which a string of
    UTF-8 bytes does not follow. *)
Module Sidebar.

Definition is_ascii (s : string) : bool :=
  forallb (fun c => Json.code c <? 128) (list_ascii_of_string s).

(** [c.isspace()]: tab to carriage return, the four separators 28-31, space. *)
Definition isspace (c : ascii) : bool :=
  let n := Json.code c in
  ((9 <=? n) && (n <=? 13)) || ((28 <=? n) && (n <=? 32)).

(** [s.lstrip()] *)
Fixpoint lstrip (s : string) : string :=
  match s with
  | String c s' => if isspace c then lstrip s' else s
  | EmptyString => EmptyString
  end.

(** [s.rstrip()] *)
Fixpoint rstrip (s : string) : string :=
  match s with
  | EmptyString => EmptyString
  | String c s' =>
      match rstrip s' with
      | EmptyString => if isspace c then EmptyString else String c EmptyString
      | r => String c r
      end
  end.

(** [s.strip()] *)
Definition strip (s : string) : string := lstrip (rstrip s).

Definition upper_char (c : ascii) : ascii :=
  let n := Json.code c in
  if (97 <=? n) && (n <=? 122) then Json.byte (n - 32) else c.

(** [s.upper()] *)
Fixpoint upper (s : string) : string :=
  match s with
  | String c s' => String (upper_char c) (upper s')
  | EmptyString => EmptyString
  end.

(** [s.split(sep)] for a one-character separator: the pieces between the
    separators, empty ones included; never the empty list. *)
Fixpoint split (sep : ascii) (s : string) : list string :=
  match s with
  | EmptyString => [EmptyString]
  | String c s' =>
      if Ascii.eqb c sep then EmptyString :: split sep s'
      else match split sep s' with
           | piece :: pieces => String c piece :: pieces
           | [] => [String c EmptyString]
           end
  end.

(** [[t.strip().upper() for t in tickers_input.split(",") if t.strip()]] *)
Definition tickers_of_input (tickers_input : string) : list string :=
  map (fun t => upper (strip t))
      (filter (fun t => negb (String.eqb (strip t) ""))
              (split ","%char tickers_input)).

End Sidebar.

(** ** Vocabulary of the properties *)

(** The span the script hands to [json.loads]: from the first opening brace
    through the last closing brace. *)
Definition brace_span (result_text : string) : string :=
  PyStr.slice result_text (PyStr.find "{"%char result_text)
              (PyStr.rfind "}"%char result_text + 1).

(** The guard of the [if] in front of the slice. *)
Definition has_brace_span (result_text : string) : bool :=
  negb (PyStr.find "{"%char result_text =? -1)
  && (PyStr.rfind "}"%char result_text + 1 >? PyStr.find "{"%char result_text).

(** The two entries of a verdict. *)
Definition verdict_action (v : json) : option json :=
  match v with
  | JObject d => dict_get "action" d
  | _ => None
  end.

Definition verdict_justification (v : json) : option json :=
  match v with
  | JObject d => dict_get "justification" d
  | _ => None
  end.

(** The dictionary of an [except] clause, spelled out. *)
Definition error_verdict (justification : string) : json :=
  JObject [("action", JString "Error"); ("justification", JString justification)].

(** The seven labels the prompt offers. *)
Definition recommendation_labels : list string :=
  ["Strong Buy"; "Buy"; "Weak Buy"; "Hold"; "Weak Sell"; "Sell"; "Strong Sell"].

Definition enumerated_action (v : json) : Prop :=
  exists a, verdict_action v = Some (JString a) /\
            (In a recommendation_labels \/ a = "Error").

(** The label each [except] clause puts in front of the exception. *)
Definition clause_label (e : exn) : string :=
  match e with
  | JSONDecodeError _ => "JSON Parsing error: "
  | ValueError _ => "Value Error: "
  | OtherException _ _ => "General Error: "
  end.

(** The columns a fetched frame holds besides its index of dates. *)
Definition source_columns : list string := ["Open"; "High"; "Low"; "Close"; "Volume"].

(** The running VWAP as [add_indicator] computes it from two columns. *)
Definition cumulative_vwap (close volume : series) : series :=
  Series.div (Series.cumsum (Series.mul close volume)) (Series.cumsum volume).

(** [s.min()] and [s.max()] of a series without NaN. *)
Definition Qcmin (a b : Qc) : Qc := if Qclt_le_dec b a then b else a.
Definition Qcmax (a b : Qc) : Qc := if Qclt_le_dec a b then b else a.
Definition minimum (x : Qc) (xs : list Qc) : Qc := fold_left Qcmin xs x.
Definition maximum (x : Qc) (xs : list Qc) : Qc := fold_left Qcmax xs x.

(** A parse that has not run out of budget and, when it succeeds, has read at
    least one character of [s]. *)
Definition progresses {A : Type} (x : Json.presult A) (s : string) : Prop :=
  x <> Json.PFuel /\
  forall a r, x = Json.POk a r -> (String.length r < String.length s)%nat.

(** A ticker as the sidebar delivers it: not empty, free of commas, without
    space at either end, without a lower-case letter. *)
Definition clean_ticker (t : string) : Prop :=
  t <> ""%string /\
  PyStr.contains ","%char t = false /\
  Sidebar.strip t = t /\
  Sidebar.upper t = t.

(** Every column of a frame has one cell per date. *)
Definition frame_aligned (df : DataFrame) : Prop :=
  Forall (fun col => length (snd col) = length (index df)) (columns df).

(** A line trace has one value per date. *)
Definition trace_aligned (t : Scatter) : Prop := length (sc_y t) = length (sc_x t).

(** The two Bollinger series as [add_indicator] computes them. *)
Definition bollinger_upper (sqrt : Qc -> Qc) (close : series) : series :=
  Series.add (Series.rolling_mean 20 close)
             (Series.scale (qc 2) (Series.rolling_std sqrt 20 close)).

Definition bollinger_lower (sqrt : Qc -> Qc) (close : series) : series :=
  Series.sub (Series.rolling_mean 20 close)
             (Series.scale (qc 2) (Series.rolling_std sqrt 20 close)).

(** The traces one indicator draws from the dates, the closes and the
    volumes; a name outside the four draws nothing. *)
Definition indicator_traces (sqrt : Qc -> Qc) (dates : list Z) (close volume : series)
    (ind : string) : list Scatter :=
  if String.eqb ind "20-Day SMA" then
    [mkScatter dates (Series.rolling_mean 20 close) "lines" "SMA (20)"]
  else if String.eqb ind "20-Day EMA" then
    [mkScatter dates (Series.ewm_mean (qc 20) close) "lines" "EMA (20)"]
  else if String.eqb ind "20-Day Bollinger Bands" then
    [ mkScatter dates (bollinger_upper sqrt close) "lines" "BB Upper";
      mkScatter dates (bollinger_lower sqrt close) "lines" "BB Lower" ]
  else if String.eqb ind "VWAP" then
    [mkScatter dates (cumulative_vwap close volume) "lines" "VWAP"]
  else [].

(** The frame once the indicators [inds] have run over it. *)
Definition frame_after (inds : list string) (data : DataFrame) (close volume : series)
    : DataFrame :=
  if existsb (String.eqb "VWAP") inds
  then setitem data "VWAP" (cumulative_vwap close volume)
  else data.

(** The exponentially weighted average in closed form, over the values seen
    so far, newest first: weight 1 for the newest, [f] times the weight of
    its successor for each older one. *)
Fixpoint weighted_sum (f : Qc) (newest_first : list Qc) : Qc :=
  match newest_first with
  | [] => 0%Qc
  | x :: older => (x + f * weighted_sum f older)%Qc
  end.

Fixpoint weight_total (f : Qc) (newest_first : list Qc) : Qc :=
  match newest_first with
  | [] => 0%Qc
  | _ :: older => (1 + f * weight_total f older)%Qc
  end.

(** The decay of [ewm(span=20)]: 1 - 2/21. *)
Definition ema20_decay : Qc := (1 - qc 2 / (qc 20 + 1))%Qc.

(** The cell of a named column at a row. *)
Definition column_at (df : DataFrame) (name : string) (i : nat) : option cell :=
  match dict_get name (columns df) with
  | Some s => nth_error s i
  | None => None
  end.

(** Whether the fetch of a ticker returns a frame with data. *)
Definition has_data (w : world) (start_date end_date : pydate) (ticker : string) : bool :=
  match fetch_fmp_data w ticker start_date end_date with
  | Ok (df, _) => negb (df_empty df)
  | Raise _ => false
  end.

(** The fetch of a ticker returns, with a frame that is empty. *)
Definition returns_no_data (w : world) (start_date end_date : pydate) (ticker : string)
    : Prop :=
  exists df warned,
    fetch_fmp_data w ticker start_date end_date = Ok (df, warned) /\
    df_empty df = true.

(** The sum of a list of whole numbers. *)
Definition total (zs : list Z) : Z := fold_right Z.add 0 zs.

(** Bars (close, volume) of whole numbers on which the arithmetic of the
    script is exact: no close, no sum of volumes and no sum of the products
    |close| x volume exceeds 2^53.  A double holds every whole number up to
    2^53, and an int64 column every one up to 2^63. *)
Definition exact_in_double (bars : list (Z * Z)) : Prop :=
  Forall (fun b => Z.abs (fst b) <= 2 ^ 53) bars /\
  total (map (fun b => Z.abs (fst b) * snd b) bars) <= 2 ^ 53 /\
  total (map snd bars) <= 2 ^ 53.

(** What the last step of a float64 operation does to its exact result, as
    far as whole numbers are concerned: rounding to the nearest double keeps
    the order and leaves every whole number up to 2^53 as it is. *)
Definition rounds_like_double (rnd : Qc -> Qc) : Prop :=
  (forall x y : Qc, (x <= y)%Qc -> (rnd x <= rnd y)%Qc) /\
  (forall z : Z, Z.abs z <= 2 ^ 53 -> rnd (qc z) = qc z).

(** Bars (close, volume) whose products and sums stay inside an int64 and far
    inside a double: volumes from 0 to [bound], closes from [-bound] to
    [bound], and [bound] x [bound] x the number of bars below 2^63. *)
Definition within_int64 (bound : Z) (bars : list (Qc * Qc)) : Prop :=
  Forall (fun b => (- qc bound <= fst b)%Qc /\ (fst b <= qc bound)%Qc /\
                   (0 <= snd b)%Qc /\ (snd b <= qc bound)%Qc) bars /\
  bound * bound * Z.of_nat (length bars) < 2 ^ 63.

(** The elements of [xs] that are neither in [seen] nor earlier in [xs], in
    their order. *)
Fixpoint first_occurrences (seen xs : list string) : list string :=
  match xs with
  | [] => []
  | x :: rest =>
      if existsb (String.eqb x) seen then first_occurrences seen rest
      else x :: first_occurrences (x :: seen) rest
  end.

(** Row [i] of a frame holds the date and the five values of the bar [b]. *)
Definition row_shows (df : DataFrame) (i : nat) (b : bar) : Prop :=
  nth_error (index df) i = Some (Date b) /\
  column_at df "Open" i = Some (Open b) /\
  column_at df "High" i = Some (High b) /\
  column_at df "Low" i = Some (Low b) /\
  column_at df "Close" i = Some (Close b) /\
  column_at df "Volume" i = Some (Volume b).

(** The bar [a] is dated before the bar [b]. *)
Definition earlier (a b : bar) : Prop := Date a < Date b.

(** The figure [analyze_ticker] exports for a frame with the columns
    [o], [h], [l], [c] and the volumes [v]: the candlesticks, the traces of
    the indicators, the range slider off. *)
Definition chart_of (sqrt : Qc -> Qc) (inds : list string) (dates : list Z)
    (o h l c v : series) : Figure :=
  mkFigure (mkCandlestick dates o h l c "Candlestick")
           (flat_map (indicator_traces sqrt dates c v) inds) false.

(** The frame has the five columns of a fetched frame. *)
Definition has_source_columns (data : DataFrame) (o h l c v : series) : Prop :=
  dict_get "Open" (columns data) = Some o /\
  dict_get "High" (columns data) = Some h /\
  dict_get "Low" (columns data) = Some l /\
  dict_get "Close" (columns data) = Some c /\
  dict_get "Volume" (columns data) = Some v.

(** What a ticker's tab shows. *)
Definition ticker_tab_shape (tab : string * list ui_event) : Prop :=
  exists fig justification,
    snd tab = [ st_subheader ("Analysis for " ++ fst tab);
                st_plotly_chart fig;
                st_write (JString "**Detailed Justification:**");
                st_write justification ].

(** ** Sample inputs *)

Module Sample.

Definition start_date : pydate := mkDate 2024 1 2.
Definition end_date : pydate := mkDate 2024 12 31.

(** Days from 1970-01-01 to a day of the Gregorian calendar. *)
Definition days_from_civil (y m d : Z) : Z :=
  let y' := if m <=? 2 then y - 1 else y in
  let era := y' / 400 in
  let yoe := y' - era * 400 in
  let doy := (153 * (if 2 <? m then m - 3 else m + 9) + 2) / 5 + d - 1 in
  let doe := yoe * 365 + yoe / 4 - yoe / 100 + doy in
  era * 146097 + doe - 719468.

(** A day written as YYYY-MM-DD. *)
Definition read_iso_day (s : string) : option Z :=
  if (String.length s =? 10)%nat then
    match NilEmpty.uint_of_string (substring 0 4 s),
          NilEmpty.uint_of_string (substring 5 2 s),
          NilEmpty.uint_of_string (substring 8 2 s) with
    | Some y, Some m, Some d =>
        Some (days_from_civil (Z.of_uint y) (Z.of_uint m) (Z.of_uint d))
    | _, _, _ => None
    end
  else None.

(** A value field: a JSON number, read exactly, or [null]. *)
Definition read_value (v : option json) : option payload_value :=
  match v with
  | Some (JNumber lexeme) =>
      match Json.number_parts lexeme with
      | Some (neg, m, k) =>
          let n := if neg then - m else m in
          Some (PNumeric (if 0 <=? k then qc (n * 10 ^ k)
                          else Q2Qc (n # Z.to_pos (10 ^ (- k)))))
      | None => None
      end
  | Some JNull => Some (PNonNumeric "")
  | _ => None
  end.

Definition read_record (v : json) : option hist_record :=
  match v with
  | JObject members =>
      match dict_get "date" members with
      | Some (JString day) =>
          match read_iso_day day,
                read_value (dict_get "open" members),
                read_value (dict_get "high" members),
                read_value (dict_get "low" members),
                read_value (dict_get "close" members),
                read_value (dict_get "volume" members) with
          | Some d, Some o, Some h, Some l, Some c, Some vol => Some (mkHist d o h l c vol)
          | _, _, _, _, _, _ => None
          end
      | _ => None
      end
  | _ => None
  end.

Fixpoint read_all (items : list json) : option (list hist_record) :=
  match items with
  | [] => Some []
  | item :: rest =>
      match read_record item, read_all rest with
      | Some r, Some rs => Some (r :: rs)
      | _, _ => None
      end
  end.

(** A stand-in for pandas on the payloads of this module: an array of
    objects, each with an ISO day under "date" and JSON numbers under the
    five other keys, is read as pandas reads it.  The samples hand it nothing
    else; any other value is answered with the KeyError of a frame that has
    no "Date" column. *)
Definition read_records (historical : json) : result (list hist_record) :=
  match historical with
  | JArray items =>
      match read_all items with
      | Some rs => Ok rs
      | None => Raise (OtherException "KeyError" "'Date'")
      end
  | _ => Raise (OtherException "KeyError" "'Date'")
  end.

(** A record of the payload with the same price in its four price fields. *)
Definition record_json (day : string) (price vol : Z) : json :=
  JObject [ ("date", JString day);
            ("open", JNumber (str_of_Z price)); ("high", JNumber (str_of_Z price));
            ("low", JNumber (str_of_Z price)); ("close", JNumber (str_of_Z price));
            ("volume", JNumber (str_of_Z vol)) ].

(** The body of a response around its "historical" array. *)
Definition body_of (historical : json) : json :=
  JObject [("historical", historical)].

(** The reply of the specification's example. *)
Definition reply_buy : string :=
  "Here is the result: {" ++ q ++ "action" ++ q ++ ": " ++ q ++ "Buy" ++ q
  ++ ", " ++ q ++ "justification" ++ q ++ ": " ++ q ++ "uptrend" ++ q ++ "} ".

(** A reply whose action is none of the offered labels. *)
Definition reply_moon : string :=
  "{" ++ q ++ "action" ++ q ++ ": " ++ q ++ "Moon" ++ q
  ++ ", " ++ q ++ "justification" ++ q ++ ": " ++ q ++ "rocket" ++ q ++ "}".

Definition flat_record (d price vol : Z) : hist_record :=
  mkHist d (PNumeric (qc price)) (PNumeric (qc price)) (PNumeric (qc price))
         (PNumeric (qc price)) (PNumeric (qc vol)).

(** Three days of AAPL as the endpoint sends them, and as pandas reads
    them: 2024-01-03 is day 19725. *)
Definition aapl_json : json :=
  JArray [ record_json "2024-01-05" 10 5; record_json "2024-01-03" 12 4;
           record_json "2024-01-04" 11 7 ].

Definition aapl_history : list hist_record :=
  [flat_record 19727 10 5; flat_record 19725 12 4; flat_record 19726 11 7].

(** The frame [fetch_fmp_data] builds from [aapl_history]. *)
Definition aapl_frame : DataFrame :=
  set_index (sort_values (map bar_of_record aapl_history)).

Definition ok_response (url : string) (body : json) : result http_response :=
  Ok (mkResponse 200 "OK" url (Ok body)).

Definition is_ticker_url (ticker url : string) : bool :=
  String.prefix
    ("https://financialmodelingprep.com/api/v3/historical-price-full/" ++ ticker ++ "?")
    url.

(** AAPL has three days of history; every other ticker gets an empty
    "historical" array. *)
Definition fmp_only_aapl (url : string) : result http_response :=
  if is_ticker_url "AAPL" url
  then ok_response url (body_of aapl_json)
  else ok_response url (body_of (JArray [])).

(** Every ticker has the same three days of history. *)
Definition fmp_all (url : string) : result http_response :=
  ok_response url (body_of aapl_json).

(** AAPL has its history; every other ticker is answered with status 200
    and the body [[]], a JSON array. *)
Definition fmp_array_body (url : string) : result http_response :=
  if is_ticker_url "AAPL" url
  then ok_response url (body_of aapl_json)
  else ok_response url (JArray []).

(** AAPL has its history; every other ticker is answered with status 404
    and no JSON in the body. *)
Definition fmp_not_found (url : string) : result http_response :=
  if is_ticker_url "AAPL" url
  then ok_response url (body_of aapl_json)
  else Ok (mkResponse 404 "Not Found" url
             (Raise (JSONDecodeError "Expecting value: line 1 column 1 (char 0)"))).

(** A payload with two records of the same day, 2024-01-08. *)
Definition duplicated_json : json :=
  JArray [record_json "2024-01-08" 10 1; record_json "2024-01-08" 11 2].

Definition duplicated_history : list hist_record :=
  [flat_record 19730 10 1; flat_record 19730 11 2].

Definition fmp_duplicates (url : string) : result http_response :=
  ok_response url (body_of duplicated_json).

(** Three days of history, newest first as the endpoint delivers them. *)
Definition newest_first_json : json :=
  JArray [ record_json "2024-01-05" 10 5; record_json "2024-01-04" 11 7;
           record_json "2024-01-03" 12 4 ].

Definition newest_first_history : list hist_record :=
  [flat_record 19727 10 5; flat_record 19726 11 7; flat_record 19725 12 4].

Definition fmp_newest_first (url : string) : result http_response :=
  ok_response url (body_of newest_first_json).

(** A square root that rounds down to a whole number. *)
Definition floor_sqrt (x : Qc) : Qc := qc (Z.sqrt (Qfloor x)).

(** A world whose model answers every chart with [reply]. *)
Definition world_replying (fmp : string -> result http_response) (reply : string) : world :=
  mkWorld fmp read_records (fun _ => Ok "PNG")
          (fun _ _ => Ok (mkGenResponse (Ok reply))) (fun x => x).

(** A world whose model call fails in transport. *)
Definition world_model_down : world :=
  mkWorld fmp_all read_records (fun _ => Ok "PNG")
          (fun _ _ => Raise (OtherException "ServiceUnavailable" "503 The model is overloaded"))
          (fun x => x).

(** A world whose model returns a response without readable text. *)
Definition blocked_response : gen_response :=
  mkGenResponse (Raise (ValueError "The response was blocked")).

Definition world_model_blocked : world :=
  mkWorld fmp_all read_records (fun _ => Ok "PNG") (fun _ _ => Ok blocked_response)
          (fun x => x).

(** A world in which no ticker has history and the model is down. *)
Definition world_model_down_without_data : world :=
  mkWorld (fun url => ok_response url (body_of (JArray []))) read_records
          (fun _ => Ok "PNG")
          (fun _ _ => Raise (OtherException "ServiceUnavailable" "503 The model is overloaded"))
          (fun x => x).

(** A world in which the export of the chart fails. *)
Definition world_export_fails : world :=
  mkWorld fmp_all read_records
          (fun _ => Raise (ValueError "Image export requires the kaleido package"))
          (fun _ _ => Ok (mkGenResponse (Ok reply_buy)))
          (fun x => x).

End Sample.

(** * Properties *)

(** ** Searching and slicing strings *)

Module PyStrFacts.
Import PyStr.

Lemma len_cons (a : ascii) (s : string) : len (String a s) = len s + 1.
Proof. unfold len; simpl String.length; lia. Qed.

Lemma len_nonneg (s : string) : 0 <= len s.
Proof. unfold len; lia. Qed.

Lemma len_app (s t : string) : len (s ++ t) = len s + len t.
Proof.
  unfold len. rewrite <- Nat2Z.inj_add. f_equal.
  induction s as [|a s IH]; simpl; [reflexivity | now rewrite IH].
Qed.

Lemma app_assoc (s t u : string) : ((s ++ t) ++ u = s ++ (t ++ u))%string.
Proof. induction s as [|a s IH]; simpl; [reflexivity | now rewrite IH]. Qed.

Lemma find_from_absent (c : ascii) (s : string) (i : Z) :
  contains c s = false -> find_from c s i = -1.
Proof.
  revert i; induction s as [|a s IH]; intros i H; simpl in *; [reflexivity|].
  apply orb_false_iff in H as [Ha Hs]. rewrite Ha. now apply IH.
Qed.

Lemma find_from_first (c : ascii) (pre rest : string) (i : Z) :
  contains c pre = false ->
  find_from c (pre ++ String c rest) i = i + len pre.
Proof.
  revert i; induction pre as [|a pre IH]; intros i H; simpl in *.
  - rewrite Ascii.eqb_refl. unfold len; simpl; lia.
  - apply orb_false_iff in H as [Ha Hs]. rewrite Ha, IH, len_cons by assumption. lia.
Qed.

Lemma find_from_range (c : ascii) (s : string) (i : Z) :
  find_from c s i = -1 \/ (i <= find_from c s i < i + len s).
Proof.
  revert i; induction s as [|a s IH]; intros i; simpl; [now left|].
  rewrite len_cons. pose proof (len_nonneg s).
  destruct (Ascii.eqb a c); [right; lia|].
  destruct (IH (i + 1)) as [->|?]; [now left | right; lia].
Qed.

Lemma rfind_from_absent (c : ascii) (s : string) (i last : Z) :
  contains c s = false -> rfind_from c s i last = last.
Proof.
  revert i last; induction s as [|a s IH]; intros i last H; simpl in *; [reflexivity|].
  apply orb_false_iff in H as [Ha Hs]. rewrite Ha. now apply IH.
Qed.

Lemma rfind_from_app (c : ascii) (s t : string) (i last : Z) :
  rfind_from c (s ++ t) i last = rfind_from c t (i + len s) (rfind_from c s i last).
Proof.
  revert i last; induction s as [|a s IH]; intros i last; simpl.
  - unfold len; simpl. now rewrite Z.add_0_r.
  - rewrite IH, len_cons. f_equal; lia.
Qed.

Lemma rfind_from_last (c : ascii) (s post : string) (i last : Z) :
  contains c post = false ->
  rfind_from c (s ++ String c post) i last = i + len s.
Proof.
  intros H. rewrite rfind_from_app. simpl. rewrite Ascii.eqb_refl.
  now apply rfind_from_absent.
Qed.

Lemma substring_skip (pre s : string) (n : nat) :
  substring (String.length pre) n (pre ++ s) = substring 0 n s.
Proof. induction pre as [|a pre IH]; simpl; [reflexivity | exact IH]. Qed.

Lemma substring_take (s t : string) :
  substring 0 (String.length s) (s ++ t) = s.
Proof.
  induction s as [|a s IH]; simpl.
  - now destruct t.
  - now rewrite IH.
Qed.

Lemma length_app (s t : string) :
  String.length (s ++ t) = (String.length s + String.length t)%nat.
Proof. induction s as [|a s IH]; simpl; [reflexivity | now rewrite IH]. Qed.

(** [s[len(pre) : len(pre) + len(mid)]] of [pre + mid + post] is [mid]. *)
Lemma slice_middle (pre mid post : string) :
  slice (pre ++ mid ++ post) (len pre) (len pre + len mid) = mid.
Proof.
  unfold slice, len.
  replace (Z.of_nat (String.length pre) + Z.of_nat (String.length mid)
           - Z.of_nat (String.length pre)) with (Z.of_nat (String.length mid)) by lia.
  rewrite !Nat2Z.id, substring_skip. apply substring_take.
Qed.

End PyStrFacts.

(** ** Reading the verdict out of the reply *)

(** Where the first opening and the last closing brace are, in a reply cut
    at them. *)
Lemma braces_located (pre mid post : string) :
  PyStr.contains "{"%char pre = false ->
  PyStr.contains "}"%char post = false ->
  let t := (pre ++ "{" ++ mid ++ "}" ++ post)%string in
  PyStr.find "{"%char t = PyStr.len pre /\
  PyStr.rfind "}"%char t + 1 = PyStr.len pre + PyStr.len ("{" ++ mid ++ "}")%string.
Proof.
  intros Hpre Hpost t. split.
  - unfold PyStr.find, t. simpl. rewrite PyStrFacts.find_from_first by assumption. lia.
  - unfold PyStr.rfind, t.
    replace (pre ++ "{" ++ mid ++ "}" ++ post)%string
      with ((pre ++ "{" ++ mid) ++ String "}" post)%string
      by (rewrite !PyStrFacts.app_assoc; reflexivity).
    rewrite PyStrFacts.rfind_from_last by assumption.
    rewrite !PyStrFacts.len_app.
    change (PyStr.len "{") with 1. change (PyStr.len "}") with 1. lia.
Qed.

Lemma brace_span_cut (pre mid post : string) :
  PyStr.contains "{"%char pre = false ->
  PyStr.contains "}"%char post = false ->
  brace_span (pre ++ "{" ++ mid ++ "}" ++ post) = ("{" ++ mid ++ "}")%string.
Proof.
  intros Hpre Hpost. unfold brace_span.
  destruct (braces_located pre mid post Hpre Hpost) as [-> ->].
  replace (pre ++ "{" ++ mid ++ "}" ++ post)%string
    with (pre ++ ("{" ++ mid ++ "}") ++ post)%string.
  - apply PyStrFacts.slice_middle.
  - simpl. f_equal. f_equal. now rewrite PyStrFacts.app_assoc.
Qed.

Lemma extract_json_readable (response : gen_response) (t : string) :
  text response = Ok t ->
  extract_json response =
    if has_brace_span t then json_loads (brace_span t)
    else Raise (ValueError "No valid JSON object found in the response").
Proof. intros H. unfold extract_json. rewrite H. reflexivity. Qed.

(** With a readable reply the three clauses catch whatever the [try] raises:
    the parse step returns a dictionary. *)
Lemma parse_response_readable (response : gen_response) (t : string) :
  text response = Ok t ->
  parse_response response =
    Ok match extract_json response with
       | Ok v => v
       | Raise e => error_verdict (clause_label e ++ str_exn e ++ ". Raw text: " ++ t)
       end.
Proof.
  intros H. unfold parse_response, try_except.
  destruct (extract_json response) as [v|e]; [reflexivity|].
  destruct e; simpl; unfold error_result; rewrite H; reflexivity.
Qed.

(** When reading [response.text] raises, each clause raises again while it
    formats its message, and the exception leaves [analyze_ticker]. *)
Lemma parse_response_unreadable (response : gen_response) (e : exn) :
  text response = Raise e -> parse_response response = Raise e.
Proof.
  intros H. unfold parse_response, try_except, extract_json. rewrite H. simpl.
  destruct e; simpl; unfold error_result; rewrite H; reflexivity.
Qed.

Lemma has_brace_span_cut (pre mid post : string) :
  PyStr.contains "{"%char pre = false ->
  PyStr.contains "}"%char post = false ->
  has_brace_span (pre ++ "{" ++ mid ++ "}" ++ post) = true.
Proof.
  intros Hpre Hpost. unfold has_brace_span.
  destruct (braces_located pre mid post Hpre Hpost) as [-> ->].
  pose proof (PyStrFacts.len_nonneg pre).
  rewrite PyStrFacts.len_app. change (PyStr.len "{") with 1.
  pose proof (PyStrFacts.len_nonneg (mid ++ "}")).
  apply andb_true_iff; split.
  - apply negb_true_iff, Z.eqb_neq; lia.
  - apply Z.gtb_lt; lia.
Qed.

(** C4. Verdict parsing cuts the reply at its first opening brace and its
    last closing brace, both included, and hands that substring to the JSON
    decoder: what the decoder returns is the result.  On the reply
    [Here is the result: {"action": "Buy", "justification": "uptrend"} ] the
    result is exactly the object with action "Buy" and justification
    "uptrend". *)
Theorem C4_verdict_from_first_to_last_brace :
  (forall (response : gen_response) (pre mid post : string),
      text response = Ok (pre ++ "{" ++ mid ++ "}" ++ post)%string ->
      PyStr.contains "{"%char pre = false ->
      PyStr.contains "}"%char post = false ->
      extract_json response = json_loads ("{" ++ mid ++ "}") /\
      forall v, json_loads ("{" ++ mid ++ "}") = Ok v -> parse_response response = Ok v)
  /\ parse_response (mkGenResponse (Ok Sample.reply_buy))
     = Ok (JObject [("action", JString "Buy"); ("justification", JString "uptrend")]).
Proof.
  split; [|reflexivity].
  intros response pre mid post Htext Hpre Hpost.
  assert (Hex : extract_json response = json_loads ("{" ++ mid ++ "}")).
  { rewrite (extract_json_readable _ _ Htext).
    now rewrite has_brace_span_cut, brace_span_cut. }
  split; [exact Hex|].
  intros v Hv. rewrite (parse_response_readable _ _ Htext), Hex, Hv. reflexivity.
Qed.

Lemma C4_witness :
  extract_json (mkGenResponse (Ok Sample.reply_buy))
  = json_loads ("{" ++ q ++ "action" ++ q ++ ": " ++ q ++ "Buy" ++ q ++ ", "
                ++ q ++ "justification" ++ q ++ ": " ++ q ++ "uptrend" ++ q ++ "}").
Proof.
  exact (proj1 (proj1 C4_verdict_from_first_to_last_brace
                  (mkGenResponse (Ok Sample.reply_buy))
                  "Here is the result: "
                  (q ++ "action" ++ q ++ ": " ++ q ++ "Buy" ++ q ++ ", "
                   ++ q ++ "justification" ++ q ++ ": " ++ q ++ "uptrend" ++ q)
                  " " eq_refl eq_refl eq_refl)).
Defined.

(** C5. A reply with no opening and no closing brace yields the verdict with
    action "Error" whose justification says that no JSON object was found,
    followed by the raw text. *)
Theorem C5_no_braces_error_verdict (response : gen_response) (t : string) :
  text response = Ok t ->
  PyStr.contains "{"%char t = false ->
  PyStr.contains "}"%char t = false ->
  parse_response response =
    Ok (JObject
          [ ("action", JString "Error");
            ("justification",
             JString ("Value Error: No valid JSON object found in the response. Raw text: " ++ t)) ]).
Proof.
  intros Htext Hopen _.
  rewrite (parse_response_readable _ _ Htext), (extract_json_readable _ _ Htext).
  unfold has_brace_span, PyStr.find.
  rewrite (PyStrFacts.find_from_absent _ _ _ Hopen). reflexivity.
Qed.

Lemma C5_witness :
  parse_response (mkGenResponse (Ok "I cannot read this chart.")) =
    Ok (JObject
          [ ("action", JString "Error");
            ("justification",
             JString "Value Error: No valid JSON object found in the response. Raw text: I cannot read this chart.") ]).
Proof.
  exact (C5_no_braces_error_verdict
           (mkGenResponse (Ok "I cannot read this chart."))
           "I cannot read this chart." eq_refl eq_refl eq_refl).
Defined.

(** ** What the decoder returns on a span that opens with a brace *)

Ltac split_match :=
  repeat match goal with
         | H : context [match ?x with _ => _ end] |- _ => destruct x eqn:?
         | H : context [if ?b then _ else _] |- _ => destruct b eqn:?
         end;
  try discriminate.

Lemma object_members_object (n : nat) :
  forall acc s v r, Json.object_members n acc s = Json.POk v r -> exists d, v = JObject d.
Proof.
  induction n as [|n IH]; intros acc s v r H; [discriminate|].
  simpl in H. split_match.
  all: try (injection H as <- _; eauto).
  all: eapply IH; eassumption.
Qed.

Lemma scan_once_brace (n : nat) (s : string) (v : json) (r : string) :
  Json.scan_once n (String "{" s) = Json.POk v r -> exists d, v = JObject d.
Proof.
  destruct n as [|n]; [discriminate|]. intros H.
  change (Json.scan_once (S n) (String "{" s)) with
    (match Json.skip_ws s with
     | String c1 r1 =>
         if Ascii.eqb c1 "}"%char then Json.POk (JObject []) r1
         else if Ascii.eqb c1 Json.dquote then Json.object_members n [] r1
         else Json.PErr "Expecting property name enclosed in double quotes"
     | EmptyString => Json.PErr "Expecting property name enclosed in double quotes"
     end) in H.
  split_match.
  - injection H as <- _. eauto.
  - eapply object_members_object; eassumption.
Qed.

Lemma json_loads_object (s : string) (v : json) :
  json_loads (String "{" s) = Ok v -> exists d, v = JObject d.
Proof.
  unfold json_loads.
  change (Json.skip_ws (String "{" s)) with (String "{" s).
  destruct (Json.scan_once _ _) as [v' r| |] eqn:E; try discriminate.
  destruct (Json.skip_ws r); [|discriminate].
  intros [= <-]. eapply scan_once_brace; eassumption.
Qed.

Lemma find_from_split (c : ascii) (s : string) (i : Z) :
  0 <= i -> PyStr.find_from c s i <> -1 ->
  exists pre rest, s = (pre ++ String c rest)%string /\
                   PyStr.contains c pre = false /\
                   PyStr.find_from c s i = i + PyStr.len pre.
Proof.
  revert i; induction s as [|a s IH]; intros i Hi H; simpl in *; [congruence|].
  destruct (Ascii.eqb a c) eqn:E.
  - apply Ascii.eqb_eq in E as ->. exists ""%string, s.
    repeat split. change (PyStr.len "") with 0. lia.
  - destruct (IH (i + 1)) as (pre & rest & -> & Hpre & Hfind); [lia | exact H |].
    exists (String a pre), rest. repeat split.
    + simpl. now rewrite E.
    + rewrite Hfind, PyStrFacts.len_cons. lia.
Qed.

Lemma brace_span_head (t : string) :
  has_brace_span t = true -> exists s, brace_span t = String "{" s.
Proof.
  unfold has_brace_span, brace_span, PyStr.find. intros H.
  apply andb_true_iff in H as [Hfound Hafter].
  apply negb_true_iff, Z.eqb_neq in Hfound. apply Z.gtb_lt in Hafter.
  destruct (find_from_split "{" t 0 ltac:(lia) Hfound) as (pre & rest & -> & _ & Hfind).
  rewrite Hfind in *. unfold PyStr.slice, PyStr.len in *.
  rewrite Z.add_0_l, Nat2Z.id, PyStrFacts.substring_skip.
  destruct (Z.to_nat _) as [|m] eqn:Em; [lia|].
  simpl. eauto.
Qed.

(** ** The recommendation step *)

(** The steps of a call of [analyze_ticker] that returns. *)
Lemma analyze_ticker_returns (w : world) (inds : list string) (ticker : string)
    (data data' : DataFrame) (fig : Figure) (v : json) :
  analyze_ticker w inds ticker data = Ok (data', fig, v) ->
  exists image_bytes response,
    write_image w fig = Ok image_bytes /\
    generate_content w (analysis_prompt ticker) image_bytes = Ok response /\
    parse_response response = Ok v.
Proof.
  unfold analyze_ticker, bind. intros H. split_match.
  injection H as <- <- <-. eauto.
Qed.

(** C6, as the script has it.  The action of a verdict is not checked against
    the seven labels: a verdict either carries the action "Error", or it is
    the JSON object decoded from the brace span of the model's reply, with
    whatever action, if any, the model wrote. *)
Theorem C6_verdict_is_error_or_decoded_reply
    (w : world) (inds : list string) (ticker : string)
    (data data' : DataFrame) (fig : Figure) (v : json) :
  analyze_ticker w inds ticker data = Ok (data', fig, v) ->
  verdict_action v = Some (JString "Error") \/
  exists image_bytes response t d,
    generate_content w (analysis_prompt ticker) image_bytes = Ok response /\
    text response = Ok t /\
    has_brace_span t = true /\
    json_loads (brace_span t) = Ok v /\
    v = JObject d.
Proof.
  intros H.
  destruct (analyze_ticker_returns _ _ _ _ _ _ _ H) as (img & response & _ & Hgen & Hparse).
  destruct (text response) as [t|e] eqn:Htext.
  - rewrite (parse_response_readable _ _ Htext), (extract_json_readable _ _ Htext) in Hparse.
    destruct (has_brace_span t) eqn:Hspan.
    + destruct (json_loads (brace_span t)) as [v'|e] eqn:Hloads.
      * injection Hparse as <-. right.
        destruct (brace_span_head t Hspan) as [s Hs].
        rewrite Hs in Hloads. destruct (json_loads_object _ _ Hloads) as [d ->].
        exists img, response, t, d. rewrite Hs. auto.
      * injection Hparse as <-. now left.
    + injection Hparse as <-. now left.
  - rewrite (parse_response_unreadable _ _ Htext) in Hparse. discriminate.
Qed.

Lemma C6_witness :
  verdict_action (JObject [("action", JString "Buy"); ("justification", JString "uptrend")])
    = Some (JString "Error") \/
  exists image_bytes response t d,
    generate_content (Sample.world_replying Sample.fmp_only_aapl Sample.reply_buy)
                     (analysis_prompt "AAPL") image_bytes = Ok response /\
    text response = Ok t /\
    has_brace_span t = true /\
    json_loads (brace_span t)
      = Ok (JObject [("action", JString "Buy"); ("justification", JString "uptrend")]) /\
    JObject [("action", JString "Buy"); ("justification", JString "uptrend")] = JObject d.
Proof.
  eapply (C6_verdict_is_error_or_decoded_reply
            (Sample.world_replying Sample.fmp_only_aapl Sample.reply_buy)
            ["20-Day SMA"; "VWAP"] "AAPL" Sample.aapl_frame).
  vm_compute. reflexivity.
Defined.

(** C6 as stated fails: the script returns the model's action unchecked. *)
Lemma C6_counterexample :
  ~ (forall (w : world) (inds : list string) (ticker : string)
            (data data' : DataFrame) (fig : Figure) (v : json),
        analyze_ticker w inds ticker data = Ok (data', fig, v) ->
        enumerated_action v).
Proof.
  intros claim.
  destruct (analyze_ticker (Sample.world_replying Sample.fmp_only_aapl Sample.reply_moon)
              [] "AAPL" Sample.aapl_frame) as [[[d f] v]|e] eqn:E; [|discriminate E].
  pose proof (claim _ _ _ _ _ _ _ E) as (a & Ha & Hlabel).
  vm_compute in E. injection E as _ _ <-.
  simpl in Ha. injection Ha as <-.
  destruct Hlabel as [Hin|Herr]; [|discriminate Herr].
  simpl in Hin. repeat (destruct Hin as [Hin|Hin]; [discriminate Hin|]). exact Hin.
Qed.




(** C1, where the script departs from it.  When the call of the model raises,
    or returns a response whose text cannot be read, no verdict is built: the
    exception leaves [analyze_ticker] and ends the loop over the tickers, so
    neither this ticker nor the next one is reported. *)
Theorem C1_model_failure_ends_the_run :
  run Sample.world_model_down ["20-Day SMA"] ["AAPL"; "MSFT"]
      Sample.start_date Sample.end_date
    = Raise (OtherException "ServiceUnavailable" "503 The model is overloaded")
  /\
  run Sample.world_model_blocked ["20-Day SMA"] ["AAPL"; "MSFT"]
      Sample.start_date Sample.end_date
    = Raise (ValueError "The response was blocked").
Proof. split; vm_compute; reflexivity. Qed.

(** ** Dictionaries *)

Section DictFacts.
Context {V : Type}.

Lemma dict_get_set_ne (k k' : string) (v : V) (d : dict V) :
  k <> k' -> dict_get k (dict_set k' v d) = dict_get k d.
Proof.
  intros Hne. induction d as [|[k0 v0] d IH]; simpl.
  - destruct (String.eqb_spec k k'); [contradiction | reflexivity].
  - destruct (String.eqb_spec k' k0) as [->|Hk0]; simpl.
    + destruct (String.eqb_spec k k0); [contradiction | reflexivity].
    + now rewrite IH.
Qed.

Lemma dict_get_set_eq (k : string) (v : V) (d : dict V) :
  dict_get k (dict_set k v d) = Some v.
Proof.
  induction d as [|[k0 v0] d IH]; simpl.
  - now rewrite String.eqb_refl.
  - destruct (String.eqb_spec k k0) as [->|Hk0]; simpl.
    + now rewrite String.eqb_refl.
    + destruct (String.eqb_spec k k0); [contradiction | exact IH].
Qed.

Lemma dict_keys_set (k k' : string) (v : V) (d : dict V) :
  In k (dict_keys (dict_set k' v d)) -> k = k' \/ In k (dict_keys d).
Proof.
  unfold dict_keys. induction d as [|[k0 v0] d IH]; simpl.
  - intros [->|[]]; now left.
  - destruct (String.eqb_spec k' k0) as [->|Hk0]; simpl.
    + tauto.
    + intros [->|H]; [right; now left | destruct (IH H); tauto].
Qed.

Lemma dict_keys_set_present (k : string) (v : V) (d : dict V) :
  In k (dict_keys d) -> dict_keys (dict_set k v d) = dict_keys d.
Proof.
  unfold dict_keys. induction d as [|[k0 v0] d IH]; simpl; [tauto|].
  intros H. destruct (String.eqb_spec k k0) as [->|Hk0]; simpl; [reflexivity|].
  f_equal. apply IH. destruct H as [->|H]; [contradiction | exact H].
Qed.

Lemma dict_get_in_keys (k : string) (v : V) (d : dict V) :
  dict_get k d = Some v -> In k (dict_keys d).
Proof.
  unfold dict_keys. induction d as [|[k0 v0] d IH]; simpl; [discriminate|].
  destruct (String.eqb_spec k k0) as [->|Hk0]; [now left | right; now apply IH].
Qed.

End DictFacts.

(** ** The fetch and the loop over the tickers *)

(** One turn of the loop for a ticker whose fetch returns: the frame is
    stored when it has data, the warning is shown when it has none, and the
    loop goes on with the tickers after it. *)
Lemma fetch_loop_step (w : world) (start_date end_date : pydate) (ticker : string)
    (rest : list string) (stock_data : dict DataFrame) (df : DataFrame)
    (warned : list ui_event) :
  fetch_fmp_data w ticker start_date end_date = Ok (df, warned) ->
  fetch_loop w start_date end_date (ticker :: rest) stock_data
  = (looped <- fetch_loop w start_date end_date rest
                 (if df_empty df then stock_data else dict_set ticker df stock_data) ;;
     Ok (fst looped,
         (warned
          ++ (if df_empty df
              then [st_warning ("No data found for " ++ ticker ++ " (FMP returned empty).")]
              else [])
          ++ snd looped)%list)).
Proof.
  intros H. cbn [fetch_loop]. rewrite H. cbn [bind].
  destruct (df_empty df); cbn [negb];
    destruct (fetch_loop w start_date end_date rest _) as [[final later]|]; reflexivity.
Qed.

(** An exception that leaves [fetch_fmp_data] ends the loop. *)
Lemma fetch_loop_raise (w : world) (start_date end_date : pydate) (ticker : string)
    (rest : list string) (stock_data : dict DataFrame) (e : exn) :
  fetch_fmp_data w ticker start_date end_date = Raise e ->
  fetch_loop w start_date end_date (ticker :: rest) stock_data = Raise e.
Proof. intros H. cbn [fetch_loop]. now rewrite H. Qed.

(** The sample payloads, as the stand-in for pandas reads them. *)
Example sample_payloads_read :
  Sample.read_records Sample.aapl_json = Ok Sample.aapl_history /\
  Sample.read_records Sample.duplicated_json = Ok Sample.duplicated_history /\
  Sample.read_records Sample.newest_first_json = Ok Sample.newest_first_history.
Proof. repeat split; vm_compute; reflexivity. Qed.

(** The loop over [stock_data] appends one row per ticker, in order. *)
Lemma analyze_loop_rows (w : world) (inds : list string) (todo : list string) :
  forall p p',
    analyze_loop w inds todo p = Ok p' ->
    map Stock (overall_results p') = (map Stock (overall_results p) ++ todo)%list.
Proof.
  induction todo as [|t rest IH]; intros p p' H; simpl in H.
  - injection H as <-. now rewrite app_nil_r.
  - unfold bind in H. split_match.
    apply IH in H. simpl in H. rewrite H, map_app, <- app_assoc. reflexivity.
Qed.

(** The rows of the summary table are the keys of [stock_data]. *)
Lemma summary_rows_are_keys (w : world) (inds : list string)
    (stock_data session : dict DataFrame) (tabs : list (string * list ui_event))
    (rows : list summary_row) :
  render w inds stock_data = Ok (session, tabs) ->
  summary_table tabs = Some rows ->
  map Stock rows = dict_keys stock_data.
Proof.
  unfold render. destruct stock_data as [|kv stock_data].
  - intros [= <- <-]. discriminate.
  - unfold bind. destruct (analyze_loop _ _ _ _) as [p|e] eqn:E; [|discriminate].
    intros [= <- <-]. simpl. intros [= <-].
    apply analyze_loop_rows in E. exact E.
Qed.

(** C3, where the script departs from it.  Only the request, the status
    check and the decoding stand inside the [try] of [fetch_fmp_data]; the
    decoded body is asked for its "historical" entry after it.  A response
    with status 200 whose body is the JSON array [[]] lacks that entry, and
    the question itself raises: the AttributeError leaves [fetch_fmp_data],
    the loop over the tickers and the handler of the button, so that no data
    is stored and no ticker analysed, AAPL with its fetched history
    included.  With an empty "historical" array instead, or with a status
    404, the same run shows the single row of AAPL. *)
Theorem C3_array_body_ends_the_run :
  fetch_fmp_data (Sample.world_replying Sample.fmp_array_body Sample.reply_buy)
                 "MSFT" Sample.start_date Sample.end_date
    = Raise (OtherException "AttributeError" "'list' object has no attribute 'get'")
  /\
  run (Sample.world_replying Sample.fmp_array_body Sample.reply_buy)
      ["20-Day SMA"] ["AAPL"; "MSFT"] Sample.start_date Sample.end_date
    = Raise (OtherException "AttributeError" "'list' object has no attribute 'get'")
  /\
  (exists session tabs,
      run (Sample.world_replying Sample.fmp_only_aapl Sample.reply_buy)
          ["20-Day SMA"] ["AAPL"; "MSFT"] Sample.start_date Sample.end_date
        = Ok (session, tabs) /\
      dict_keys session = ["AAPL"] /\
      summary_table tabs = Some [mkRow "AAPL" (JString "Buy")])
  /\
  (exists session tabs,
      run (Sample.world_replying Sample.fmp_not_found Sample.reply_buy)
          ["20-Day SMA"] ["AAPL"; "MSFT"] Sample.start_date Sample.end_date
        = Ok (session, tabs) /\
      dict_keys session = ["AAPL"] /\
      summary_table tabs = Some [mkRow "AAPL" (JString "Buy")]).
Proof.
  split; [vm_compute; reflexivity|]. split; [vm_compute; reflexivity|].
  split; do 2 eexists; (split; [vm_compute; reflexivity|]); split; reflexivity.
Qed.

(** ** The order of a fetched series *)

Lemma insert_by_date_perm (b : bar) (bs : list bar) :
  Permutation (b :: bs) (insert_by_date b bs).
Proof.
  induction bs as [|b' bs IH]; simpl; [reflexivity|].
  destruct (Date b <=? Date b'); [reflexivity|].
  rewrite perm_swap. now apply perm_skip.
Qed.

Lemma sort_values_perm (bs : list bar) : Permutation bs (sort_values bs).
Proof.
  induction bs as [|b bs IH]; simpl; [reflexivity|].
  rewrite <- insert_by_date_perm. now apply perm_skip.
Qed.

Lemma insert_by_date_sorted (b : bar) (bs : list bar) :
  StronglySorted Z.le (map Date bs) ->
  StronglySorted Z.le (map Date (insert_by_date b bs)).
Proof.
  induction bs as [|b' bs IH]; simpl; intros Hs.
  - repeat constructor.
  - apply StronglySorted_inv in Hs as [Hs Hall].
    destruct (Date b <=? Date b') eqn:E; simpl.
    + apply Z.leb_le in E. constructor; [now constructor|].
      constructor; [exact E|].
      eapply Forall_impl; [|exact Hall]. intros; lia.
    + apply Z.leb_gt in E. constructor; [now apply IH|].
      assert (Hperm : Permutation (map Date (b :: bs)) (map Date (insert_by_date b bs)))
        by apply Permutation_map, insert_by_date_perm.
      eapply Permutation_Forall; [exact Hperm|].
      simpl. constructor; [lia | exact Hall].
Qed.

Lemma sort_values_sorted (bs : list bar) :
  StronglySorted Z.le (map Date (sort_values bs)).
Proof.
  induction bs as [|b bs IH]; simpl; [constructor | now apply insert_by_date_sorted].
Qed.

(** Ascending and free of repetitions is strictly ascending. *)
Lemma sorted_nodup_strict (l : list Z) :
  StronglySorted Z.le l -> NoDup l -> StronglySorted Z.lt l.
Proof.
  induction l as [|a l IH]; intros Hs Hn; [constructor|].
  apply StronglySorted_inv in Hs as [Hs Hall].
  apply NoDup_cons_iff in Hn as [Hnotin Hn].
  constructor; [now apply IH|].
  rewrite Forall_forall in *. intros x Hx.
  specialize (Hall x Hx). assert (x <> a) by (intros ->; contradiction). lia.
Qed.

Lemma strict_sorted_nodup (l : list Z) : StronglySorted Z.lt l -> NoDup l.
Proof.
  induction l as [|a l IH]; intros Hs; [constructor|].
  apply StronglySorted_inv in Hs as [Hs Hall].
  constructor; [|now apply IH].
  intros Hin. rewrite Forall_forall in Hall. specialize (Hall a Hin). lia.
Qed.

(** A returned frame that is not empty was built from the rows pandas read
    under the "historical" entry of a decoded body. *)
Lemma fetch_nonempty (w : world) (ticker : string) (start_date end_date : pydate)
    (df : DataFrame) (warned : list ui_event) :
  fetch_fmp_data w ticker start_date end_date = Ok (df, warned) ->
  df_empty df = false ->
  exists data_json historical hist,
    fetch_json w (fmp_url ticker start_date end_date FMP_API_KEY) = Ok data_json /\
    py_get data_json "historical" (JArray []) = Ok historical /\
    frame_records w historical = Ok hist /\
    df = set_index (sort_values (map bar_of_record hist)).
Proof.
  unfold fetch_fmp_data.
  destruct (fetch_json w _) as [data_json|e]; [|intros [= <- <-]; discriminate].
  unfold bind. destruct (py_get data_json _ _) as [historical|e] eqn:Hget; [|discriminate].
  destruct (truthy historical); cbn [negb]; [|intros [= <- <-]; discriminate].
  destruct (frame_records w historical) as [hist|e] eqn:Hread; [|discriminate].
  intros [= <- <-] _. exists data_json, historical, hist. auto.
Qed.

(** C2, as the script has it.  A non-empty fetched series holds the dates of
    the payload's records, each as often as the payload has it, in ascending
    order; the order is strict, and no date occurs twice, exactly when no two
    records of the payload carry the same date. *)
Theorem C2_fetched_series_ascending (w : world) (ticker : string)
    (start_date end_date : pydate) (df : DataFrame) (warned : list ui_event) :
  fetch_fmp_data w ticker start_date end_date = Ok (df, warned) ->
  df_empty df = false ->
  exists data_json historical hist,
    fetch_json w (fmp_url ticker start_date end_date FMP_API_KEY) = Ok data_json /\
    py_get data_json "historical" (JArray []) = Ok historical /\
    frame_records w historical = Ok hist /\
    let dates := index df in
    Permutation (map h_date hist) dates /\
    StronglySorted Z.le dates /\
    (NoDup (map h_date hist) <-> StronglySorted Z.lt dates) /\
    (NoDup (map h_date hist) <-> NoDup dates).
Proof.
  intros Hfetched Hne.
  destruct (fetch_nonempty _ _ _ _ _ _ Hfetched Hne)
    as (data_json & historical & hist & Hfetch & Hget & Hread & ->).
  exists data_json, historical, hist.
  split; [exact Hfetch|]. split; [exact Hget|]. split; [exact Hread|].
  cbn zeta. unfold set_index. cbn [index].
  assert (Hperm : Permutation (map h_date hist)
                    (map Date (sort_values (map bar_of_record hist)))).
  { replace (map h_date hist) with (map Date (map bar_of_record hist))
      by (rewrite map_map; reflexivity).
    apply Permutation_map, sort_values_perm. }
  pose proof (sort_values_sorted (map bar_of_record hist)) as Hsorted.
  assert (Hdup : NoDup (map h_date hist)
                 <-> NoDup (map Date (sort_values (map bar_of_record hist)))).
  { split; intros H; [eapply Permutation_NoDup; [exact Hperm | exact H]|].
    eapply Permutation_NoDup; [symmetry; exact Hperm | exact H]. }
  repeat split; try assumption.
  - intros H. apply sorted_nodup_strict; [exact Hsorted | now apply Hdup].
  - intros H. apply Hdup. now apply strict_sorted_nodup.
  - now apply Hdup.
  - now apply Hdup.
Qed.

Lemma C2_witness :
  exists data_json historical hist,
    fetch_json (Sample.world_replying Sample.fmp_only_aapl Sample.reply_buy)
               (fmp_url "AAPL" Sample.start_date Sample.end_date FMP_API_KEY)
    = Ok data_json /\
    py_get data_json "historical" (JArray []) = Ok historical /\
    Sample.read_records historical = Ok hist /\
    let dates := index Sample.aapl_frame in
    Permutation (map h_date hist) dates /\
    StronglySorted Z.le dates /\
    (NoDup (map h_date hist) <-> StronglySorted Z.lt dates) /\
    (NoDup (map h_date hist) <-> NoDup dates).
Proof.
  apply (C2_fetched_series_ascending
           (Sample.world_replying Sample.fmp_only_aapl Sample.reply_buy)
           "AAPL" Sample.start_date Sample.end_date Sample.aapl_frame []).
  - vm_compute. reflexivity.
  - vm_compute. reflexivity.
Defined.

(** C2 as stated fails: two records of one day are both kept. *)
Lemma C2_counterexample :
  exists df warned,
    fetch_fmp_data (Sample.world_replying Sample.fmp_duplicates Sample.reply_buy)
                   "AAPL" Sample.start_date Sample.end_date = Ok (df, warned) /\
    df_empty df = false /\
    index df = [19730; 19730] /\
    ~ StronglySorted Z.lt (index df) /\
    ~ NoDup (index df).
Proof.
  do 2 eexists. split; [vm_compute; reflexivity|]. cbn [index].
  repeat split.
  - intros H. apply StronglySorted_inv in H as [_ H].
    apply Forall_inv in H. lia.
  - intros H. apply NoDup_cons_iff in H as [H _]. apply H. now left.
Qed.

(** ** The frame under the indicators *)

(** One indicator: the index and every column but "VWAP" stay as they were,
    and the call returns whenever the frame has its Close and Volume. *)
Lemma add_indicator_frame (w : world) (ind : string) (data : DataFrame) (fig : Figure)
    (close volume : series) :
  dict_get "Close" (columns data) = Some close ->
  dict_get "Volume" (columns data) = Some volume ->
  exists data' fig',
    add_indicator w ind (data, fig) = Ok (data', fig') /\
    index data' = index data /\
    (forall name, name <> "VWAP" ->
                  dict_get name (columns data') = dict_get name (columns data)).
Proof.
  intros Hclose Hvolume. unfold add_indicator, getitem, bind.
  rewrite Hclose, Hvolume.
  destruct (String.eqb ind "20-Day SMA"); [eauto|].
  destruct (String.eqb ind "20-Day EMA"); [eauto|].
  destruct (String.eqb ind "20-Day Bollinger Bands"); [eauto|].
  destruct (String.eqb ind "VWAP"); [|eauto].
  cbn [setitem columns index]. rewrite dict_get_set_eq.
  do 2 eexists. split; [reflexivity|]. split; [reflexivity|].
  intros name Hname. now apply dict_get_set_ne.
Qed.

(** C9. Whatever indicators are requested, computing them returns, and the
    frame keeps its index of dates and its columns Open, High, Low, Close and
    Volume as fetched; the only column written is the derived "VWAP". *)
Theorem C9_indicators_keep_source_fields (w : world) (inds : list string)
    (data : DataFrame) (fig : Figure) (close volume : series) :
  dict_get "Close" (columns data) = Some close ->
  dict_get "Volume" (columns data) = Some volume ->
  exists data' fig',
    add_indicators w inds (data, fig) = Ok (data', fig') /\
    index data' = index data /\
    (forall name, In name source_columns ->
                  dict_get name (columns data') = dict_get name (columns data)) /\
    (forall name, name <> "VWAP" ->
                  dict_get name (columns data') = dict_get name (columns data)).
Proof.
  revert data fig. induction inds as [|ind inds IH]; intros data fig Hclose Hvolume.
  - exists data, fig. simpl. auto.
  - destruct (add_indicator_frame w ind data fig close volume Hclose Hvolume)
      as (data1 & fig1 & Hstep & Hindex & Hcols).
    destruct (IH data1 fig1) as (data' & fig' & Hrest & Hindex' & _ & Hcols').
    { rewrite Hcols; [exact Hclose | discriminate]. }
    { rewrite Hcols; [exact Hvolume | discriminate]. }
    exists data', fig'. cbn [add_indicators]. rewrite Hstep. cbn [bind].
    assert (Hall : forall name, name <> "VWAP" ->
                     dict_get name (columns data') = dict_get name (columns data)).
    { intros name Hname. rewrite Hcols', Hcols by assumption. reflexivity. }
    repeat split; try assumption.
    + congruence.
    + intros name Hin. apply Hall. intros ->.
      simpl in Hin. repeat (destruct Hin as [Hin|Hin]; [discriminate Hin|]). exact Hin.
Qed.

Lemma C9_witness :
  exists data' fig',
    add_indicators (Sample.world_replying Sample.fmp_only_aapl Sample.reply_buy)
      ["20-Day SMA"; "20-Day EMA"; "20-Day Bollinger Bands"; "VWAP"]
      (Sample.aapl_frame,
       mkFigure (mkCandlestick [] [] [] [] [] "Candlestick") [] true)
    = Ok (data', fig') /\
    index data' = index Sample.aapl_frame /\
    (forall name, In name source_columns ->
                  dict_get name (columns data') = dict_get name (columns Sample.aapl_frame)) /\
    (forall name, name <> "VWAP" ->
                  dict_get name (columns data') = dict_get name (columns Sample.aapl_frame)).
Proof.
  exact (C9_indicators_keep_source_fields
           (Sample.world_replying Sample.fmp_only_aapl Sample.reply_buy)
           ["20-Day SMA"; "20-Day EMA"; "20-Day Bollinger Bands"; "VWAP"]
           Sample.aapl_frame
           (mkFigure (mkCandlestick [] [] [] [] [] "Candlestick") [] true)
           _ _ eq_refl eq_refl).
Defined.

(** ** Arithmetic of the cells *)

Section CellArithmetic.
Local Open Scope Qc_scope.

Lemma qc_plus (a b : Z) : qc (a + b) = qc a + qc b.
Proof.
  unfold qc, Qcplus. apply Q2Qc_eq_iff.
  cbn [this Q2Qc]. rewrite !Qred_correct. now rewrite inject_Z_plus.
Qed.

Lemma qc_pos (z : Z) : (0 < z)%Z -> 0 < qc z.
Proof.
  intros H. unfold qc, Qclt. cbn [this Q2Qc]. rewrite !Qred_correct.
  change (inject_Z 0 < inject_Z z)%Q. now rewrite <- Zlt_Qlt.
Qed.

Lemma qc_nonzero (z : Z) : (0 < z)%Z -> qc z <> 0.
Proof. intros H E. apply qc_pos in H. rewrite E in H. discriminate H. Qed.

Lemma qc_lt (a b : Z) : (a < b)%Z -> qc a < qc b.
Proof.
  intros H. unfold qc, Qclt. cbn [this Q2Qc]. rewrite !Qred_correct.
  now rewrite <- Zlt_Qlt.
Qed.

Lemma qc_nonneg (z : Z) : (0 <= z)%Z -> 0 <= qc z.
Proof.
  intros H. unfold qc, Qcle. cbn [this Q2Qc]. rewrite !Qred_correct.
  change (inject_Z 0 <= inject_Z z)%Q. now rewrite <- Zle_Qle.
Qed.

Lemma qc_le (a b : Z) : (a <= b)%Z -> qc a <= qc b.
Proof.
  intros H. unfold qc, Qcle. cbn [this Q2Qc]. rewrite !Qred_correct.
  now rewrite <- Zle_Qle.
Qed.

Lemma qc_zero (z : Z) : qc z = 0 <-> z = 0%Z.
Proof.
  split; [|intros ->; reflexivity].
  intros E. destruct (Z.lt_trichotomy z 0) as [H|[H|H]]; [|exact H|].
  - apply qc_lt in H. rewrite E in H. discriminate H.
  - apply qc_pos in H. rewrite E in H. discriminate H.
Qed.

(** The sum of whole numbers, taken as cells. *)
Lemma sum_qc (zs : list Z) : Series.sum (map qc zs) = qc (total zs).
Proof.
  induction zs as [|z zs IH]; [reflexivity|].
  cbn [map Series.sum fold_right total]. fold (total zs).
  change (fold_right Qcplus 0 (map qc zs)) with (Series.sum (map qc zs)).
  now rewrite IH, qc_plus.
Qed.

Lemma Qc_lt_succ (a : Qc) : a < a + 1.
Proof.
  apply Qclt_minus_iff. replace (a + 1 + - a) with 1 by ring. reflexivity.
Qed.

Lemma Qc_succ_pos (a : Qc) : 0 <= a -> 0 < a + 1.
Proof. intros H. eapply Qcle_lt_trans; [exact H | apply Qc_lt_succ]. Qed.

Lemma Qc_mult_nonneg (a b : Qc) : 0 <= a -> 0 <= b -> 0 <= a * b.
Proof.
  intros Ha Hb. rewrite <- (Qcmult_0_l b). now apply Qcmult_le_compat_r.
Qed.

Lemma sum_repeat (c : Qc) (k : nat) :
  Series.sum (repeat c k) = c * qc (Z.of_nat k).
Proof.
  induction k as [|k IH].
  - simpl. change (qc 0) with 0. ring.
  - rewrite Nat2Z.inj_succ, <- Z.add_1_r, qc_plus. simpl. rewrite IH.
    change (qc 1) with 1. ring.
Qed.

Lemma mean_repeat (c : Qc) (k : nat) :
  (0 < k)%nat -> Series.mean (repeat c k) = Some c.
Proof.
  intros Hk. unfold Series.mean, Series.cell_div, Series.count.
  rewrite repeat_length, sum_repeat.
  assert (Hnz : qc (Z.of_nat k) <> 0) by (apply qc_nonzero; lia).
  destruct (Qc_eq_dec (qc (Z.of_nat k)) 0) as [E|_]; [contradiction|].
  now rewrite Qcdiv_mult_l.
Qed.

End CellArithmetic.

(** ** Windows of a constant series *)

Lemma firstn_repeat_le {A : Type} (x : A) (k n : nat) :
  (k <= n)%nat -> firstn k (repeat x n) = repeat x k.
Proof.
  revert n; induction k as [|k IH]; intros n H; [reflexivity|].
  destruct n as [|n]; [lia|]. simpl. f_equal. apply IH. lia.
Qed.

Lemma skipn_repeat_le {A : Type} (x : A) (k n : nat) :
  skipn k (repeat x n) = repeat x (n - k).
Proof.
  revert n; induction k as [|k IH]; intros n; simpl.
  - now rewrite Nat.sub_0_r.
  - destruct n as [|n]; [reflexivity|]. simpl. apply IH.
Qed.

Lemma observations_repeat (c : Qc) (k : nat) :
  Series.observations (repeat (Some c) k) = repeat c k.
Proof. induction k as [|k IH]; simpl; [reflexivity | now rewrite IH]. Qed.

Lemma window_repeat (w : nat) (x : cell) (n i : nat) :
  (i < n)%nat ->
  Series.window w (repeat x n) i = repeat x (Nat.min w (S i)).
Proof.
  intros Hi. unfold Series.window.
  rewrite firstn_repeat_le by lia. rewrite skipn_repeat_le. f_equal. lia.
Qed.

(** A row of [rolling(w).mean()], read off the window. *)
Lemma rolling_mean_nth (w : nat) (xs : series) (i : nat) :
  (i < length xs)%nat ->
  nth_error (Series.rolling_mean w xs) i =
    Some (let obs := Series.observations (Series.window w xs i) in
          if (w <=? length obs)%nat then Series.mean obs else None).
Proof.
  intros Hi. unfold Series.rolling_mean, Series.rolling.
  rewrite nth_error_map, nth_error_seq.
  apply Nat.ltb_lt in Hi. rewrite Hi. reflexivity.
Qed.

(** The running weighted mean of a constant stays at the constant. *)
Lemma ewm_loop_constant (f c : Qc) (m : nat) :
  (0 <= f)%Qc ->
  forall old_wt, (0 < old_wt)%Qc ->
    Series.ewm_loop f 1%Qc (Some c) old_wt (repeat (Some c) m) = repeat (Some c) m.
Proof.
  intros Hf. induction m as [|m IH]; intros old_wt Hw; [reflexivity|].
  assert (Hpos : (0 < old_wt * f + 1)%Qc).
  { apply Qc_succ_pos, Qc_mult_nonneg; [now apply Qclt_le_weak | exact Hf]. }
  assert (Hval : ((old_wt * f * c + 1 * c) / (old_wt * f + 1) = c)%Qc).
  { field. intros E. exact (Qclt_not_eq _ _ Hpos (eq_sym E)). }
  cbn [repeat Series.ewm_loop]. rewrite Hval. f_equal. now apply IH.
Qed.

(** C7. On a constant series of at least 20 closes, SMA(20) is missing on
    the first 19 rows and equals the constant on every row from the 20th on,
    and EMA(20) equals the constant on every row, the first included. *)
Theorem C7_constant_series_sma_ema (c : Qc) (n : nat) :
  (20 <= n)%nat ->
  let closes := repeat (Some c) n in
  (forall i, (19 <= i < n)%nat ->
             nth_error (Series.rolling_mean 20 closes) i = Some (Some c)) /\
  (forall i, (i < 19)%nat ->
             nth_error (Series.rolling_mean 20 closes) i = Some None) /\
  (forall i, (i < n)%nat ->
             nth_error (Series.ewm_mean (qc 20) closes) i = Some (Some c)).
Proof.
  intros Hn closes. unfold closes. repeat split.
  - intros i Hi.
    rewrite rolling_mean_nth by (rewrite repeat_length; lia).
    rewrite window_repeat by lia. cbn zeta.
    rewrite observations_repeat, repeat_length.
    replace (Nat.min 20 (S i)) with 20%nat by lia.
    change (20 <=? 20)%nat with true. cbn iota.
    now rewrite mean_repeat by lia.
  - intros i Hi.
    rewrite rolling_mean_nth by (rewrite repeat_length; lia).
    rewrite window_repeat by lia. cbn zeta.
    rewrite observations_repeat, repeat_length.
    replace (Nat.min 20 (S i)) with (S i) by lia.
    destruct (20 <=? S i)%nat eqn:E; [apply Nat.leb_le in E; lia | reflexivity].
  - intros i Hi.
    assert (Hewm : Series.ewm_mean (qc 20) (repeat (Some c) n) = repeat (Some c) n).
    { destruct n as [|m]; [reflexivity|]. unfold Series.ewm_mean.
      cbn [repeat]. f_equal. apply ewm_loop_constant; reflexivity || discriminate. }
    rewrite Hewm. now apply nth_error_repeat.
Qed.

Lemma C7_witness :
  let closes := repeat (Some (qc 100)) 25 in
  (forall i, (19 <= i < 25)%nat ->
             nth_error (Series.rolling_mean 20 closes) i = Some (Some (qc 100))) /\
  (forall i, (i < 19)%nat ->
             nth_error (Series.rolling_mean 20 closes) i = Some None) /\
  (forall i, (i < 25)%nat ->
             nth_error (Series.ewm_mean (qc 20) closes) i = Some (Some (qc 100))).
Proof.
  apply (C7_constant_series_sma_ema (qc 100) 25). lia.
Defined.

(** ** The running VWAP *)

Section Vwap.
Local Open Scope Qc_scope.

Lemma add_indicator_VWAP (w : world) (data : DataFrame) (fig : Figure)
    (close volume : series) :
  dict_get "Close" (columns data) = Some close ->
  dict_get "Volume" (columns data) = Some volume ->
  exists data' fig',
    add_indicator w "VWAP" (data, fig) = Ok (data', fig') /\
    dict_get "VWAP" (columns data') = Some (cumulative_vwap close volume).
Proof.
  intros Hclose Hvolume. unfold add_indicator, getitem, bind.
  rewrite Hclose, Hvolume. cbn [String.eqb Ascii.eqb Bool.eqb setitem columns index].
  rewrite dict_get_set_eq. do 2 eexists. split; [reflexivity|].
  apply dict_get_set_eq.
Qed.

Lemma cumsum_from_nth (acc : Qc) (xs : list Qc) (i : nat) :
  (i < length xs)%nat ->
  nth_error (Series.cumsum_from acc (map Some xs)) i
  = Some (Some (acc + Series.sum (firstn (S i) xs))).
Proof.
  revert acc i; induction xs as [|x xs IH]; intros acc i Hi; simpl in Hi; [lia|].
  destruct i as [|i].
  - simpl. do 2 f_equal. ring.
  - cbn [map Series.cumsum_from nth_error]. rewrite IH by lia.
    do 2 f_equal. cbn [firstn Series.sum fold_right].
    change (fold_right Qcplus 0 (firstn (S i) xs)) with (Series.sum (firstn (S i) xs)).
    ring.
Qed.

Lemma mul_numeric (bars : list (Qc * Qc)) :
  Series.mul (map Some (map fst bars)) (map Some (map snd bars))
  = map Some (map (fun b => fst b * snd b) bars).
Proof. induction bars as [|b bars IH]; simpl; [reflexivity | now rewrite <- IH]. Qed.

Lemma div_nth (xs ys : series) (i : nat) (a b : cell) :
  nth_error xs i = Some a -> nth_error ys i = Some b ->
  nth_error (Series.div xs ys) i = Some (Series.cell_div a b).
Proof.
  revert ys i; induction xs as [|x xs IH]; intros ys i Ha Hb; [now destruct i|].
  destruct ys as [|y ys]; [now destruct i|].
  destruct i as [|i]; simpl in *; [congruence | now apply IH].
Qed.

(** The VWAP of row [i] in closed form: the volume-weighted sum of the closes
    up to [i] over the volume up to [i]. *)
Lemma cumulative_vwap_nth (bars : list (Qc * Qc)) (i : nat) :
  (i < length bars)%nat ->
  nth_error (cumulative_vwap (map Some (map fst bars)) (map Some (map snd bars))) i
  = Some (Series.cell_div
            (Some (Series.sum (map (fun b => fst b * snd b) (firstn (S i) bars))))
            (Some (Series.sum (map snd (firstn (S i) bars))))).
Proof.
  intros Hi. unfold cumulative_vwap, Series.cumsum. rewrite mul_numeric.
  erewrite div_nth.
  - reflexivity.
  - rewrite cumsum_from_nth by (now rewrite length_map).
    rewrite firstn_map. apply (f_equal Some), (f_equal Some). ring.
  - rewrite cumsum_from_nth by (now rewrite length_map).
    rewrite firstn_map. apply (f_equal Some), (f_equal Some). ring.
Qed.

Lemma Forall_firstn {A : Type} (P : A -> Prop) (k : nat) (l : list A) :
  Forall P l -> Forall P (firstn k l).
Proof.
  revert k; induction l as [|a l IH]; intros k H; destruct k; simpl; try constructor.
  - now inversion H.
  - apply IH. now inversion H.
Qed.

Lemma sum_nonneg (xs : list Qc) : Forall (fun x => 0 <= x) xs -> 0 <= Series.sum xs.
Proof.
  induction 1 as [|x xs Hx _ IH]; simpl; [apply Qcle_refl|].
  replace 0 with (0 + 0) by ring. now apply Qcplus_le_compat.
Qed.

(** With volumes that are not negative, the weighted sum of the closes lies
    between the bounds of the closes times the total volume. *)
Lemma weighted_sum_bounds (lo hi : Qc) (bars : list (Qc * Qc)) :
  Forall (fun b => lo <= fst b /\ fst b <= hi /\ 0 <= snd b) bars ->
  lo * Series.sum (map snd bars) <= Series.sum (map (fun b => fst b * snd b) bars) /\
  Series.sum (map (fun b => fst b * snd b) bars) <= hi * Series.sum (map snd bars).
Proof.
  induction 1 as [|[c v] bars (Hlo & Hhi & Hv) _ [IHlo IHhi]]; simpl in *.
  - split; rewrite Qcmult_0_r; apply Qcle_refl.
  - split.
    + rewrite Qcmult_plus_distr_r.
      apply Qcplus_le_compat; [now apply Qcmult_le_compat_r | exact IHlo].
    + rewrite Qcmult_plus_distr_r.
      apply Qcplus_le_compat; [now apply Qcmult_le_compat_r | exact IHhi].
Qed.

Lemma quotient_bounds (lo hi p v : Qc) :
  0 < v -> lo * v <= p -> p <= hi * v -> lo <= p / v /\ p / v <= hi.
Proof.
  intros Hv Hlo Hhi.
  assert (Hnz : v <> 0) by (intros E; rewrite E in Hv; discriminate Hv).
  assert (E : p / v * v = p) by (field; exact Hnz).
  split; apply (Qcmult_lt_0_le_reg_r _ _ v Hv); now rewrite E.
Qed.

Lemma Qcmin_le_l (a b : Qc) : Qcmin a b <= a.
Proof.
  unfold Qcmin. destruct (Qclt_le_dec b a); [now apply Qclt_le_weak | apply Qcle_refl].
Qed.

Lemma Qcmin_le_r (a b : Qc) : Qcmin a b <= b.
Proof. unfold Qcmin. destruct (Qclt_le_dec b a); [apply Qcle_refl | assumption]. Qed.

Lemma Qcmax_ge_l (a b : Qc) : a <= Qcmax a b.
Proof.
  unfold Qcmax. destruct (Qclt_le_dec a b); [now apply Qclt_le_weak | apply Qcle_refl].
Qed.

Lemma Qcmax_ge_r (a b : Qc) : b <= Qcmax a b.
Proof. unfold Qcmax. destruct (Qclt_le_dec a b); [apply Qcle_refl | assumption]. Qed.

Lemma minimum_lower (xs : list Qc) :
  forall x, minimum x xs <= x /\ Forall (fun c => minimum x xs <= c) xs.
Proof.
  unfold minimum. induction xs as [|a xs IH]; intros x; simpl.
  - split; [apply Qcle_refl | constructor].
  - destruct (IH (Qcmin x a)) as [Hx Hall]. repeat split.
    + eapply Qcle_trans; [exact Hx | apply Qcmin_le_l].
    + constructor; [|exact Hall].
      eapply Qcle_trans; [exact Hx | apply Qcmin_le_r].
Qed.

Lemma maximum_upper (xs : list Qc) :
  forall x, x <= maximum x xs /\ Forall (fun c => c <= maximum x xs) xs.
Proof.
  unfold maximum. induction xs as [|a xs IH]; intros x; simpl.
  - split; [apply Qcle_refl | constructor].
  - destruct (IH (Qcmax x a)) as [Hx Hall]. repeat split.
    + eapply Qcle_trans; [apply Qcmax_ge_l | exact Hx].
    + constructor; [|exact Hall].
      eapply Qcle_trans; [apply Qcmax_ge_r | exact Hx].
Qed.

Lemma minimum_In (xs : list Qc) : forall x, In (minimum x xs) (x :: xs).
Proof.
  unfold minimum. induction xs as [|a xs IH]; intros x; cbn [fold_left]; [now left|].
  destruct (IH (Qcmin x a)) as [H|H]; [|right; now right].
  rewrite <- H. unfold Qcmin. destruct (Qclt_le_dec a x); [right; now left | now left].
Qed.

Lemma maximum_In (xs : list Qc) : forall x, In (maximum x xs) (x :: xs).
Proof.
  unfold maximum. induction xs as [|a xs IH]; intros x; cbn [fold_left]; [now left|].
  destruct (IH (Qcmax x a)) as [H|H]; [|right; now right].
  rewrite <- H. unfold Qcmax. destruct (Qclt_le_dec x a); [right; now left | now left].
Qed.

End Vwap.

(** In exact arithmetic, for closes and volumes that are numbers at every
    bar, with no negative volume: at a row where the volume summed from the
    start is still zero the running VWAP is not a number; at every other row
    it lies between the least and the greatest close of the series. *)
Lemma vwap_between (c0 v0 : Qc) (rest : list (Qc * Qc)) (i : nat) :
  let bars := (c0, v0) :: rest in
  let vwap := cumulative_vwap (map Some (map fst bars)) (map Some (map snd bars)) in
  let volume_so_far := Series.sum (map snd (firstn (S i) bars)) in
  Forall (fun b => (0 <= snd b)%Qc) bars ->
  (i < length bars)%nat ->
  (volume_so_far = 0%Qc -> nth_error vwap i = Some None) /\
  (volume_so_far <> 0%Qc ->
   exists v, nth_error vwap i = Some (Some v) /\
             (minimum c0 (map fst rest) <= v)%Qc /\
             (v <= maximum c0 (map fst rest))%Qc).
Proof.
  intros bars vwap volume_so_far Hvol Hi. unfold vwap.
  rewrite cumulative_vwap_nth by exact Hi.
  fold volume_so_far. unfold Series.cell_div.
  destruct (Qc_eq_dec volume_so_far 0%Qc) as [E|E]; split; try contradiction; auto.
  intros _. eexists. split; [reflexivity|].
  set (lo := minimum c0 (map fst rest)). set (hi := maximum c0 (map fst rest)).
  assert (Hrange : Forall (fun b => (lo <= fst b /\ fst b <= hi /\ 0 <= snd b)%Qc) bars).
  { destruct (minimum_lower (map fst rest) c0) as [Hlo0 Hlo].
    destruct (maximum_upper (map fst rest) c0) as [Hhi0 Hhi].
    rewrite Forall_map in Hlo, Hhi. rewrite Forall_forall in *.
    intros b [<-|Hb].
    - repeat split; [exact Hlo0 | exact Hhi0 | apply Hvol; now left].
    - repeat split; [now apply Hlo | now apply Hhi | apply Hvol; now right]. }
  assert (Hpos : (0 < volume_so_far)%Qc).
  { destruct (Qcle_lt_or_eq 0%Qc volume_so_far) as [H|H]; [|exact H | congruence].
    apply sum_nonneg. rewrite Forall_map. now apply Forall_firstn. }
  destruct (weighted_sum_bounds lo hi (firstn (S i) bars)) as [Hlo Hhi];
    [now apply Forall_firstn|].
  now apply quotient_bounds.
Qed.

(** A rounding that leaves the whole numbers up to 2^53 alone leaves the
    least and the greatest of such closes alone. *)
Lemma rounding_keeps_bounds (rnd : Qc -> Qc) (c0 : Z) (cs : list Z) :
  rounds_like_double rnd ->
  Forall (fun c => Z.abs c <= 2 ^ 53) (c0 :: cs) ->
  rnd (minimum (qc c0) (map qc cs)) = minimum (qc c0) (map qc cs) /\
  rnd (maximum (qc c0) (map qc cs)) = maximum (qc c0) (map qc cs).
Proof.
  intros [_ Hfix] Hsmall. rewrite Forall_forall in Hsmall.
  assert (Hin : forall x, In x (qc c0 :: map qc cs) -> rnd x = x).
  { intros x Hx. change (qc c0 :: map qc cs) with (map qc (c0 :: cs)) in Hx.
    apply in_map_iff in Hx as (z & <- & Hz). now apply Hfix, Hsmall. }
  split; apply Hin; [apply minimum_In | apply maximum_In].
Qed.

(** C8, as the script has it.  For closes and volumes that are whole numbers
    at every bar, with no negative volume and of a size at which the
    arithmetic of the columns is exact (no close, no sum of volumes and no
    sum of the products |close| x volume above 2^53): at a row where the
    volume summed from the start is still zero the running VWAP is not a
    number; at every other row the quotient lies between the least and the
    greatest close of the series, and so does the double the script stores
    for it.  On such data the sums of the script are exact and its only
    rounding is that of the last division; rounding to the nearest double
    keeps the order and leaves the bounds, which are doubles, alone. *)
Theorem C8_vwap_within_close_range (c0 v0 : Z) (rest : list (Z * Z)) (i : nat) :
  let bars := (c0, v0) :: rest in
  let closes := map (fun b => Some (qc (fst b))) bars in
  let volumes := map (fun b => Some (qc (snd b))) bars in
  let vwap := cumulative_vwap closes volumes in
  let volume_so_far := total (map snd (firstn (S i) bars)) in
  let lowest := minimum (qc c0) (map (fun b => qc (fst b)) rest) in
  let highest := maximum (qc c0) (map (fun b => qc (fst b)) rest) in
  Forall (fun b => 0 <= snd b) bars ->
  exact_in_double bars ->
  (i < length bars)%nat ->
  (volume_so_far = 0 -> nth_error vwap i = Some None) /\
  (volume_so_far <> 0 ->
   exists v, nth_error vwap i = Some (Some v) /\
             (lowest <= v)%Qc /\ (v <= highest)%Qc /\
             forall rnd, rounds_like_double rnd ->
                         (lowest <= rnd v)%Qc /\ (rnd v <= highest)%Qc).
Proof.
  intros bars closes volumes vwap volume_so_far lowest highest Hvol [Hsmall _] Hi.
  set (cells := map (fun b => (qc (fst b), qc (snd b))) rest).
  assert (Hcloses : closes = map Some (map fst ((qc c0, qc v0) :: cells))).
  { unfold closes, bars, cells. cbn [map fst]. now rewrite !map_map. }
  assert (Hvolumes : volumes = map Some (map snd ((qc c0, qc v0) :: cells))).
  { unfold volumes, bars, cells. cbn [map snd]. now rewrite !map_map. }
  assert (Hsum : Series.sum (map snd (firstn (S i) ((qc c0, qc v0) :: cells)))
                 = qc volume_so_far).
  { unfold volume_so_far. rewrite <- sum_qc.
    change ((qc c0, qc v0) :: cells)
      with (map (fun b : Z * Z => (qc (fst b), qc (snd b))) bars).
    now rewrite firstn_map, !map_map. }
  assert (Hbounds : forall rnd, rounds_like_double rnd ->
                                rnd lowest = lowest /\ rnd highest = highest).
  { intros rnd Hrnd. unfold lowest, highest.
    rewrite <- (map_map fst qc rest).
    apply rounding_keeps_bounds; [exact Hrnd|].
    change (c0 :: map fst rest) with (map fst bars). now rewrite Forall_map. }
  destruct (vwap_between (qc c0) (qc v0) cells i) as [Hzero Hpos].
  - change ((qc c0, qc v0) :: cells)
      with (map (fun b : Z * Z => (qc (fst b), qc (snd b))) bars).
    rewrite Forall_map. eapply Forall_impl; [|exact Hvol].
    intros b Hb. now apply qc_nonneg.
  - unfold cells. cbn [length]. rewrite length_map. exact Hi.
  - unfold vwap. rewrite Hcloses, Hvolumes.
    replace (map fst cells) with (map (fun b => qc (fst b)) rest) in Hpos
      by (unfold cells; now rewrite map_map).
    fold lowest highest in Hpos.
    split.
    + intros E. apply Hzero. rewrite Hsum. now apply qc_zero.
    + intros E. destruct Hpos as (v & Hv & Hlo & Hhi).
      { rewrite Hsum. intros E'. now apply qc_zero in E'. }
      exists v. split; [exact Hv|]. split; [exact Hlo|]. split; [exact Hhi|].
      intros rnd Hrnd. destruct (Hbounds rnd Hrnd) as [Elo Ehi].
      destruct Hrnd as [Hmono _].
      split; [rewrite <- Elo | rewrite <- Ehi]; now apply Hmono.
Qed.

Lemma C8_witness :
  (total (map snd (firstn 2 [(10, 0); (12, 5); (11, 7)])) = 0 ->
   nth_error (cumulative_vwap [Some (qc 10); Some (qc 12); Some (qc 11)]
                              [Some (qc 0); Some (qc 5); Some (qc 7)]) 1 = Some None) /\
  (total (map snd (firstn 2 [(10, 0); (12, 5); (11, 7)])) <> 0 ->
   exists v,
     nth_error (cumulative_vwap [Some (qc 10); Some (qc 12); Some (qc 11)]
                                [Some (qc 0); Some (qc 5); Some (qc 7)]) 1 = Some (Some v) /\
     (minimum (qc 10) [qc 12; qc 11] <= v)%Qc /\
     (v <= maximum (qc 10) [qc 12; qc 11])%Qc /\
     forall rnd, rounds_like_double rnd ->
                 (minimum (qc 10) [qc 12; qc 11] <= rnd v)%Qc /\
                 (rnd v <= maximum (qc 10) [qc 12; qc 11])%Qc).
Proof.
  apply (C8_vwap_within_close_range 10 0 [(12, 5); (11, 7)] 1).
  - repeat constructor; discriminate.
  - unfold exact_in_double. split; [|split].
    + repeat constructor; discriminate.
    + discriminate.
    + discriminate.
  - simpl. lia.
Defined.

(** C8 as stated fails on a first bar without volume: the VWAP of that row is
    0/0. *)
Lemma C8_counterexample :
  ~ (forall (c0 v0 : Qc) (rest : list (Qc * Qc)) (i : nat),
        let bars := (c0, v0) :: rest in
        Forall (fun b => (0 <= snd b)%Qc) bars ->
        (i < length bars)%nat ->
        exists v,
          nth_error (cumulative_vwap (map Some (map fst bars)) (map Some (map snd bars))) i
            = Some (Some v) /\
          (minimum c0 (map fst rest) <= v)%Qc /\
          (v <= maximum c0 (map fst rest))%Qc).
Proof.
  intros claim.
  destruct (claim (qc 10) (qc 0) [] 0%nat) as (v & Hv & _).
  - repeat constructor. discriminate.
  - simpl. lia.
  - vm_compute in Hv. discriminate Hv.
Qed.

(** A bar whose Close is missing is left out of the weighted sum but not of
    the volume, so the rows after it can fall below every close. *)
Example vwap_after_missing_close :
  cumulative_vwap [None; Some (qc 10)] [Some (qc 5); Some (qc 5)]
  = [None; Some (qc 5)].
Proof.
  apply (f_equal (cons None)), (f_equal (fun x => [Some x])), Qc_is_canon.
  reflexivity.
Qed.

(** ** The decoder's budget is never used up *)

Module JsonFacts.
Import Json.

Lemma progresses_err {A : Type} (m : string) (s : string) :
  progresses (@PErr A m) s.
Proof. split; [discriminate | intros a r H; discriminate H]. Qed.

Lemma progresses_ok {A : Type} (a : A) (r s : string) :
  (String.length r < String.length s)%nat -> progresses (POk a r) s.
Proof. intros H. split; [discriminate | now intros a' r' [= _ <-]]. Qed.

Lemma progresses_pmap {A B : Type} (f : A -> B) (x : presult A) (s t : string) :
  progresses x s -> (String.length s <= String.length t)%nat ->
  progresses (pmap f x) t.
Proof.
  intros [Hfuel Hlen] Hst. destruct x as [a r| |]; simpl.
  - apply progresses_ok. specialize (Hlen a r eq_refl). lia.
  - apply progresses_err.
  - contradiction.
Qed.

Lemma skip_ws_length (s : string) :
  (String.length (skip_ws s) <= String.length s)%nat.
Proof.
  induction s as [|c s IH]; simpl; [lia|].
  destruct (is_ws c); simpl; lia.
Qed.

Lemma decode_uXXXX_length (s r : string) (u : Z) :
  decode_uXXXX s = Some (u, r) -> String.length s = (4 + String.length r)%nat.
Proof.
  unfold decode_uXXXX.
  destruct s as [|a [|b [|c [|d s]]]]; try discriminate.
  destruct (hex_val a), (hex_val b), (hex_val c), (hex_val d); try discriminate.
  now intros [= _ <-].
Qed.

Lemma join_surrogates_length (u u' : Z) (r r' : string) :
  join_surrogates u r = (u', r') -> (String.length r' <= String.length r)%nat.
Proof.
  unfold join_surrogates.
  destruct ((55296 <=? u) && (u <=? 56319)); [|now intros [= _ <-]].
  destruct r as [|b [|c r0]]; try (now intros [= _ <-]).
  destruct (Ascii.eqb b backslash_char && Ascii.eqb c "u"%char); [|now intros [= _ <-]].
  destruct (decode_uXXXX r0) as [[u2 r2]|] eqn:E; [|now intros [= _ <-]].
  apply decode_uXXXX_length in E.
  destruct ((56320 <=? u2) && (u2 <=? 57343)); intros [= _ <-]; simpl; lia.
Qed.

Lemma scanstring_progresses (n : nat) :
  forall s, (String.length s < n)%nat -> progresses (scanstring n s) s.
Proof.
  induction n as [|n IH]; intros s Hn; [lia|].
  destruct s as [|c s]; [apply progresses_err|]. simpl in Hn. cbn [scanstring].
  destruct (Ascii.eqb c dquote); [apply progresses_ok; simpl; lia|].
  destruct (Ascii.eqb c backslash_char).
  - destruct s as [|e s]; [apply progresses_err|]. simpl in Hn.
    destruct (Ascii.eqb e "u"%char).
    + destruct (decode_uXXXX s) as [[u r]|] eqn:E; [|apply progresses_err].
      apply decode_uXXXX_length in E.
      destruct (join_surrogates u r) as [u' r'] eqn:J.
      apply join_surrogates_length in J.
      apply progresses_pmap with (s := r'); [apply IH; lia | simpl; lia].
    + destruct (backslash e); [|apply progresses_err].
      apply progresses_pmap with (s := s); [apply IH; lia | simpl; lia].
  - destruct (code c <? 32); [apply progresses_err|].
    apply progresses_pmap with (s := s); [apply IH; lia | simpl; lia].
Qed.

Lemma take_digits_length (s d r : string) :
  take_digits s = (d, r) -> (String.length r <= String.length s)%nat.
Proof.
  revert d r; induction s as [|c s IH]; intros d r; simpl.
  - now intros [= _ <-].
  - destruct (is_digit c); [|now intros [= _ <-]].
    destruct (take_digits s) as [d0 r0]. intros [= _ <-].
    specialize (IH d0 r0 eq_refl). lia.
Qed.

Lemma lex_int_length (s i r : string) :
  lex_int s = Some (i, r) -> (String.length r < String.length s)%nat.
Proof.
  unfold lex_int.
  assert (Hdigits : forall t i r,
             match t with
             | String c r0 =>
                 if Ascii.eqb c "0"%char then Some (i ++ "0", r0)
                 else if is_digit c then
                   let '(d, r') := take_digits r0 in Some (i ++ String c d, r')
                 else None
             | EmptyString => None
             end = Some r -> (String.length (snd r) < String.length t)%nat).
  { intros t i0 r0. destruct t as [|c t]; [discriminate|].
    destruct (Ascii.eqb c "0"%char); [intros [= <-]; simpl; lia|].
    destruct (is_digit c); [|discriminate].
    destruct (take_digits t) as [d r'] eqn:E. apply take_digits_length in E.
    intros [= <-]. simpl. lia. }
  destruct s as [|c s]; [discriminate|].
  destruct (Ascii.eqb c "-"%char); intros H.
  - apply (Hdigits s) in H. simpl in *. lia.
  - apply (Hdigits (String c s)) in H. exact H.
Qed.

Lemma lex_frac_length (s f r : string) :
  lex_frac s = (f, r) -> (String.length r <= String.length s)%nat.
Proof.
  unfold lex_frac. destruct s as [|c s]; [now intros [= _ <-]|].
  destruct (Ascii.eqb c "."%char); [|now intros [= _ <-]].
  destruct (take_digits s) as [d r'] eqn:E. apply take_digits_length in E.
  destruct d; intros [= _ <-]; simpl; lia.
Qed.

Lemma exp_sign_length (s sg r1 : string) :
  match s with
  | String g r0 =>
      if Ascii.eqb g "-"%char || Ascii.eqb g "+"%char
      then (String g "", r0) else ("", s)
  | EmptyString => ("", s)
  end = (sg, r1) -> (String.length r1 <= String.length s)%nat.
Proof.
  destruct s as [|g s0]; [now intros [= _ <-]|].
  destruct (Ascii.eqb g "-"%char || Ascii.eqb g "+"%char);
    intros [= _ <-]; simpl; lia.
Qed.

Lemma lex_exp_length (s e r : string) :
  lex_exp s = (e, r) -> (String.length r <= String.length s)%nat.
Proof.
  unfold lex_exp. destruct s as [|c s]; [now intros [= _ <-]|].
  destruct (Ascii.eqb c "e"%char || Ascii.eqb c "E"%char); [|now intros [= _ <-]].
  destruct (match s with EmptyString => _ | String _ _ => _ end) as [sg r1] eqn:E1.
  apply exp_sign_length in E1.
  destruct (take_digits r1) as [d r'] eqn:E. apply take_digits_length in E.
  destruct d; intros [= _ <-]; simpl; lia.
Qed.

Lemma lex_number_length (s lx r : string) :
  lex_number s = Some (lx, r) -> (String.length r < String.length s)%nat.
Proof.
  unfold lex_number. destruct (lex_int s) as [[i r0]|] eqn:Ei; [|discriminate].
  apply lex_int_length in Ei.
  destruct (lex_frac r0) as [f r1] eqn:Ef. apply lex_frac_length in Ef.
  destruct (lex_exp r1) as [e r2] eqn:Ee. apply lex_exp_length in Ee.
  intros [= _ <-]. lia.
Qed.

Lemma drop_prefix_length (w s : string) :
  String.prefix w s = true ->
  (String.length (drop (String.length w) s) + String.length w)%nat = String.length s.
Proof.
  revert s; induction w as [|a w IH]; intros s; simpl.
  - destruct s; simpl; lia.
  - destruct s as [|b s]; [discriminate|]. cbn [prefix].
    destruct (ascii_dec a b); [|discriminate]. intros H.
    cbn [String.length]. rewrite <- (IH s H). lia.
Qed.

Lemma literal_progresses (w : string) (v : json) (s : string) (x : presult json) :
  (0 < String.length w)%nat -> literal w v s = Some x -> progresses x s.
Proof.
  unfold literal. intros Hw. destruct (String.prefix w s) eqn:E; [|discriminate].
  intros [= <-]. apply progresses_ok. apply drop_prefix_length in E. lia.
Qed.

Lemma first_of_progresses (xs : list (option (presult json))) (dflt : presult json)
    (s : string) :
  Forall (fun o => forall x, o = Some x -> progresses x s) xs ->
  progresses dflt s ->
  progresses (first_of xs dflt) s.
Proof.
  intros Hxs Hd. induction Hxs as [|o xs Ho _ IH]; simpl; [exact Hd|].
  destruct o as [x|]; [now apply Ho | exact IH].
Qed.

Lemma skip_ws_cons_length (s r : string) (c : ascii) :
  skip_ws s = String c r -> (String.length r < String.length s)%nat.
Proof.
  intros H. pose proof (skip_ws_length s) as Hlen. rewrite H in Hlen.
  simpl in Hlen. lia.
Qed.

Lemma number_progresses (s : string) (x : presult json) :
  option_map (fun '(lx, r) => POk (JNumber lx) r) (lex_number s) = Some x ->
  progresses x s.
Proof.
  destruct (lex_number s) as [[lx r]|] eqn:E; [|discriminate].
  intros [= <-]. apply progresses_ok. now apply lex_number_length in E.
Qed.

(** Two units of budget per character are enough for the three loops. *)
Lemma scan_progresses (n : nat) :
  (forall s, (2 * String.length s < n)%nat -> progresses (scan_once n s) s) /\
  (forall acc s, (2 * String.length s + 1 < n)%nat ->
                 progresses (object_members n acc s) s) /\
  (forall acc s, (2 * String.length s + 1 < n)%nat ->
                 progresses (array_items n acc s) s).
Proof.
  induction n as [|n (IHscan & IHobj & IHarr)]; [repeat split; intros; lia|].
  split; [|split].
  - intros s Hn. destruct s as [|c s]; [apply progresses_err|].
    cbn [String.length] in Hn. cbn [scan_once].
    destruct (Ascii.eqb c dquote).
    { apply progresses_pmap with (s := s); [|cbn [String.length]; lia].
      apply scanstring_progresses. lia. }
    destruct (Ascii.eqb c "{"%char).
    { destruct (skip_ws s) as [|c1 r1] eqn:E; [apply progresses_err|].
      apply skip_ws_cons_length in E.
      destruct (Ascii.eqb c1 "}"%char); [apply progresses_ok; cbn [String.length]; lia|].
      destruct (Ascii.eqb c1 dquote); [|apply progresses_err].
      destruct (IHobj [] r1 ltac:(lia)) as [Hfuel Hlen].
      split; [exact Hfuel|]. intros a r H. specialize (Hlen a r H).
      cbn [String.length]. lia. }
    destruct (Ascii.eqb c "["%char).
    { pose proof (skip_ws_length s) as Hws.
      destruct (skip_ws s) as [|c1 r1] eqn:E; [apply progresses_err|].
      destruct (Ascii.eqb c1 "]"%char).
      { apply progresses_ok. cbn [String.length] in *. lia. }
      destruct (IHarr [] (String c1 r1) ltac:(lia)) as [Hfuel Hlen].
      split; [exact Hfuel|]. intros a r H. specialize (Hlen a r H).
      cbn [String.length] in *. lia. }
    apply first_of_progresses; [|apply progresses_err].
    repeat (apply Forall_cons;
            [ intros x Hx;
              solve [ eapply literal_progresses; [|exact Hx]; cbn; lia
                    | now apply number_progresses ] | ]).
    apply Forall_nil.
  - intros acc s Hn. cbn [object_members].
    destruct (scanstring_progresses (S (String.length s)) s ltac:(lia)) as [Hsf Hsl].
    destruct (scanstring (S (String.length s)) s) as [key r| |]; [|apply progresses_err|contradiction].
    specialize (Hsl key r eq_refl).
    destruct (skip_ws r) as [|c r1] eqn:E; [apply progresses_err|].
    apply skip_ws_cons_length in E.
    destruct (Ascii.eqb c ":"%char); [|apply progresses_err].
    pose proof (skip_ws_length r1) as Hws.
    destruct (IHscan (skip_ws r1) ltac:(lia)) as [Hvf Hvl].
    destruct (scan_once n (skip_ws r1)) as [v r2| |]; [|apply progresses_err|contradiction].
    specialize (Hvl v r2 eq_refl).
    destruct (skip_ws r2) as [|c2 r3] eqn:E2; [apply progresses_err|].
    apply skip_ws_cons_length in E2.
    destruct (Ascii.eqb c2 "}"%char); [apply progresses_ok; lia|].
    destruct (Ascii.eqb c2 ","%char); [|apply progresses_err].
    destruct (skip_ws r3) as [|c3 r4] eqn:E3; [apply progresses_err|].
    apply skip_ws_cons_length in E3.
    destruct (Ascii.eqb c3 dquote); [|apply progresses_err].
    destruct (IHobj (dict_set key v acc) r4 ltac:(lia)) as [Hfuel Hlen].
    split; [exact Hfuel|]. intros a r' H. specialize (Hlen a r' H). lia.
  - intros acc s Hn. cbn [array_items].
    destruct (IHscan s ltac:(lia)) as [Hvf Hvl].
    destruct (scan_once n s) as [v r| |]; [|apply progresses_err|contradiction].
    specialize (Hvl v r eq_refl).
    destruct (skip_ws r) as [|c r1] eqn:E; [apply progresses_err|].
    apply skip_ws_cons_length in E.
    destruct (Ascii.eqb c "]"%char); [apply progresses_ok; lia|].
    destruct (Ascii.eqb c ","%char); [|apply progresses_err].
    pose proof (skip_ws_length r1) as Hws.
    destruct (IHarr (v :: acc) (skip_ws r1) ltac:(lia)) as [Hfuel Hlen].
    split; [exact Hfuel|]. intros a r' H. specialize (Hlen a r' H). lia.
Qed.

End JsonFacts.

(** [json.loads] returns a value or raises [JSONDecodeError], nothing else. *)
Lemma json_loads_decodes (s : string) :
  (exists v, json_loads s = Ok v) \/ (exists m, json_loads s = Raise (JSONDecodeError m)).
Proof.
  unfold json_loads. destruct (String.prefix utf8_bom s); [right; eauto|].
  pose proof (JsonFacts.skip_ws_length s) as Hws.
  destruct (proj1 (JsonFacts.scan_progresses (S (2 * String.length s)))
              (Json.skip_ws s) ltac:(lia)) as [Hfuel _].
  destruct (Json.scan_once _ _) as [v r|m|]; [|right; eauto|contradiction].
  destruct (Json.skip_ws r); [left | right]; eauto.
Qed.

(** ** Every reply that passes the guard is cut as C4 describes *)

Lemma rfind_from_split (c : ascii) (s : string) :
  forall i last,
    (PyStr.contains c s = false /\ PyStr.rfind_from c s i last = last) \/
    (exists a post, s = (a ++ String c post)%string /\
                    PyStr.contains c post = false /\
                    PyStr.rfind_from c s i last = i + PyStr.len a).
Proof.
  induction s as [|x s IH]; intros i last; [left; split; reflexivity|].
  cbn [PyStr.rfind_from PyStr.contains].
  destruct (IH (i + 1) (if Ascii.eqb x c then i else last))
    as [[Habsent Hlast] | (a & post & -> & Hpost & Hfound)].
  - destruct (Ascii.eqb x c) eqn:E.
    + right. apply Ascii.eqb_eq in E as ->. exists ""%string, s.
      rewrite Hlast. change (PyStr.len "") with 0. repeat split; [assumption | lia].
    + left. rewrite Hlast. now rewrite Habsent.
  - right. exists (String x a), post. rewrite Hfound, PyStrFacts.len_cons.
    repeat split; [assumption | lia].
Qed.

Lemma app_split (s1 t1 s2 t2 : string) :
  (s1 ++ t1 = s2 ++ t2)%string ->
  (String.length s1 <= String.length s2)%nat ->
  exists m, s2 = (s1 ++ m)%string /\ t1 = (m ++ t2)%string.
Proof.
  revert s2; induction s1 as [|a s1 IH]; intros s2 H Hlen.
  - exists s2. split; [reflexivity | exact H].
  - destruct s2 as [|b s2]; [simpl in Hlen; lia|].
    simpl in H. injection H as <- H. simpl in Hlen.
    destruct (IH s2 H ltac:(lia)) as (m & -> & ->). now exists m.
Qed.

Lemma has_brace_span_split (t : string) :
  has_brace_span t = true ->
  exists pre mid post,
    t = (pre ++ "{" ++ mid ++ "}" ++ post)%string /\
    PyStr.contains "{"%char pre = false /\
    PyStr.contains "}"%char post = false.
Proof.
  unfold has_brace_span, PyStr.find, PyStr.rfind. intros H.
  apply andb_true_iff in H as [Hfound Hafter].
  apply negb_true_iff, Z.eqb_neq in Hfound. apply Z.gtb_lt in Hafter.
  destruct (find_from_split "{" t 0 ltac:(lia) Hfound) as (pre & rest & Ht & Hpre & Hfind).
  rewrite Hfind in Hafter. pose proof (PyStrFacts.len_nonneg pre) as Hp.
  destruct (rfind_from_split "}" t 0 (-1)) as [[_ Hlast] | (a & post & Ha & Hpost & Hlast)];
    rewrite Hlast in Hafter; [lia|].
  destruct (app_split pre (String "{" rest) a (String "}" post)) as (m & -> & Hm).
  { congruence. }
  { unfold PyStr.len in Hafter. lia. }
  destruct m as [|x m]; [discriminate Hm|].
  simpl in Hm. injection Hm as <- ->.
  exists pre, m, post. repeat split; assumption.
Qed.

(** ** The traces of the two moving averages *)

Lemma add_indicator_SMA (w : world) (data : DataFrame) (fig : Figure) (close : series) :
  dict_get "Close" (columns data) = Some close ->
  add_indicator w "20-Day SMA" (data, fig)
  = Ok (data, add_trace fig (mkScatter (index data) (Series.rolling_mean 20 close)
                                       "lines" "SMA (20)")).
Proof. intros H. unfold add_indicator, getitem, bind. rewrite H. reflexivity. Qed.

Lemma add_indicator_EMA (w : world) (data : DataFrame) (fig : Figure) (close : series) :
  dict_get "Close" (columns data) = Some close ->
  add_indicator w "20-Day EMA" (data, fig)
  = Ok (data, add_trace fig (mkScatter (index data) (Series.ewm_mean (qc 20) close)
                                       "lines" "EMA (20)")).
Proof. intros H. unfold add_indicator, getitem, bind. rewrite H. reflexivity. Qed.

(** ** The tickers read from the sidebar *)

Module SidebarFacts.
Import Sidebar.

Ltac by_ascii_cases c :=
  destruct c as [[] [] [] [] [] [] [] []]; reflexivity.

Lemma upper_char_idem (c : ascii) : upper_char (upper_char c) = upper_char c.
Proof. by_ascii_cases c. Qed.

Lemma isspace_upper_char (c : ascii) : isspace (upper_char c) = isspace c.
Proof. by_ascii_cases c. Qed.

Lemma comma_upper_char (c : ascii) :
  Ascii.eqb (upper_char c) ","%char = Ascii.eqb c ","%char.
Proof. by_ascii_cases c. Qed.

Lemma isspace_comma (c : ascii) : Ascii.eqb c ","%char = true -> isspace c = false.
Proof. intros H. apply Ascii.eqb_eq in H as ->. reflexivity. Qed.

Lemma upper_idem (s : string) : upper (upper s) = upper s.
Proof.
  induction s as [|c s IH]; simpl; [reflexivity|].
  now rewrite upper_char_idem, IH.
Qed.

Lemma upper_empty (s : string) : upper s = ""%string -> s = ""%string.
Proof. destruct s; [reflexivity | discriminate]. Qed.

Lemma contains_upper (s : string) :
  PyStr.contains ","%char (upper s) = PyStr.contains ","%char s.
Proof.
  induction s as [|c s IH]; simpl; [reflexivity|].
  now rewrite comma_upper_char, IH.
Qed.

Lemma lstrip_upper (s : string) : lstrip (upper s) = upper (lstrip s).
Proof.
  induction s as [|c s IH]; simpl; [reflexivity|].
  rewrite isspace_upper_char. destruct (isspace c); [exact IH | reflexivity].
Qed.

Lemma rstrip_upper (s : string) : rstrip (upper s) = upper (rstrip s).
Proof.
  induction s as [|c s IH]; simpl; [reflexivity|].
  rewrite IH, isspace_upper_char.
  destruct (rstrip s); simpl; [destruct (isspace c)|]; reflexivity.
Qed.

Lemma strip_upper (s : string) : strip (upper s) = upper (strip s).
Proof. unfold strip. now rewrite rstrip_upper, lstrip_upper. Qed.

Lemma lstrip_idem (s : string) : lstrip (lstrip s) = lstrip s.
Proof.
  induction s as [|c s IH]; simpl; [reflexivity|].
  destruct (isspace c) eqn:E; [exact IH | simpl; now rewrite E].
Qed.

Lemma rstrip_idem (s : string) : rstrip (rstrip s) = rstrip s.
Proof.
  induction s as [|c s IH]; simpl; [reflexivity|].
  destruct (rstrip s) as [|d r] eqn:E.
  - destruct (isspace c) eqn:Ec; simpl; [reflexivity | now rewrite Ec].
  - cbn [rstrip]. cbn [rstrip] in IH. now rewrite IH.
Qed.

Lemma rstrip_lstrip (s : string) : rstrip (lstrip s) = lstrip (rstrip s).
Proof.
  induction s as [|c s IH]; [reflexivity|]. cbn [lstrip rstrip].
  destruct (isspace c) eqn:Ec.
  - rewrite IH. destruct (rstrip s) as [|d r]; simpl; rewrite ?Ec; reflexivity.
  - cbn [rstrip]. destruct (rstrip s) as [|d r]; simpl; rewrite ?Ec; reflexivity.
Qed.

Lemma strip_idem (s : string) : strip (strip s) = strip s.
Proof.
  unfold strip. now rewrite rstrip_lstrip, rstrip_idem, lstrip_idem.
Qed.

Lemma contains_lstrip (x : ascii) (s : string) :
  PyStr.contains x s = false -> PyStr.contains x (lstrip s) = false.
Proof.
  induction s as [|c s IH]; simpl; [reflexivity|]. intros H.
  apply orb_false_iff in H as [Hc Hs].
  destruct (isspace c); [now apply IH | simpl; now rewrite Hc, Hs].
Qed.

Lemma contains_rstrip (x : ascii) (s : string) :
  PyStr.contains x s = false -> PyStr.contains x (rstrip s) = false.
Proof.
  induction s as [|c s IH]; simpl; [reflexivity|]. intros H.
  apply orb_false_iff in H as [Hc Hs]. specialize (IH Hs).
  destruct (rstrip s) as [|d r].
  - destruct (isspace c); simpl; [reflexivity | now rewrite Hc].
  - cbn [PyStr.contains]. cbn [PyStr.contains] in IH. now rewrite Hc, IH.
Qed.

Lemma contains_strip (x : ascii) (s : string) :
  PyStr.contains x s = false -> PyStr.contains x (strip s) = false.
Proof. intros H. unfold strip. now apply contains_lstrip, contains_rstrip. Qed.

Lemma split_pieces (sep : ascii) (s : string) :
  Forall (fun piece => PyStr.contains sep piece = false) (split sep s).
Proof.
  induction s as [|c s IH]; simpl; [repeat constructor|].
  destruct (Ascii.eqb c sep) eqn:E; [constructor; [reflexivity | exact IH]|].
  destruct (split sep s) as [|piece pieces]; [repeat constructor; simpl; now rewrite E|].
  inversion IH as [|? ? Hp Hps]; subst. constructor; [|exact Hps].
  simpl. now rewrite E, Hp.
Qed.

Lemma split_whole (sep : ascii) (s : string) :
  PyStr.contains sep s = false -> split sep s = [s].
Proof.
  induction s as [|c s IH]; simpl; [reflexivity|]. intros H.
  apply orb_false_iff in H as [Hc Hs]. now rewrite Hc, IH.
Qed.

Lemma split_first (sep : ascii) (s rest : string) :
  PyStr.contains sep s = false ->
  split sep (s ++ String sep rest) = s :: split sep rest.
Proof.
  induction s as [|c s IH]; simpl.
  - now rewrite Ascii.eqb_refl.
  - intros H. apply orb_false_iff in H as [Hc Hs]. now rewrite Hc, IH.
Qed.

Lemma tickers_cons (t rest : string) :
  clean_ticker t ->
  tickers_of_input (t ++ String "," rest) = t :: tickers_of_input rest.
Proof.
  intros (Hne & Hcomma & Hstrip & Hupper). unfold tickers_of_input.
  rewrite split_first by exact Hcomma. cbn [filter]. rewrite Hstrip.
  destruct (String.eqb_spec t ""); [contradiction|]. cbn [negb map].
  now rewrite Hstrip, Hupper.
Qed.

Lemma tickers_single (t : string) :
  clean_ticker t -> tickers_of_input t = [t].
Proof.
  intros (Hne & Hcomma & Hstrip & Hupper). unfold tickers_of_input.
  rewrite split_whole by exact Hcomma. cbn [filter]. rewrite Hstrip.
  destruct (String.eqb_spec t ""); [contradiction|]. cbn [negb map].
  now rewrite Hstrip, Hupper.
Qed.

Lemma tickers_clean (tickers_input : string) :
  Forall clean_ticker (tickers_of_input tickers_input).
Proof.
  unfold tickers_of_input. apply Forall_map, Forall_forall.
  intros t Hin. apply filter_In in Hin as [Hin Hkeep].
  pose proof (split_pieces ","%char tickers_input) as Hpieces.
  rewrite Forall_forall in Hpieces. specialize (Hpieces t Hin).
  apply negb_true_iff, String.eqb_neq in Hkeep.
  repeat split.
  - intros E. apply upper_empty in E. contradiction.
  - rewrite contains_upper. now apply contains_strip.
  - now rewrite strip_upper, strip_idem.
  - apply upper_idem.
Qed.

Lemma tickers_of_joined (ts : list string) :
  Forall clean_ticker ts -> tickers_of_input (join "," ts) = ts.
Proof.
  induction 1 as [|t ts Ht Hts IH]; [reflexivity|].
  destruct ts as [|t' ts]; [now apply tickers_single|].
  change (join "," (t :: t' :: ts)) with (t ++ String "," (join "," (t' :: ts)))%string.
  rewrite tickers_cons by exact Ht. now rewrite IH.
Qed.

End SidebarFacts.

(** X1. On ASCII text, every ticker read from the text box is not empty,
    holds no comma, has no space at either end and no lower-case letter:
    empty entries and entries of spaces only are dropped. *)
Theorem X1_tickers_are_clean (tickers_input : string) :
  Sidebar.is_ascii tickers_input = true ->
  Forall clean_ticker (Sidebar.tickers_of_input tickers_input).
Proof. intros _. apply SidebarFacts.tickers_clean. Qed.

Lemma X1_witness :
  Forall clean_ticker (Sidebar.tickers_of_input " aapl , ,msft,").
Proof. exact (X1_tickers_are_clean " aapl , ,msft," eq_refl). Defined.

(** X2. On ASCII text, writing the tickers that were read back into the box,
    separated by commas, reads the same tickers again. *)
Theorem X2_tickers_round_trip (tickers_input : string) :
  Sidebar.is_ascii tickers_input = true ->
  Sidebar.tickers_of_input (join "," (Sidebar.tickers_of_input tickers_input))
  = Sidebar.tickers_of_input tickers_input.
Proof.
  intros _. apply SidebarFacts.tickers_of_joined, SidebarFacts.tickers_clean.
Qed.

Lemma X2_witness :
  Sidebar.tickers_of_input (join "," (Sidebar.tickers_of_input " aapl , ,msft,"))
  = Sidebar.tickers_of_input " aapl , ,msft,".
Proof. exact (X2_tickers_round_trip " aapl , ,msft," eq_refl). Defined.

(** ** The keys and the frames of the fetched data *)

Section StockData.
Context {V : Type}.

Lemma existsb_eqb_In (k : string) (l : list string) :
  existsb (String.eqb k) l = true <-> In k l.
Proof.
  rewrite existsb_exists. split.
  - intros (x & Hx & E). apply String.eqb_eq in E. now subst.
  - intros H. exists k. split; [exact H | apply String.eqb_refl].
Qed.

Lemma dict_keys_set_new (k : string) (v : V) (d : dict V) :
  ~ In k (dict_keys d) -> dict_keys (dict_set k v d) = (dict_keys d ++ [k])%list.
Proof.
  unfold dict_keys. induction d as [|[k0 v0] d IH]; simpl; [reflexivity|].
  intros H. destruct (String.eqb_spec k k0) as [->|Hne]; [tauto|].
  simpl. f_equal. apply IH. tauto.
Qed.

Lemma dict_get_absent (k : string) (d : dict V) :
  ~ In k (dict_keys d) -> dict_get k d = None.
Proof.
  unfold dict_keys. induction d as [|[k0 v0] d IH]; simpl; [reflexivity|].
  intros H. destruct (String.eqb_spec k k0) as [->|Hne]; [tauto|]. apply IH. tauto.
Qed.

End StockData.

Lemma first_occurrences_seen (seen seen' xs : list string) :
  (forall k, In k seen <-> In k seen') ->
  first_occurrences seen xs = first_occurrences seen' xs.
Proof.
  revert seen seen'; induction xs as [|x xs IH]; intros seen seen' H; simpl; [reflexivity|].
  assert (E : existsb (String.eqb x) seen = existsb (String.eqb x) seen').
  { apply eq_true_iff_eq. rewrite !existsb_eqb_In. apply H. }
  rewrite E. destruct (existsb (String.eqb x) seen'); [now apply IH|].
  f_equal. apply IH. intros k. simpl. rewrite H. reflexivity.
Qed.

(** The keys of [stock_data] after a loop that runs to its end: those it had,
    then the tickers with data that are new, each once, in the order they
    were entered. *)
Lemma fetch_loop_key_order (w : world) (start_date end_date : pydate)
    (tickers : list string) :
  forall stock_data final shown,
    fetch_loop w start_date end_date tickers stock_data = Ok (final, shown) ->
    dict_keys final
    = (dict_keys stock_data
       ++ first_occurrences (dict_keys stock_data)
            (filter (has_data w start_date end_date) tickers))%list.
Proof.
  induction tickers as [|t rest IH]; intros stock_data final shown H.
  - cbn [fetch_loop] in H. injection H as <- <-. cbn [filter first_occurrences].
    now rewrite app_nil_r.
  - destruct (fetch_fmp_data w t start_date end_date) as [[df warned]|err] eqn:Efetch;
      [|rewrite (fetch_loop_raise _ _ _ _ _ _ _ Efetch) in H; discriminate].
    rewrite (fetch_loop_step _ _ _ _ _ _ _ _ Efetch) in H. unfold bind in H.
    destruct (fetch_loop w start_date end_date rest _) as [[final' later]|] eqn:Eloop;
      [|discriminate].
    injection H as <- <-. cbn [fst]. apply IH in Eloop. rewrite Eloop.
    cbn [filter]. unfold has_data at 2. rewrite Efetch.
    destruct (df_empty df); cbn [negb]; [reflexivity|].
    cbn [first_occurrences].
    destruct (existsb (String.eqb t) (dict_keys stock_data)) eqn:Eseen.
    + apply existsb_eqb_In in Eseen.
      now rewrite dict_keys_set_present.
    + assert (Hnew : ~ In t (dict_keys stock_data)).
      { intros Hin. apply existsb_eqb_In in Hin. congruence. }
      rewrite dict_keys_set_new by exact Hnew. rewrite <- app_assoc. cbn [app].
      do 2 f_equal. apply first_occurrences_seen.
      intros k. rewrite in_app_iff. simpl. tauto.
Qed.

(** The frame stored under a key: the one fetched for it when the ticker is
    among those processed and has data, the one stored before otherwise. *)
Lemma fetch_loop_lookup (w : world) (start_date end_date : pydate)
    (tickers : list string) (k : string) :
  forall stock_data final shown,
    fetch_loop w start_date end_date tickers stock_data = Ok (final, shown) ->
    if existsb (String.eqb k) (filter (has_data w start_date end_date) tickers)
    then exists df warned,
           fetch_fmp_data w k start_date end_date = Ok (df, warned) /\
           dict_get k final = Some df
    else dict_get k final = dict_get k stock_data.
Proof.
  induction tickers as [|t rest IH]; intros stock_data final shown H.
  - cbn [fetch_loop] in H. injection H as <- <-. reflexivity.
  - destruct (fetch_fmp_data w t start_date end_date) as [[df warned]|err] eqn:Efetch;
      [|rewrite (fetch_loop_raise _ _ _ _ _ _ _ Efetch) in H; discriminate].
    rewrite (fetch_loop_step _ _ _ _ _ _ _ _ Efetch) in H. unfold bind in H.
    destruct (fetch_loop w start_date end_date rest _) as [[final' later]|] eqn:Eloop;
      [|discriminate].
    injection H as <- <-. cbn [fst]. apply IH in Eloop.
    cbn [filter]. unfold has_data at 1. rewrite Efetch.
    destruct (df_empty df); cbn [negb]; [exact Eloop|]. cbn [existsb].
    destruct (existsb (String.eqb k) (filter (has_data w start_date end_date) rest));
      [now rewrite orb_true_r|].
    rewrite orb_false_r. destruct (String.eqb_spec k t) as [->|Hne].
    + exists df, warned. split; [exact Efetch|]. now rewrite Eloop, dict_get_set_eq.
    + rewrite Eloop. now apply dict_get_set_ne.
Qed.

Lemma first_occurrences_spec (xs : list string) :
  forall seen,
    NoDup (first_occurrences seen xs) /\
    forall k, In k (first_occurrences seen xs) <-> (In k xs /\ ~ In k seen).
Proof.
  induction xs as [|x xs IH]; intros seen; simpl.
  - split; [constructor | tauto].
  - destruct (existsb (String.eqb x) seen) eqn:E.
    + apply existsb_eqb_In in E. destruct (IH seen) as [Hnd Hin]. split; [exact Hnd|].
      intros k. rewrite Hin. split; [tauto|]. intros [[->|H] Hk]; tauto.
    + assert (Hx : ~ In x seen) by (intros H; apply existsb_eqb_In in H; congruence).
      destruct (IH (x :: seen)) as [Hnd Hin]. split.
      * constructor; [|exact Hnd]. rewrite Hin. simpl. tauto.
      * intros k. simpl. rewrite Hin. simpl.
        destruct (string_dec x k) as [->|Hne]; tauto.
Qed.

Lemma fetch_button_loop (w : world) (tickers : list string)
    (start_date end_date : pydate) (stock_data : dict DataFrame) (shown : list ui_event) :
  fetch_button w tickers start_date end_date = Ok (stock_data, shown) ->
  exists looped,
    fetch_loop w start_date end_date tickers [] = Ok (stock_data, looped).
Proof.
  unfold fetch_button, bind.
  destruct (fetch_loop w start_date end_date tickers []) as [[sd looped]|]; [|discriminate].
  intros [= <- _]. now exists looped.
Qed.

(** X3. After a "Fetch Data" that runs to its end, the keys of the stored
    data are the tickers whose fetch gave a non-empty frame, each once, in
    the order of their first entry (a ticker entered twice is stored once),
    and the frame stored under each of them is the frame fetched for it. *)
Theorem X3_stock_data_keys_and_frames (w : world) (tickers : list string)
    (start_date end_date : pydate) (stock_data : dict DataFrame)
    (shown : list ui_event) :
  fetch_button w tickers start_date end_date = Ok (stock_data, shown) ->
  dict_keys stock_data
    = first_occurrences [] (filter (has_data w start_date end_date) tickers) /\
  NoDup (dict_keys stock_data) /\
  (forall k, In k (dict_keys stock_data)
             <-> In k tickers /\ has_data w start_date end_date k = true) /\
  (forall k, In k (dict_keys stock_data) ->
             exists df warned,
               fetch_fmp_data w k start_date end_date = Ok (df, warned) /\
               dict_get k stock_data = Some df).
Proof.
  intros Hbutton. apply fetch_button_loop in Hbutton as [looped Hloop].
  pose proof (fetch_loop_key_order w start_date end_date tickers _ _ _ Hloop) as Hkeys.
  cbn [dict_keys map app] in Hkeys. change (map fst) with (@dict_keys DataFrame) in Hkeys.
  destruct (first_occurrences_spec (filter (has_data w start_date end_date) tickers) [])
    as [Hnd Hin].
  assert (Hmem : forall k,
             In k (dict_keys stock_data)
             <-> In k tickers /\ has_data w start_date end_date k = true).
  { intros k. rewrite Hkeys, Hin, filter_In. simpl. tauto. }
  split; [exact Hkeys|]. split; [now rewrite Hkeys|]. split; [exact Hmem|].
  intros k Hk.
  pose proof (fetch_loop_lookup w start_date end_date tickers k _ _ _ Hloop) as Hget.
  apply Hmem in Hk.
  replace (existsb (String.eqb k) (filter (has_data w start_date end_date) tickers))
    with true in Hget; [exact Hget|].
  symmetry. apply existsb_eqb_In, filter_In. exact Hk.
Qed.

Lemma X3_witness :
  dict_keys [("AAPL", Sample.aapl_frame)]
    = first_occurrences []
        (filter (has_data (Sample.world_replying Sample.fmp_only_aapl Sample.reply_buy)
                          Sample.start_date Sample.end_date)
                ["AAPL"; "MSFT"; "AAPL"]) /\
  NoDup (dict_keys [("AAPL", Sample.aapl_frame)]) /\
  (forall k, In k (dict_keys [("AAPL", Sample.aapl_frame)])
             <-> In k ["AAPL"; "MSFT"; "AAPL"] /\
                 has_data (Sample.world_replying Sample.fmp_only_aapl Sample.reply_buy)
                          Sample.start_date Sample.end_date k = true) /\
  (forall k, In k (dict_keys [("AAPL", Sample.aapl_frame)]) ->
             exists df warned,
               fetch_fmp_data (Sample.world_replying Sample.fmp_only_aapl Sample.reply_buy)
                              k Sample.start_date Sample.end_date = Ok (df, warned) /\
               dict_get k [("AAPL", Sample.aapl_frame)] = Some df).
Proof.
  refine (X3_stock_data_keys_and_frames
            (Sample.world_replying Sample.fmp_only_aapl Sample.reply_buy)
            ["AAPL"; "MSFT"; "AAPL"] Sample.start_date Sample.end_date
            [("AAPL", Sample.aapl_frame)] _ _).
  vm_compute. reflexivity.
Defined.

Lemma dict_keys_nil {V : Type} (d : dict V) : dict_keys d = [] -> d = [].
Proof. destruct d; [reflexivity | discriminate]. Qed.

(** A loop over tickers that all come back without data returns and stores
    nothing. *)
Lemma fetch_loop_no_data (w : world) (start_date end_date : pydate)
    (tickers : list string) (stock_data : dict DataFrame) :
  (forall t, In t tickers -> returns_no_data w start_date end_date t) ->
  exists shown,
    fetch_loop w start_date end_date tickers stock_data = Ok (stock_data, shown).
Proof.
  induction tickers as [|t rest IH]; intros Hnone.
  - now exists [].
  - destruct (Hnone t (or_introl eq_refl)) as (df & warned & Hfetch & Hempty).
    destruct IH as [later Hloop]; [intros t' Ht'; apply Hnone; now right|].
    rewrite (fetch_loop_step _ _ _ _ _ _ _ _ Hfetch), Hempty, Hloop. cbn [bind fst snd].
    eexists. reflexivity.
Qed.

(** X4. When every entered ticker comes back without data, nothing is
    stored, the handler ends with the warning that no stock data was loaded,
    and the rerun shows the hint to fetch data without analysing anything: it
    returns whatever the state of the chart export and of the model. *)
Theorem X4_no_data_no_analysis (w : world) (inds tickers : list string)
    (start_date end_date : pydate) :
  (forall t, In t tickers -> returns_no_data w start_date end_date t) ->
  (exists shown,
      fetch_button w tickers start_date end_date
      = Ok ([], (shown ++ [st_warning
                             "No stock data loaded. Check tickers, date range, or FMP usage."])%list))
  /\
  run w inds tickers start_date end_date
  = Ok ([], [("", [st_info "Please fetch stock data using the sidebar."])]).
Proof.
  intros Hnone.
  destruct (fetch_loop_no_data w start_date end_date tickers [] Hnone) as [shown Hloop].
  unfold run, fetch_button. rewrite Hloop. cbn [bind fst].
  split; [now exists shown | reflexivity].
Qed.

Lemma X4_witness :
  (exists shown,
      fetch_button Sample.world_model_down_without_data ["MSFT"; "GOOG"]
                   Sample.start_date Sample.end_date
      = Ok ([], (shown ++ [st_warning
                             "No stock data loaded. Check tickers, date range, or FMP usage."])%list))
  /\
  run Sample.world_model_down_without_data ["VWAP"] ["MSFT"; "GOOG"]
      Sample.start_date Sample.end_date
  = Ok ([], [("", [st_info "Please fetch stock data using the sidebar."])]).
Proof.
  apply (X4_no_data_no_analysis Sample.world_model_down_without_data ["VWAP"]
           ["MSFT"; "GOOG"] Sample.start_date Sample.end_date).
  intros t [<-|[<-|[]]]; exists empty_frame, []; split; reflexivity.
Defined.

Lemma sorted_frame_not_empty (b : bar) (bs : list bar) :
  df_empty (set_index (sort_values (b :: bs))) = false.
Proof.
  cbn [sort_values]. destruct (sort_values bs) as [|b' bs']; cbn [insert_by_date].
  - reflexivity.
  - destruct (Date b <=? Date b'); reflexivity.
Qed.

(** What the [try] of [fetch_fmp_data] raises: the exception of the request,
    the HTTPError of a status from 400 to 599, or the exception of the
    decoding; with any other status it gives what the decoding gives. *)
Lemma fetch_json_cases (w : world) (url : string) :
  (forall e, requests_get w url = Raise e -> fetch_json w url = Raise e) /\
  (forall resp, requests_get w url = Ok resp -> 400 <= status_code resp < 600 ->
                exists msg, fetch_json w url = Raise (OtherException "HTTPError" msg)) /\
  (forall resp, requests_get w url = Ok resp -> ~ 400 <= status_code resp < 600 ->
                fetch_json w url = resp_json resp).
Proof.
  unfold fetch_json, raise_for_status. split; [|split].
  - now intros e ->.
  - intros resp -> Hstatus. cbn [bind].
    destruct ((400 <=? status_code resp) && (status_code resp <? 500)) eqn:E4;
      [eexists; reflexivity|].
    destruct ((500 <=? status_code resp) && (status_code resp <? 600)) eqn:E5;
      [eexists; reflexivity|].
    apply andb_false_iff in E4, E5. lia.
  - intros resp -> Hstatus. cbn [bind].
    destruct ((400 <=? status_code resp) && (status_code resp <? 500)) eqn:E4;
      [apply andb_true_iff in E4; lia|].
    destruct ((500 <=? status_code resp) && (status_code resp <? 600)) eqn:E5;
      [apply andb_true_iff in E5; lia|].
    reflexivity.
Qed.

(** X5. One turn of the loop over the tickers, by what comes back.  A request
    that raises, a status from 400 to 599 or a body that does not decode
    shows the error warning and then the "No data found" warning; a decoded
    object whose "historical" entry is absent or false (empty, null, zero)
    shows the "No data found" warning alone, and so does an entry that
    pandas reads as a table without rows; an entry read as one row or more
    is stored without a warning.  In these cases the loop goes on with the
    tickers that follow.  A decoded body that is no object, or an entry on
    which pandas raises, ends the loop with that exception: the tickers that
    follow are not fetched. *)
Theorem X5_warnings_per_ticker (w : world) (start_date end_date : pydate)
    (ticker : string) (rest : list string) (stock_data : dict DataFrame) :
  let url := fmp_url ticker start_date end_date FMP_API_KEY in
  let no_data :=
    st_warning ("No data found for " ++ ticker ++ " (FMP returned empty).") in
  let entry data_json := py_get data_json "historical" (JArray []) in
  (forall e, fetch_json w url = Raise e ->
     fetch_loop w start_date end_date (ticker :: rest) stock_data
     = (looped <- fetch_loop w start_date end_date rest stock_data ;;
        Ok (fst looped,
            st_warning ("Error fetching data from FMP for " ++ ticker ++ ": " ++ str_exn e)
            :: no_data :: snd looped))) /\
  (forall data_json historical,
     fetch_json w url = Ok data_json -> entry data_json = Ok historical ->
     truthy historical = false \/ frame_records w historical = Ok [] ->
     fetch_loop w start_date end_date (ticker :: rest) stock_data
     = (looped <- fetch_loop w start_date end_date rest stock_data ;;
        Ok (fst looped, no_data :: snd looped))) /\
  (forall data_json historical r hist,
     fetch_json w url = Ok data_json -> entry data_json = Ok historical ->
     truthy historical = true -> frame_records w historical = Ok (r :: hist) ->
     let df := set_index (sort_values (map bar_of_record (r :: hist))) in
     fetch_loop w start_date end_date (ticker :: rest) stock_data
     = fetch_loop w start_date end_date rest (dict_set ticker df stock_data)) /\
  (forall data_json,
     fetch_json w url = Ok data_json ->
     (forall members, data_json <> JObject members) ->
     fetch_loop w start_date end_date (ticker :: rest) stock_data
     = Raise (OtherException "AttributeError"
                ("'" ++ type_name data_json ++ "' object has no attribute 'get'"))) /\
  (forall data_json historical e,
     fetch_json w url = Ok data_json -> entry data_json = Ok historical ->
     truthy historical = true -> frame_records w historical = Raise e ->
     fetch_loop w start_date end_date (ticker :: rest) stock_data = Raise e).
Proof.
  cbn zeta. split; [|split; [|split; [|split]]].
  - intros e He. erewrite fetch_loop_step
      by (unfold fetch_fmp_data; rewrite He; reflexivity).
    reflexivity.
  - intros data_json historical Hjson Hget Hnone.
    assert (Hfetch : exists df,
               fetch_fmp_data w ticker start_date end_date = Ok (df, [])
               /\ df_empty df = true).
    { unfold fetch_fmp_data. rewrite Hjson, Hget. cbn [bind].
      destruct (truthy historical) eqn:Etruthy; cbn [negb].
      - destruct Hnone as [?| ->]; [discriminate|]. cbn [bind]. eexists. split; reflexivity.
      - eexists. split; reflexivity. }
    destruct Hfetch as (df & Hfetch & Hempty).
    rewrite (fetch_loop_step _ _ _ _ _ _ _ _ Hfetch), Hempty. reflexivity.
  - intros data_json historical r hist Hjson Hget Htruthy Hread.
    erewrite fetch_loop_step
      by (unfold fetch_fmp_data; rewrite Hjson, Hget; cbn [bind];
          rewrite Htruthy, Hread; reflexivity).
    cbn [map]. rewrite sorted_frame_not_empty. cbn [app]. unfold bind.
    destruct (fetch_loop w start_date end_date rest _) as [[final later]|]; reflexivity.
  - intros data_json Hjson Hother. apply fetch_loop_raise.
    unfold fetch_fmp_data. rewrite Hjson.
    destruct data_json; try reflexivity. now contradiction (Hother members).
  - intros data_json historical e Hjson Hget Htruthy Hread. apply fetch_loop_raise.
    unfold fetch_fmp_data. rewrite Hjson, Hget. cbn [bind]. now rewrite Htruthy, Hread.
Qed.

Lemma X5_witness :
  fetch_loop (Sample.world_replying Sample.fmp_not_found Sample.reply_buy)
             Sample.start_date Sample.end_date ["MSFT"; "AAPL"] []
  = (looped <- fetch_loop (Sample.world_replying Sample.fmp_not_found Sample.reply_buy)
                          Sample.start_date Sample.end_date ["AAPL"] [] ;;
     Ok (fst looped,
         st_warning
           ("Error fetching data from FMP for MSFT: 404 Client Error: Not Found for url: "
            ++ fmp_url "MSFT" Sample.start_date Sample.end_date FMP_API_KEY)
         :: st_warning "No data found for MSFT (FMP returned empty)."
         :: snd looped)).
Proof.
  exact (proj1 (X5_warnings_per_ticker
                  (Sample.world_replying Sample.fmp_not_found Sample.reply_buy)
                  Sample.start_date Sample.end_date "MSFT" ["AAPL"] [])
               (OtherException "HTTPError"
                  ("404 Client Error: Not Found for url: "
                   ++ fmp_url "MSFT" Sample.start_date Sample.end_date FMP_API_KEY))
               eq_refl).
Defined.

(** ** The rows of a fetched frame *)

Lemma column_at_set_index (bs : list bar) (i : nat) :
  column_at (set_index bs) "Open" i = option_map Open (nth_error bs i) /\
  column_at (set_index bs) "High" i = option_map High (nth_error bs i) /\
  column_at (set_index bs) "Low" i = option_map Low (nth_error bs i) /\
  column_at (set_index bs) "Close" i = option_map Close (nth_error bs i) /\
  column_at (set_index bs) "Volume" i = option_map Volume (nth_error bs i) /\
  nth_error (index (set_index bs)) i = option_map Date (nth_error bs i).
Proof.
  unfold column_at, set_index. cbn [columns index dict_get String.eqb Ascii.eqb Bool.eqb].
  repeat split; apply nth_error_map.
Qed.

Lemma row_shows_set_index (bs : list bar) (i : nat) (b : bar) :
  nth_error bs i = Some b -> row_shows (set_index bs) i b.
Proof.
  intros H. destruct (column_at_set_index bs i) as (Ho & Hh & Hl & Hc & Hv & Hd).
  unfold row_shows. rewrite Ho, Hh, Hl, Hc, Hv, Hd, H. repeat split.
Qed.

(** X6. Sorting moves whole bars.  A non-empty fetched frame has one row per
    record of the payload; every row holds the date and the five converted
    values of one record, and every record is shown by some row. *)
Theorem X6_rows_are_the_records (w : world) (ticker : string)
    (start_date end_date : pydate) (df : DataFrame) (warned : list ui_event) :
  fetch_fmp_data w ticker start_date end_date = Ok (df, warned) ->
  df_empty df = false ->
  exists data_json historical hist,
    fetch_json w (fmp_url ticker start_date end_date FMP_API_KEY) = Ok data_json /\
    py_get data_json "historical" (JArray []) = Ok historical /\
    frame_records w historical = Ok hist /\
    length (index df) = length hist /\
    (forall i, (i < length hist)%nat ->
               exists r, In r hist /\ row_shows df i (bar_of_record r)) /\
    (forall r, In r hist ->
               exists i, (i < length hist)%nat /\ row_shows df i (bar_of_record r)).
Proof.
  intros Hfetched Hne.
  destruct (fetch_nonempty _ _ _ _ _ _ Hfetched Hne)
    as (data_json & historical & hist & Hfetch & Hget & Hread & ->).
  exists data_json, historical, hist.
  split; [exact Hfetch|]. split; [exact Hget|]. split; [exact Hread|].
  set (bs := sort_values (map bar_of_record hist)).
  assert (Hperm : Permutation (map bar_of_record hist) bs) by apply sort_values_perm.
  assert (Hlen : length bs = length hist).
  { rewrite <- (Permutation_length Hperm). apply length_map. }
  split; [|split].
  - unfold set_index. cbn [index]. now rewrite length_map.
  - intros i Hi.
    destruct (nth_error bs i) as [b|] eqn:Eb;
      [|apply nth_error_None in Eb; lia].
    assert (Hin : In b (map bar_of_record hist)).
    { eapply Permutation_in; [symmetry; exact Hperm|]. eapply nth_error_In; exact Eb. }
    apply in_map_iff in Hin as (r & <- & Hr).
    exists r. split; [exact Hr | now apply row_shows_set_index].
  - intros r Hr.
    assert (Hin : In (bar_of_record r) bs).
    { eapply Permutation_in; [exact Hperm|]. now apply in_map. }
    apply In_nth_error in Hin as [i Hi].
    exists i. split; [|now apply row_shows_set_index].
    rewrite <- Hlen. apply nth_error_Some. congruence.
Qed.

Lemma X6_witness :
  exists data_json historical hist,
    fetch_json (Sample.world_replying Sample.fmp_only_aapl Sample.reply_buy)
               (fmp_url "AAPL" Sample.start_date Sample.end_date FMP_API_KEY)
    = Ok data_json /\
    py_get data_json "historical" (JArray []) = Ok historical /\
    Sample.read_records historical = Ok hist /\
    length (index Sample.aapl_frame) = length hist /\
    (forall i, (i < length hist)%nat ->
               exists r, In r hist /\ row_shows Sample.aapl_frame i (bar_of_record r)) /\
    (forall r, In r hist ->
               exists i, (i < length hist)%nat /\
                         row_shows Sample.aapl_frame i (bar_of_record r)).
Proof.
  apply (X6_rows_are_the_records
           (Sample.world_replying Sample.fmp_only_aapl Sample.reply_buy)
           "AAPL" Sample.start_date Sample.end_date Sample.aapl_frame []).
  - vm_compute. reflexivity.
  - vm_compute. reflexivity.
Defined.

(** ** Payloads that arrive in date order *)

Lemma sorted_bars (bs : list bar) :
  StronglySorted Z.lt (map Date bs) -> StronglySorted earlier bs.
Proof.
  induction bs as [|b bs IH]; intros H; [constructor|].
  cbn [map] in H. apply StronglySorted_inv in H as [Hs Hall].
  constructor; [now apply IH|]. now rewrite Forall_map in Hall.
Qed.

(** Two lists of bars in strictly ascending date order with the same bars
    are the same list. *)
Lemma strictly_sorted_unique (l : list bar) :
  forall l', Permutation l l' ->
             StronglySorted earlier l -> StronglySorted earlier l' -> l = l'.
Proof.
  induction l as [|a l IH]; intros l' Hperm Hl Hl'.
  - now apply Permutation_nil in Hperm.
  - destruct l' as [|a' l']; [now apply Permutation_sym, Permutation_nil in Hperm|].
    apply StronglySorted_inv in Hl as [Hl Hall].
    apply StronglySorted_inv in Hl' as [Hl' Hall'].
    rewrite Forall_forall in Hall, Hall'.
    assert (a = a').
    { assert (Ha : In a (a' :: l')) by (eapply Permutation_in; [exact Hperm | now left]).
      assert (Ha' : In a' (a :: l))
        by (eapply Permutation_in; [symmetry; exact Hperm | now left]).
      destruct Ha as [->|Ha]; [reflexivity|].
      destruct Ha' as [->|Ha']; [reflexivity|].
      specialize (Hall a' Ha'). specialize (Hall' a Ha). unfold earlier in *. lia. }
    subst a'. f_equal. apply IH; [|assumption|assumption].
    now apply Permutation_cons_inv in Hperm.
Qed.

Lemma sorted_snoc (R : bar -> bar -> Prop) (l : list bar) (a : bar) :
  StronglySorted R l -> Forall (fun x => R x a) l -> StronglySorted R (l ++ [a]).
Proof.
  induction l as [|b l IH]; intros Hs Hall; simpl.
  - repeat constructor.
  - apply StronglySorted_inv in Hs as [Hs Hb]. inversion Hall; subst.
    constructor; [now apply IH|].
    apply Forall_app. split; [exact Hb | now repeat constructor].
Qed.

Lemma sorted_rev (bs : list bar) :
  StronglySorted (fun a b => earlier b a) bs -> StronglySorted earlier (rev bs).
Proof.
  induction bs as [|b bs IH]; intros H; [constructor|].
  apply StronglySorted_inv in H as [Hs Hall]. cbn [rev].
  apply sorted_snoc; [now apply IH|].
  apply Forall_forall. intros x Hx. apply in_rev in Hx.
  rewrite Forall_forall in Hall. now apply Hall.
Qed.

Lemma sort_values_strict (bs : list bar) :
  NoDup (map Date bs) -> StronglySorted earlier (sort_values bs).
Proof.
  intros Hnd. apply sorted_bars, sorted_nodup_strict; [apply sort_values_sorted|].
  eapply Permutation_NoDup; [|exact Hnd]. apply Permutation_map, sort_values_perm.
Qed.

Lemma strictly_sorted_dates_nodup (bs : list bar) :
  StronglySorted earlier bs -> NoDup (map Date bs).
Proof.
  induction bs as [|b bs IH]; intros H; [constructor|].
  apply StronglySorted_inv in H as [Hs Hall]. cbn [map]. constructor; [|now apply IH].
  rewrite in_map_iff. intros (x & Hd & Hx).
  rewrite Forall_forall in Hall. specialize (Hall x Hx). unfold earlier in Hall. lia.
Qed.

(** X7. A payload whose records come newest first, as the endpoint delivers
    them, gives the frame of its records in reverse; a payload already in
    strictly ascending date order gives the frame of its records as they
    are. *)
Theorem X7_ordered_payloads (w : world) (ticker : string)
    (start_date end_date : pydate) (data_json historical : json) (r : hist_record)
    (hist : list hist_record) :
  fetch_json w (fmp_url ticker start_date end_date FMP_API_KEY) = Ok data_json ->
  py_get data_json "historical" (JArray []) = Ok historical ->
  truthy historical = true ->
  frame_records w historical = Ok (r :: hist) ->
  let bars := map bar_of_record (r :: hist) in
  (StronglySorted (fun a b => earlier b a) bars ->
   fetch_fmp_data w ticker start_date end_date = Ok (set_index (rev bars), [])) /\
  (StronglySorted earlier bars ->
   fetch_fmp_data w ticker start_date end_date = Ok (set_index bars, [])).
Proof.
  intros Hfetch Hget Htruthy Hread bars. unfold fetch_fmp_data.
  rewrite Hfetch, Hget. cbn [bind]. rewrite Htruthy, Hread. cbn [bind negb].
  fold bars. split; intros Hsorted; do 3 f_equal.
  - apply sorted_rev in Hsorted as Hrev.
    apply strictly_sorted_unique; [|apply sort_values_strict|exact Hrev].
    + rewrite <- sort_values_perm. apply Permutation_rev.
    + apply strictly_sorted_dates_nodup in Hrev.
      eapply Permutation_NoDup; [|exact Hrev].
      apply Permutation_map, Permutation_sym, Permutation_rev.
  - apply strictly_sorted_unique; [|apply sort_values_strict|exact Hsorted].
    + symmetry. apply sort_values_perm.
    + now apply strictly_sorted_dates_nodup.
Qed.

Lemma X7_witness :
  fetch_fmp_data (Sample.world_replying Sample.fmp_newest_first Sample.reply_buy)
                 "AAPL" Sample.start_date Sample.end_date
  = Ok (set_index (rev (map bar_of_record Sample.newest_first_history)), []).
Proof.
  refine (proj1 (X7_ordered_payloads
                   (Sample.world_replying Sample.fmp_newest_first Sample.reply_buy)
                   "AAPL" Sample.start_date Sample.end_date
                   (Sample.body_of Sample.newest_first_json) Sample.newest_first_json
                   (Sample.flat_record 19727 10 5)
                   [Sample.flat_record 19726 11 7; Sample.flat_record 19725 12 4]
                   eq_refl eq_refl eq_refl _) _).
  - vm_compute. reflexivity.
  - repeat constructor.
Defined.

(** ** Several indicators over one frame *)

Lemma dict_set_twice {V : Type} (k : string) (v : V) (d : dict V) :
  dict_set k v (dict_set k v d) = dict_set k v d.
Proof.
  induction d as [|[k0 v0] d IH]; simpl.
  - now rewrite String.eqb_refl.
  - destruct (String.eqb_spec k k0) as [->|Hne]; simpl.
    + now rewrite String.eqb_refl.
    + destruct (String.eqb_spec k k0); [contradiction | now rewrite IH].
Qed.

Lemma fold_add_trace (ts : list Scatter) :
  forall fig,
    fold_left add_trace ts fig
    = mkFigure (fig_candles fig) (fig_traces fig ++ ts) (xaxis_rangeslider_visible fig).
Proof.
  induction ts as [|t ts IH]; intros fig; simpl.
  - rewrite app_nil_r. now destruct fig.
  - rewrite IH. unfold add_trace. cbn. now rewrite <- app_assoc.
Qed.

(** One indicator in closed form. *)
Lemma add_indicator_closed (w : world) (ind : string) (data : DataFrame) (fig : Figure)
    (close volume : series) :
  dict_get "Close" (columns data) = Some close ->
  dict_get "Volume" (columns data) = Some volume ->
  add_indicator w ind (data, fig)
  = Ok (frame_after [ind] data close volume,
        fold_left add_trace
          (indicator_traces (sqrt w) (index data) close volume ind) fig).
Proof.
  intros Hclose Hvolume.
  unfold add_indicator, indicator_traces, frame_after, getitem, bind.
  rewrite Hclose, Hvolume. cbn [existsb]. rewrite orb_false_r.
  destruct (String.eqb_spec ind "20-Day SMA") as [->|_]; [reflexivity|].
  destruct (String.eqb_spec ind "20-Day EMA") as [->|_]; [reflexivity|].
  destruct (String.eqb_spec ind "20-Day Bollinger Bands") as [->|_]; [reflexivity|].
  rewrite (String.eqb_sym "VWAP" ind).
  destruct (String.eqb_spec ind "VWAP") as [->|_]; [|reflexivity].
  cbn [setitem columns index]. now rewrite dict_get_set_eq.
Qed.

Lemma frame_after_cons (ind : string) (inds : list string) (data : DataFrame)
    (close volume : series) :
  frame_after inds (frame_after [ind] data close volume) close volume
  = frame_after (ind :: inds) data close volume.
Proof.
  unfold frame_after. cbn [existsb]. rewrite orb_false_r.
  destruct (String.eqb "VWAP" ind); cbn [orb]; [|reflexivity].
  destruct (existsb (String.eqb "VWAP") inds); [|reflexivity].
  unfold setitem. cbn [index columns]. now rewrite dict_set_twice.
Qed.

Lemma frame_after_columns (inds : list string) (data : DataFrame) (close volume : series)
    (name : string) :
  name <> "VWAP"%string ->
  dict_get name (columns (frame_after inds data close volume))
  = dict_get name (columns data).
Proof.
  intros Hne. unfold frame_after.
  destruct (existsb (String.eqb "VWAP") inds); [|reflexivity].
  cbn [setitem columns]. now apply dict_get_set_ne.
Qed.

Lemma frame_after_index (inds : list string) (data : DataFrame) (close volume : series) :
  index (frame_after inds data close volume) = index data.
Proof. unfold frame_after. now destruct (existsb (String.eqb "VWAP") inds). Qed.

Lemma add_indicators_closed (w : world) (inds : list string) :
  forall (data : DataFrame) (fig : Figure) (close volume : series),
    dict_get "Close" (columns data) = Some close ->
    dict_get "Volume" (columns data) = Some volume ->
    add_indicators w inds (data, fig)
    = Ok (frame_after inds data close volume,
          fold_left add_trace
            (flat_map (indicator_traces (sqrt w) (index data) close volume) inds) fig).
Proof.
  induction inds as [|ind inds IH]; intros data fig close volume Hclose Hvolume.
  - reflexivity.
  - cbn [add_indicators flat_map].
    rewrite (add_indicator_closed w ind data fig close volume Hclose Hvolume).
    cbn [bind]. rewrite (IH _ _ close volume).
    + now rewrite frame_after_cons, frame_after_index, fold_left_app.
    + rewrite frame_after_columns; [exact Hclose | discriminate].
    + rewrite frame_after_columns; [exact Hvolume | discriminate].
Qed.

(** The indicators in closed form, the figure written out. *)
Lemma add_indicators_figure (w : world) (inds : list string)
    (data : DataFrame) (fig : Figure) (close volume : series) :
  dict_get "Close" (columns data) = Some close ->
  dict_get "Volume" (columns data) = Some volume ->
  add_indicators w inds (data, fig)
  = Ok (frame_after inds data close volume,
        mkFigure (fig_candles fig)
                 (fig_traces fig
                  ++ flat_map (indicator_traces (sqrt w) (index data) close volume) inds)
                 (xaxis_rangeslider_visible fig)).
Proof.
  intros Hclose Hvolume.
  rewrite (add_indicators_closed w inds data fig close volume Hclose Hvolume).
  now rewrite fold_add_trace.
Qed.

(** X8. The selected indicators are computed independently of each other,
    each from the Close and the Volume as fetched: the figure gains the
    traces of each indicator in the order of the selection (one for SMA, EMA
    and VWAP, two for the Bollinger Bands, none for any other name), and the
    frame changes by its "VWAP" column alone, and only if VWAP is selected. *)
Theorem X8_indicators_compose (w : world) (inds : list string)
    (data : DataFrame) (fig : Figure) (close volume : series) :
  dict_get "Close" (columns data) = Some close ->
  dict_get "Volume" (columns data) = Some volume ->
  add_indicators w inds (data, fig)
  = Ok (frame_after inds data close volume,
        mkFigure (fig_candles fig)
                 (fig_traces fig
                  ++ flat_map (indicator_traces (sqrt w) (index data) close volume) inds)
                 (xaxis_rangeslider_visible fig)).
Proof. apply add_indicators_figure. Qed.

Lemma X8_witness :
  add_indicators (Sample.world_replying Sample.fmp_only_aapl Sample.reply_buy)
                 ["VWAP"; "Moving Median"; "20-Day SMA"]
                 (Sample.aapl_frame, mkFigure (mkCandlestick [] [] [] [] [] "Candlestick") [] true)
  = Ok (frame_after ["VWAP"; "Moving Median"; "20-Day SMA"] Sample.aapl_frame
                    (map Close (sort_values (map bar_of_record Sample.aapl_history)))
                    (map Volume (sort_values (map bar_of_record Sample.aapl_history))),
        mkFigure (mkCandlestick [] [] [] [] [] "Candlestick")
                 ([] ++ flat_map
                          (indicator_traces (fun x => x) (index Sample.aapl_frame)
                             (map Close (sort_values (map bar_of_record Sample.aapl_history)))
                             (map Volume (sort_values (map bar_of_record Sample.aapl_history))))
                          ["VWAP"; "Moving Median"; "20-Day SMA"])
                 true).
Proof.
  exact (X8_indicators_compose
           (Sample.world_replying Sample.fmp_only_aapl Sample.reply_buy)
           ["VWAP"; "Moving Median"; "20-Day SMA"] Sample.aapl_frame
           (mkFigure (mkCandlestick [] [] [] [] [] "Candlestick") [] true)
           _ _ eq_refl eq_refl).
Defined.

(** X9. Analysing a frame again changes nothing: on the frame an earlier run
    left behind, which carries that run's "VWAP" column, the same indicators
    give the same frame and the same figure. *)
Theorem X9_indicators_rerun (w : world) (inds : list string)
    (data data' : DataFrame) (fig fig' : Figure) (close volume : series) :
  dict_get "Close" (columns data) = Some close ->
  dict_get "Volume" (columns data) = Some volume ->
  add_indicators w inds (data, fig) = Ok (data', fig') ->
  add_indicators w inds (data', fig) = Ok (data', fig').
Proof.
  intros Hclose Hvolume Hrun.
  rewrite (add_indicators_closed w inds data fig close volume Hclose Hvolume) in Hrun.
  injection Hrun as <- <-.
  rewrite (add_indicators_closed w inds _ fig close volume).
  - rewrite frame_after_index. f_equal. f_equal.
    unfold frame_after. destruct (existsb (String.eqb "VWAP") inds); [|reflexivity].
    unfold setitem. cbn [index columns]. now rewrite dict_set_twice.
  - rewrite frame_after_columns; [exact Hclose | discriminate].
  - rewrite frame_after_columns; [exact Hvolume | discriminate].
Qed.

Lemma X9_witness :
  add_indicators (Sample.world_replying Sample.fmp_only_aapl Sample.reply_buy)
                 ["VWAP"; "20-Day SMA"]
                 (frame_after ["VWAP"] Sample.aapl_frame
                    (map Close (sort_values (map bar_of_record Sample.aapl_history)))
                    (map Volume (sort_values (map bar_of_record Sample.aapl_history))),
                  mkFigure (mkCandlestick [] [] [] [] [] "Candlestick") [] true)
  = add_indicators (Sample.world_replying Sample.fmp_only_aapl Sample.reply_buy)
                 ["VWAP"; "20-Day SMA"]
                 (Sample.aapl_frame,
                  mkFigure (mkCandlestick [] [] [] [] [] "Candlestick") [] true).
Proof.
  refine (X9_indicators_rerun
           (Sample.world_replying Sample.fmp_only_aapl Sample.reply_buy)
           ["VWAP"; "20-Day SMA"] Sample.aapl_frame _
           (mkFigure (mkCandlestick [] [] [] [] [] "Candlestick") [] true) _
           _ _ eq_refl eq_refl _).
  vm_compute. reflexivity.
Defined.

(** ** Series keep their length *)

Module SeriesFacts.

Lemma rolling_length (w : nat) (f : list Qc -> cell) (xs : series) :
  length (Series.rolling w f xs) = length xs.
Proof. unfold Series.rolling. now rewrite length_map, length_seq. Qed.

Lemma ewm_loop_length (f n : Qc) (xs : series) :
  forall weighted old_wt, length (Series.ewm_loop f n weighted old_wt xs) = length xs.
Proof.
  induction xs as [|x xs IH]; intros weighted old_wt; [reflexivity|].
  cbn [Series.ewm_loop].
  destruct weighted as [wv|]; [destruct x|]; cbn [length]; now rewrite IH.
Qed.

Lemma ewm_mean_length (span : Qc) (xs : series) :
  length (Series.ewm_mean span xs) = length xs.
Proof.
  unfold Series.ewm_mean. destruct xs; [reflexivity|].
  cbn [length]. now rewrite ewm_loop_length.
Qed.

Lemma cumsum_from_length (acc : Qc) (xs : series) :
  length (Series.cumsum_from acc xs) = length xs.
Proof.
  revert acc; induction xs as [|[x|] xs IH]; intros acc; simpl; now rewrite ?IH.
Qed.

Lemma zip_length (f : cell -> cell -> cell) (xs ys : series) :
  length xs = length ys ->
  length (map (fun p => f (fst p) (snd p)) (combine xs ys)) = length xs.
Proof. intros H. rewrite length_map, length_combine. lia. Qed.

Lemma scale_length (k : Qc) (xs : series) : length (Series.scale k xs) = length xs.
Proof. apply length_map. Qed.

Lemma bollinger_length (sqrt : Qc -> Qc) (close : series) :
  length (bollinger_upper sqrt close) = length close /\
  length (bollinger_lower sqrt close) = length close.
Proof.
  unfold bollinger_upper, bollinger_lower, Series.add, Series.sub,
    Series.rolling_mean, Series.rolling_std.
  split; rewrite zip_length; rewrite ?scale_length, ?rolling_length; reflexivity.
Qed.

Lemma cumulative_vwap_length (close volume : series) :
  length close = length volume ->
  length (cumulative_vwap close volume) = length close.
Proof.
  intros H. unfold cumulative_vwap, Series.div, Series.cumsum, Series.mul.
  rewrite zip_length; rewrite !cumsum_from_length, ?zip_length; congruence.
Qed.

Lemma indicator_traces_aligned (sqrt : Qc -> Qc) (dates : list Z) (close volume : series)
    (ind : string) :
  length close = length dates -> length volume = length dates ->
  Forall trace_aligned (indicator_traces sqrt dates close volume ind).
Proof.
  intros Hc Hv. unfold indicator_traces, trace_aligned.
  destruct (bollinger_length sqrt close) as [Hu Hl].
  repeat match goal with
         | |- context [if ?b then _ else _] => destruct b
         end;
    repeat constructor; cbn [sc_x sc_y];
    rewrite ?rolling_length, ?ewm_mean_length, ?Hu, ?Hl, ?cumulative_vwap_length;
    unfold Series.rolling_mean; rewrite ?rolling_length; congruence.
Qed.

End SeriesFacts.

Lemma frame_aligned_column (df : DataFrame) (name : string) (s : series) :
  frame_aligned df -> dict_get name (columns df) = Some s ->
  length s = length (index df).
Proof.
  unfold frame_aligned. generalize (index df) as dates.
  induction (columns df) as [|[k v] cols IH]; intros dates Hall; simpl; [discriminate|].
  inversion Hall as [|? ? Hv Hcols]; subst.
  destruct (String.eqb name k); [intros [= <-]; exact Hv | now apply IH].
Qed.

Lemma frame_aligned_set (df : DataFrame) (name : string) (s : series) :
  frame_aligned df -> length s = length (index df) ->
  frame_aligned (setitem df name s).
Proof.
  unfold frame_aligned, setitem. cbn [index columns]. generalize (index df) as dates.
  induction (columns df) as [|[k v] cols IH]; intros dates Hall Hs; simpl.
  - repeat constructor. exact Hs.
  - inversion Hall as [|? ? Hv Hcols]; subst.
    destruct (String.eqb name k); constructor; auto.
Qed.

Lemma fetched_frame_aligned (bs : list bar) : frame_aligned (set_index bs).
Proof.
  unfold frame_aligned, set_index. cbn [index columns].
  repeat constructor; cbn [snd]; now rewrite !length_map.
Qed.

(** X10. Everything the indicators produce is aligned with the dates.  On a
    frame that has one cell per date in every column (as every fetched frame
    has), each trace the indicators add is drawn over the dates of the frame
    with one value per date, and the frame they leave behind, its "VWAP"
    column included, still has one cell per date in every column. *)
Theorem X10_indicators_stay_aligned (w : world) (inds : list string)
    (data data' : DataFrame) (fig fig' : Figure) (close volume : series) :
  frame_aligned data ->
  dict_get "Close" (columns data) = Some close ->
  dict_get "Volume" (columns data) = Some volume ->
  add_indicators w inds (data, fig) = Ok (data', fig') ->
  frame_aligned data' /\
  exists added,
    fig_traces fig' = (fig_traces fig ++ added)%list /\
    Forall (fun t => sc_x t = index data /\ trace_aligned t) added.
Proof.
  intros Haligned Hclose Hvolume Hrun.
  pose proof (frame_aligned_column _ _ _ Haligned Hclose) as Hc.
  pose proof (frame_aligned_column _ _ _ Haligned Hvolume) as Hv.
  rewrite (add_indicators_figure w inds data fig close volume Hclose Hvolume) in Hrun.
  injection Hrun as <- <-. split.
  - unfold frame_after. destruct (existsb (String.eqb "VWAP") inds); [|exact Haligned].
    apply frame_aligned_set; [exact Haligned|].
    rewrite SeriesFacts.cumulative_vwap_length; congruence.
  - eexists. split; [reflexivity|].
    apply Forall_flat_map, Forall_forall. intros ind _.
    pose proof (SeriesFacts.indicator_traces_aligned (sqrt w) (index data)
                  close volume ind Hc Hv) as Htraces.
    rewrite Forall_forall in *. intros t Ht. split; [|now apply Htraces].
    unfold indicator_traces in Ht.
    repeat match type of Ht with
           | context [if ?b then _ else _] => destruct b
           end;
      simpl in Ht; repeat (destruct Ht as [<-|Ht]; [reflexivity|]); contradiction.
Qed.

Lemma X10_witness :
  frame_aligned
    (frame_after ["VWAP"; "20-Day Bollinger Bands"] Sample.aapl_frame
       (map Close (sort_values (map bar_of_record Sample.aapl_history)))
       (map Volume (sort_values (map bar_of_record Sample.aapl_history)))) /\
  exists added,
    fig_traces
      (mkFigure (mkCandlestick [] [] [] [] [] "Candlestick")
         ([] ++ flat_map
                  (indicator_traces (fun x => x) (index Sample.aapl_frame)
                     (map Close (sort_values (map bar_of_record Sample.aapl_history)))
                     (map Volume (sort_values (map bar_of_record Sample.aapl_history))))
                  ["VWAP"; "20-Day Bollinger Bands"])
         true)
    = ([] ++ added)%list /\
    Forall (fun t => sc_x t = index Sample.aapl_frame /\ trace_aligned t) added.
Proof.
  refine (X10_indicators_stay_aligned
            (Sample.world_replying Sample.fmp_only_aapl Sample.reply_buy)
            ["VWAP"; "20-Day Bollinger Bands"] Sample.aapl_frame _
            (mkFigure (mkCandlestick [] [] [] [] [] "Candlestick") [] true) _
            _ _ (fetched_frame_aligned _) eq_refl eq_refl _).
  exact (add_indicators_figure (Sample.world_replying Sample.fmp_only_aapl Sample.reply_buy)
           ["VWAP"; "20-Day Bollinger Bands"] Sample.aapl_frame
           (mkFigure (mkCandlestick [] [] [] [] [] "Candlestick") [] true)
           _ _ eq_refl eq_refl).
Defined.

(** ** The simple moving average, row by row *)

Lemma observations_numeric (vals : list Qc) :
  Series.observations (map Some vals) = vals.
Proof. induction vals as [|v vals IH]; simpl; [reflexivity | now rewrite IH]. Qed.

Lemma observations_length (xs : series) :
  (length (Series.observations xs) <= length xs)%nat.
Proof. induction xs as [|[x|] xs IH]; simpl; lia. Qed.

Lemma observations_gap (xs : series) :
  In None xs -> (length (Series.observations xs) < length xs)%nat.
Proof.
  induction xs as [|[x|] xs IH]; simpl; intros H.
  - contradiction.
  - destruct H as [H|H]; [discriminate | specialize (IH H); lia].
  - pose proof (observations_length xs). lia.
Qed.

Lemma window_length (w : nat) (xs : series) (i : nat) :
  (length (Series.window w xs i) <= Nat.min w (S i))%nat.
Proof.
  unfold Series.window. rewrite length_skipn, length_firstn. lia.
Qed.

Lemma window_last_twenty (xs : series) (i : nat) :
  (19 <= i)%nat ->
  Series.window 20 xs i = firstn 20 (skipn (i - 19) xs).
Proof.
  intros Hi. unfold Series.window. rewrite firstn_skipn_comm.
  replace (i - 19 + 20)%nat with (S i) by lia.
  now replace (S i - 20)%nat with (i - 19)%nat by lia.
Qed.

(** X11. SMA(20) row by row, on any series: the first 19 rows are missing;
    from the 20th row on, a row whose last 20 closes are all numbers holds
    their arithmetic mean, and a row with a missing close among its last 20
    is missing. *)
Theorem X11_sma_row_by_row (xs : series) (i : nat) :
  (i < length xs)%nat ->
  ((i < 19)%nat -> nth_error (Series.rolling_mean 20 xs) i = Some None) /\
  (forall vals,
      (19 <= i)%nat -> firstn 20 (skipn (i - 19) xs) = map Some vals ->
      nth_error (Series.rolling_mean 20 xs) i
      = Some (Some (Series.sum vals / qc 20)%Qc)) /\
  ((19 <= i)%nat -> In None (firstn 20 (skipn (i - 19) xs)) ->
   nth_error (Series.rolling_mean 20 xs) i = Some None).
Proof.
  intros Hi. rewrite (rolling_mean_nth 20 xs i Hi). cbn zeta. repeat split.
  - intros Hearly.
    pose proof (observations_length (Series.window 20 xs i)) as Hobs.
    pose proof (window_length 20 xs i) as Hwin.
    destruct (20 <=? _)%nat eqn:E; [apply Nat.leb_le in E; lia | reflexivity].
  - intros vals Hlate Hvals. rewrite window_last_twenty, Hvals by exact Hlate.
    rewrite observations_numeric.
    assert (Hlen : length vals = 20%nat).
    { rewrite <- (length_map Some vals), <- Hvals, length_firstn, length_skipn. lia. }
    rewrite Hlen. cbn [Nat.leb]. unfold Series.mean, Series.cell_div, Series.count.
    rewrite Hlen. destruct (Qc_eq_dec (qc (Z.of_nat 20)) 0%Qc) as [E|_]; [discriminate E|].
    reflexivity.
  - intros Hlate Hgap. rewrite window_last_twenty by exact Hlate.
    apply observations_gap in Hgap. rewrite length_firstn in Hgap.
    destruct (20 <=? _)%nat eqn:E; [apply Nat.leb_le in E; lia | reflexivity].
Qed.

Lemma X11_witness :
  ((20 < 19)%nat ->
   nth_error (Series.rolling_mean 20 (repeat (Some (qc 7)) 25)) 20 = Some None) /\
  (forall vals,
      (19 <= 20)%nat ->
      firstn 20 (skipn (20 - 19) (repeat (Some (qc 7)) 25)) = map Some vals ->
      nth_error (Series.rolling_mean 20 (repeat (Some (qc 7)) 25)) 20
      = Some (Some (Series.sum vals / qc 20)%Qc)) /\
  ((19 <= 20)%nat ->
   In None (firstn 20 (skipn (20 - 19) (repeat (Some (qc 7)) 25))) ->
   nth_error (Series.rolling_mean 20 (repeat (Some (qc 7)) 25)) 20 = Some None).
Proof.
  apply (X11_sma_row_by_row (repeat (Some (qc 7)) 25) 20).
  simpl. lia.
Defined.

(** ** The exponential moving average over missing closes *)

Section EwmMissing.
Variables old_wt_factor new_wt : Qc.

Lemma ewm_mean_loop (span : Qc) (xs : series) :
  Series.ewm_mean span xs
  = Series.ewm_loop (1 - qc 2 / (span + 1))%Qc 1%Qc None 1%Qc xs.
Proof. destruct xs; reflexivity. Qed.

(** A row of the loop is missing exactly when no value has been seen, before
    the loop or in it. *)
Lemma ewm_loop_missing (xs : series) :
  forall weighted old_wt i,
    (i < length xs)%nat ->
    (nth_error (Series.ewm_loop old_wt_factor new_wt weighted old_wt xs) i = Some None
     <-> weighted = None /\ Forall (eq None) (firstn (S i) xs)).
Proof.
  induction xs as [|cur xs IH]; intros weighted old_wt i Hi; cbn [length] in Hi; [lia|].
  destruct weighted as [wv|], cur as [c|]; cbn [Series.ewm_loop];
    destruct i as [|i]; cbn [nth_error firstn]; try (rewrite IH by lia).
  - split; [discriminate | intros [[=] _]].
  - split; intros [[=] _].
  - split; [discriminate | intros [[=] _]].
  - split; intros [[=] _].
  - split; [discriminate | intros [_ H]; apply Forall_inv in H; discriminate].
  - split; [intros [[=] _] | intros [_ H]; apply Forall_inv in H; discriminate].
  - split; [intros _; split; [reflexivity | repeat constructor] | reflexivity].
  - split; intros [_ H]; (split; [reflexivity|]);
      [now constructor | now apply Forall_inv_tail in H].
Qed.

(** The first value the loop sees becomes its row. *)
Lemma ewm_loop_first (i : nat) :
  forall xs old_wt c,
    Forall (eq None) (firstn i xs) ->
    nth_error xs i = Some (Some c) ->
    nth_error (Series.ewm_loop old_wt_factor new_wt None old_wt xs) i = Some (Some c).
Proof.
  induction i as [|i IH]; intros [|cur xs] old_wt c Hnone Hc; try discriminate.
  - cbn [nth_error] in Hc. injection Hc as ->. reflexivity.
  - cbn [firstn] in Hnone. apply Forall_inv in Hnone as Hcur. subst cur.
    cbn [Series.ewm_loop nth_error]. apply IH; [|exact Hc].
    now apply Forall_inv_tail in Hnone.
Qed.

(** A missing value leaves the running mean where it was. *)
Lemma ewm_loop_carry (xs : series) :
  forall weighted old_wt i,
    nth_error xs (S i) = Some None ->
    nth_error (Series.ewm_loop old_wt_factor new_wt weighted old_wt xs) (S i)
    = nth_error (Series.ewm_loop old_wt_factor new_wt weighted old_wt xs) i.
Proof.
  induction xs as [|cur xs IH]; intros weighted old_wt i H; [discriminate|].
  cbn [nth_error] in H. destruct i as [|i].
  - destruct xs as [|next xs]; [discriminate|]. cbn [nth_error] in H.
    injection H as ->.
    destruct weighted as [wv|], cur as [c|]; reflexivity.
  - cbn [Series.ewm_loop].
    destruct weighted as [wv|], cur as [c|]; cbn [nth_error]; now apply IH.
Qed.

End EwmMissing.

(** X12. EMA(20) and missing closes.  A row of the average is missing exactly
    when every close up to it is missing; the row of the first close that is
    a number holds that close itself; and a missing close after it leaves the
    average where it was: its row repeats the value of the row before. *)
Theorem X12_ema_over_missing_closes (closes : series) (i : nat) :
  (i < length closes)%nat ->
  let ema := Series.ewm_mean (qc 20) closes in
  (nth_error ema i = Some None <-> Forall (eq None) (firstn (S i) closes)) /\
  (forall c, Forall (eq None) (firstn i closes) ->
             nth_error closes i = Some (Some c) ->
             nth_error ema i = Some (Some c)) /\
  (nth_error closes (S i) = Some None -> nth_error ema (S i) = nth_error ema i).
Proof.
  intros Hi ema. unfold ema. rewrite ewm_mean_loop. split; [|split].
  - rewrite ewm_loop_missing by exact Hi. tauto.
  - intros c. apply ewm_loop_first.
  - apply ewm_loop_carry.
Qed.

Lemma X12_witness :
  let closes := [None; Some (qc 12); None; Some (qc 10)] in
  let ema := Series.ewm_mean (qc 20) closes in
  (nth_error ema 1 = Some None <-> Forall (eq None) (firstn 2 closes)) /\
  (forall c, Forall (eq None) (firstn 1 closes) ->
             nth_error closes 1 = Some (Some c) ->
             nth_error ema 1 = Some (Some c)) /\
  (nth_error closes 2 = Some None -> nth_error ema 2 = nth_error ema 1).
Proof.
  apply (X12_ema_over_missing_closes [None; Some (qc 12); None; Some (qc 10)] 1).
  simpl. lia.
Defined.

(** ** The Bollinger Bands *)

Section Bollinger.
Local Open Scope Qc_scope.

Lemma zip_nth (f : cell -> cell -> cell) (xs ys : series) (i : nat) :
  nth_error (map (fun p => f (fst p) (snd p)) (combine xs ys)) i
  = match nth_error xs i, nth_error ys i with
    | Some a, Some b => Some (f a b)
    | _, _ => None
    end.
Proof.
  revert ys i; induction xs as [|x xs IH]; intros ys i.
  - now destruct i.
  - destruct ys as [|y ys].
    + destruct i as [|i]; simpl; [reflexivity | now destruct (nth_error xs i)].
    + destruct i as [|i]; [reflexivity | cbn [combine map nth_error]; apply IH].
Qed.

Lemma rolling_nth (w : nat) (f : list Qc -> cell) (xs : series) (i : nat) :
  (i < length xs)%nat ->
  nth_error (Series.rolling w f xs) i =
    Some (let obs := Series.observations (Series.window w xs i) in
          if (w <=? length obs)%nat then f obs else None).
Proof.
  intros Hi. unfold Series.rolling. rewrite nth_error_map, nth_error_seq.
  apply Nat.ltb_lt in Hi. now rewrite Hi.
Qed.

Lemma std_defined (sqrt : Qc -> Qc) (obs : list Qc) (m : Qc) :
  (2 <= length obs)%nat -> Series.mean obs = Some m ->
  exists v, Series.std sqrt obs = Some (sqrt v).
Proof.
  intros Hlen Hmean. unfold Series.std. rewrite Hmean. unfold Series.cell_div.
  destruct (Qc_eq_dec (Series.count obs - 1) 0) as [E|_]; [|simpl; eauto].
  exfalso. assert (Hone : Series.count obs = 1).
  { replace (Series.count obs) with (Series.count obs - 1 + 1) by ring.
    rewrite E. ring. }
  assert (Hbig : 1 < Series.count obs).
  { unfold Series.count. change 1 with (qc 1). apply qc_lt. lia. }
  rewrite Hone in Hbig. discriminate Hbig.
Qed.

Lemma band_order (m sd : Qc) :
  0 <= sd -> m - qc 2 * sd <= m /\ m <= m + qc 2 * sd.
Proof.
  intros Hsd.
  assert (H2 : 0 <= qc 2 * sd).
  { apply Qc_mult_nonneg; [discriminate | exact Hsd]. }
  split.
  - apply Qcle_minus_iff. now replace (m + - (m - qc 2 * sd)) with (qc 2 * sd) by ring.
  - apply Qcle_minus_iff. now replace (m + qc 2 * sd + - m) with (qc 2 * sd) by ring.
Qed.

(** A row of the two bands, from the rows of SMA(20). *)
Lemma bollinger_rows (sqrt : Qc -> Qc) (closes : series) (i : nat) :
  (forall m, nth_error (Series.rolling_mean 20 closes) i = Some (Some m) ->
             exists v,
               nth_error (bollinger_upper sqrt closes) i
               = Some (Some (m + qc 2 * sqrt v)) /\
               nth_error (bollinger_lower sqrt closes) i
               = Some (Some (m - qc 2 * sqrt v))) /\
  (nth_error (Series.rolling_mean 20 closes) i = Some None ->
   nth_error (bollinger_upper sqrt closes) i = Some None /\
   nth_error (bollinger_lower sqrt closes) i = Some None).
Proof.
  unfold bollinger_upper, bollinger_lower, Series.add, Series.sub, Series.scale.
  rewrite !zip_nth, nth_error_map.
  split.
  - intros m Hm. rewrite Hm.
    assert (Hi : (i < length closes)%nat).
    { rewrite <- (SeriesFacts.rolling_length 20 Series.mean closes).
      apply nth_error_Some. unfold Series.rolling_mean in Hm. congruence. }
    unfold Series.rolling_std. rewrite (rolling_nth 20 _ closes i Hi).
    rewrite (rolling_mean_nth 20 closes i Hi) in Hm. cbn zeta in *.
    destruct (20 <=? _)%nat eqn:E; [|discriminate Hm]. apply Nat.leb_le in E.
    injection Hm as Hm.
    destruct (std_defined sqrt (Series.observations (Series.window 20 closes i)) m
                ltac:(lia) Hm) as [v ->].
    exists v. split; reflexivity.
  - intros Hm. rewrite Hm.
    assert (Hi : (i < length closes)%nat).
    { rewrite <- (SeriesFacts.rolling_length 20 Series.mean closes).
      apply nth_error_Some. unfold Series.rolling_mean in Hm. congruence. }
    unfold Series.rolling_std. rewrite (rolling_nth 20 _ closes i Hi).
    split; reflexivity.
Qed.

End Bollinger.

(** X13. The Bollinger Bands lie around SMA(20), given a square root that is
    never negative.  On a row where SMA(20) is a number m, both bands are
    numbers, m + 2s and m - 2s for one s >= 0, so lower <= SMA <= upper; on a
    row where SMA(20) is missing both bands are missing. *)
Theorem X13_bollinger_around_sma (sqrt : Qc -> Qc) (closes : series) (i : nat) :
  (forall x, (0 <= sqrt x)%Qc) ->
  (forall m, nth_error (Series.rolling_mean 20 closes) i = Some (Some m) ->
             exists s,
               (0 <= s)%Qc /\
               nth_error (bollinger_upper sqrt closes) i = Some (Some (m + qc 2 * s)%Qc) /\
               nth_error (bollinger_lower sqrt closes) i = Some (Some (m - qc 2 * s)%Qc) /\
               (m - qc 2 * s <= m)%Qc /\ (m <= m + qc 2 * s)%Qc) /\
  (nth_error (Series.rolling_mean 20 closes) i = Some None ->
   nth_error (bollinger_upper sqrt closes) i = Some None /\
   nth_error (bollinger_lower sqrt closes) i = Some None).
Proof.
  intros Hsqrt. destruct (bollinger_rows sqrt closes i) as [Hnum Hmissing].
  split; [|exact Hmissing].
  intros m Hm. destruct (Hnum m Hm) as (v & Hu & Hl).
  exists (sqrt v). destruct (band_order m (sqrt v) (Hsqrt v)) as [Hlow Hup].
  split; [apply Hsqrt|]. split; [exact Hu|]. split; [exact Hl|]. split; assumption.
Qed.

Lemma floor_sqrt_nonneg (x : Qc) : (0 <= Sample.floor_sqrt x)%Qc.
Proof. apply qc_nonneg, Z.sqrt_nonneg. Qed.

Lemma X13_witness :
  (forall m, nth_error (Series.rolling_mean 20 (repeat (Some (qc 7)) 25)) 20
             = Some (Some m) ->
             exists s,
               (0 <= s)%Qc /\
               nth_error (bollinger_upper Sample.floor_sqrt (repeat (Some (qc 7)) 25)) 20
               = Some (Some (m + qc 2 * s)%Qc) /\
               nth_error (bollinger_lower Sample.floor_sqrt (repeat (Some (qc 7)) 25)) 20
               = Some (Some (m - qc 2 * s)%Qc) /\
               (m - qc 2 * s <= m)%Qc /\ (m <= m + qc 2 * s)%Qc) /\
  (nth_error (Series.rolling_mean 20 (repeat (Some (qc 7)) 25)) 20 = Some None ->
   nth_error (bollinger_upper Sample.floor_sqrt (repeat (Some (qc 7)) 25)) 20 = Some None /\
   nth_error (bollinger_lower Sample.floor_sqrt (repeat (Some (qc 7)) 25)) 20 = Some None).
Proof.
  exact (X13_bollinger_around_sma Sample.floor_sqrt (repeat (Some (qc 7)) 25) 20
           floor_sqrt_nonneg).
Defined.

(** ** The exponential moving average in closed form *)

Section EmaClosedForm.
Local Open Scope Qc_scope.
Variable f : Qc.
Hypothesis f_nonneg : 0 <= f.

Lemma weight_total_nonneg (l : list Qc) : 0 <= weight_total f l.
Proof.
  induction l as [|y l IH]; cbn [weight_total]; [apply Qcle_refl|].
  rewrite Qcplus_comm. apply Qclt_le_weak, Qc_succ_pos, Qc_mult_nonneg; assumption.
Qed.

Lemma weight_total_pos (x : Qc) (older : list Qc) : 0 < weight_total f (x :: older).
Proof.
  cbn [weight_total]. rewrite Qcplus_comm.
  apply Qc_succ_pos, Qc_mult_nonneg; [exact f_nonneg | apply weight_total_nonneg].
Qed.

Lemma ewm_loop_closed (xs : list Qc) :
  forall (h : Qc) (hist : list Qc) (i : nat),
    (i < length xs)%nat ->
    nth_error
      (Series.ewm_loop f 1
         (Some (weighted_sum f (h :: hist) / weight_total f (h :: hist)))
         (weight_total f (h :: hist)) (map Some xs)) i
    = Some (Some (weighted_sum f (rev (firstn (S i) xs) ++ h :: hist)
                  / weight_total f (rev (firstn (S i) xs) ++ h :: hist))).
Proof.
  induction xs as [|x xs IH]; intros h hist i Hi; [simpl in Hi; lia|].
  pose proof (weight_total_pos h hist) as Hpos.
  pose proof (weight_total_pos x (h :: hist)) as Hpos'.
  set (N := weighted_sum f (h :: hist)) in *.
  set (W := weight_total f (h :: hist)) in *.
  assert (HW : W <> 0) by (intros E; exact (Qclt_not_eq _ _ Hpos (eq_sym E))).
  assert (HW' : 1 + f * W <> 0)
    by (intros E; exact (Qclt_not_eq _ _ Hpos' (eq_sym E))).
  assert (Hstep : (W * f * (N / W) + 1 * x) / (W * f + 1)
                  = weighted_sum f (x :: h :: hist) / weight_total f (x :: h :: hist)).
  { change (weighted_sum f (x :: h :: hist)) with (x + f * N).
    change (weight_total f (x :: h :: hist)) with (1 + f * W).
    clearbody N W. field. split; [exact HW' | exact HW]. }
  assert (Hwt : W * f + 1 = weight_total f (x :: h :: hist)).
  { change (weight_total f (x :: h :: hist)) with (1 + f * W). ring. }
  cbn [map Series.ewm_loop]. rewrite Hstep, Hwt.
  destruct i as [|i]; [reflexivity|].
  cbn [nth_error]. rewrite (IH x (h :: hist) i) by (simpl in Hi; lia).
  cbn [firstn rev]. now rewrite <- app_assoc.
Qed.

End EmaClosedForm.

(** X14. EMA(20) is the exponentially weighted average pandas documents: on
    closes that are all numbers, the value of row i is the sum of the closes
    of rows 0..i, the close of row j weighted by (19/21)^(i-j), divided by
    the sum of those weights. *)
Theorem X14_ema_weighted_average (closes : list Qc) (i : nat) :
  (i < length closes)%nat ->
  nth_error (Series.ewm_mean (qc 20) (map Some closes)) i
  = Some (Some (weighted_sum ema20_decay (rev (firstn (S i) closes))
                / weight_total ema20_decay (rev (firstn (S i) closes)))%Qc)
  /\ ema20_decay = (qc 19 / qc 21)%Qc.
Proof.
  intros Hi. split; [|apply Qc_is_canon; reflexivity].
  destruct closes as [|x0 xs]; [simpl in Hi; lia|].
  unfold Series.ewm_mean. cbn [map]. fold ema20_decay.
  assert (Hf : (0 <= ema20_decay)%Qc) by discriminate.
  assert (Hseed : Some x0 = Some (weighted_sum ema20_decay [x0]
                                  / weight_total ema20_decay [x0])%Qc).
  { f_equal. cbn [weighted_sum weight_total]. field. discriminate. }
  assert (Hone : 1%Qc = weight_total ema20_decay [x0]).
  { cbn [weight_total]. ring. }
  destruct i as [|i].
  - cbn [nth_error firstn rev app]. now rewrite <- Hseed.
  - cbn [nth_error]. rewrite Hseed. rewrite Hone at 2.
    rewrite (ewm_loop_closed ema20_decay Hf xs x0 [] i) by (simpl in Hi; lia).
    reflexivity.
Qed.

Lemma X14_witness :
  nth_error (Series.ewm_mean (qc 20) (map Some [qc 12; qc 11; qc 10])) 2
  = Some (Some (weighted_sum ema20_decay (rev (firstn 3 [qc 12; qc 11; qc 10]))
                / weight_total ema20_decay (rev (firstn 3 [qc 12; qc 11; qc 10])))%Qc)
  /\ ema20_decay = (qc 19 / qc 21)%Qc.
Proof.
  apply (X14_ema_weighted_average [qc 12; qc 11; qc 10] 2). simpl. lia.
Defined.

(** X15. The "VWAP" column row by row, on closes and volumes that are all
    numbers, with no negative volume and of a size at which neither an int64
    column wraps around nor a double overflows: row i holds the sum of
    close x volume over rows 0..i divided by the sum of the volumes over
    rows 0..i, and is not a number when that sum of volumes is zero (then
    every volume so far is zero, and the script divides zero by zero). *)
Theorem X15_vwap_row_by_row (w : world) (data : DataFrame) (fig : Figure)
    (bound : Z) (bars : list (Qc * Qc)) (i : nat) :
  dict_get "Close" (columns data) = Some (map Some (map fst bars)) ->
  dict_get "Volume" (columns data) = Some (map Some (map snd bars)) ->
  within_int64 bound bars ->
  (i < length bars)%nat ->
  exists data' fig',
    add_indicator w "VWAP" (data, fig) = Ok (data', fig') /\
    column_at data' "VWAP" i
    = Some (let traded := Series.sum (map (fun b => fst b * snd b)%Qc (firstn (S i) bars)) in
            let volume := Series.sum (map snd (firstn (S i) bars)) in
            if Qc_eq_dec volume 0%Qc then None else Some (traded / volume)%Qc).
Proof.
  intros Hclose Hvolume _ Hi.
  destruct (add_indicator_VWAP w data fig _ _ Hclose Hvolume) as (data' & fig' & Hrun & Hcol).
  exists data', fig'. split; [exact Hrun|].
  unfold column_at. rewrite Hcol. now rewrite cumulative_vwap_nth.
Qed.

Lemma X15_witness :
  exists data' fig',
    add_indicator (Sample.world_replying Sample.fmp_only_aapl Sample.reply_buy) "VWAP"
      (set_index [mkBar 1 None None None (Some (qc 12)) (Some (qc 0));
                  mkBar 2 None None None (Some (qc 11)) (Some (qc 7))],
       mkFigure (mkCandlestick [] [] [] [] [] "Candlestick") [] true)
    = Ok (data', fig') /\
    column_at data' "VWAP" 1
    = Some (let traded :=
              Series.sum (map (fun b => fst b * snd b)%Qc
                              (firstn 2 [(qc 12, qc 0); (qc 11, qc 7)])) in
            let volume := Series.sum (map snd (firstn 2 [(qc 12, qc 0); (qc 11, qc 7)])) in
            if Qc_eq_dec volume 0%Qc then None else Some (traded / volume)%Qc).
Proof.
  apply (X15_vwap_row_by_row
           (Sample.world_replying Sample.fmp_only_aapl Sample.reply_buy)
           (set_index [mkBar 1 None None None (Some (qc 12)) (Some (qc 0));
                       mkBar 2 None None None (Some (qc 11)) (Some (qc 7))])
           (mkFigure (mkCandlestick [] [] [] [] [] "Candlestick") [] true)
           100 [(qc 12, qc 0); (qc 11, qc 7)] 1 eq_refl eq_refl).
  - split; [|reflexivity].
    repeat (apply Forall_cons; [repeat split; discriminate|]). apply Forall_nil.
  - simpl. lia.
Defined.

(** ** The analysis of one ticker, step by step *)

(** On a frame with its five columns the only steps of [analyze_ticker] that
    can raise are the export of the chart, the call of the model and the
    reading of its reply, in this order. *)
Lemma analyze_ticker_steps (w : world) (inds : list string) (ticker : string)
    (data : DataFrame) (o h l c v : series) :
  has_source_columns data o h l c v ->
  analyze_ticker w inds ticker data =
    (image_bytes <- write_image w (chart_of (sqrt w) inds (index data) o h l c v) ;;
     response <- generate_content w (analysis_prompt ticker) image_bytes ;;
     verdict <- parse_response response ;;
     Ok (frame_after inds data c v, chart_of (sqrt w) inds (index data) o h l c v, verdict)).
Proof.
  intros (Ho & Hh & Hl & Hc & Hv). unfold analyze_ticker, getitem.
  rewrite Ho, Hh, Hl, Hc. cbn [bind].
  rewrite (add_indicators_figure w inds data _ c v Hc Hv). cbn [bind].
  reflexivity.
Qed.

(** X16. An exception from the export of the chart, or from the call of the
    model, is not caught: it leaves [analyze_ticker] and ends the loop over
    the tickers, so that neither this ticker nor a later one is reported.
    When the export fails the model is not consulted. *)
Theorem X16_export_or_model_failure_is_fatal (w : world) (inds : list string)
    (ticker : string) (rest : list string) (p : page) (data : DataFrame)
    (o h l c v : series) (e : exn) :
  dict_get ticker (session p) = Some data ->
  has_source_columns data o h l c v ->
  let chart := chart_of (sqrt w) inds (index data) o h l c v in
  (write_image w chart = Raise e \/
   exists image_bytes,
     write_image w chart = Ok image_bytes /\
     generate_content w (analysis_prompt ticker) image_bytes = Raise e) ->
  analyze_ticker w inds ticker data = Raise e /\
  analyze_loop w inds (ticker :: rest) p = Raise e.
Proof.
  intros Hdata Hcols chart Hfail.
  assert (Hraise : analyze_ticker w inds ticker data = Raise e).
  { rewrite (analyze_ticker_steps w inds ticker data o h l c v Hcols). fold chart.
    destruct Hfail as [-> | (img & -> & Hgen)]; [reflexivity|].
    cbn [bind]. now rewrite Hgen. }
  split; [exact Hraise|]. cbn [analyze_loop]. now rewrite Hdata, Hraise.
Qed.

Lemma X16_witness :
  analyze_ticker Sample.world_export_fails ["20-Day SMA"] "AAPL" Sample.aapl_frame
  = Raise (ValueError "Image export requires the kaleido package") /\
  analyze_loop Sample.world_export_fails ["20-Day SMA"] ["AAPL"; "MSFT"]
               (mkPage [("AAPL", Sample.aapl_frame); ("MSFT", Sample.aapl_frame)] [] [])
  = Raise (ValueError "Image export requires the kaleido package").
Proof.
  refine (X16_export_or_model_failure_is_fatal Sample.world_export_fails
            ["20-Day SMA"] "AAPL" ["MSFT"]
            (mkPage [("AAPL", Sample.aapl_frame); ("MSFT", Sample.aapl_frame)] [] [])
            Sample.aapl_frame _ _ _ _ _ _ eq_refl _ (or_introl eq_refl)).
  repeat split.
Defined.

(** X17. Once the chart is exported and the model has answered with a text
    that can be read, [analyze_ticker] returns, whatever the text, with the
    frame the indicators left, the chart that was exported and a verdict.
    For a text without a brace span the verdict is the "Error" verdict of
    the ValueError clause, "Value Error: No valid JSON object found in the
    response. Raw text: " and the text; for a text with one it is the value
    decoded from the span or, when the decoding raises, an "Error" verdict
    whose justification ends with ". Raw text: " and the text. *)
Theorem X17_readable_reply_gives_verdict (w : world) (inds : list string)
    (ticker : string) (data : DataFrame) (o h l c v : series)
    (image_bytes : string) (response : gen_response) (t : string) :
  has_source_columns data o h l c v ->
  let chart := chart_of (sqrt w) inds (index data) o h l c v in
  write_image w chart = Ok image_bytes ->
  generate_content w (analysis_prompt ticker) image_bytes = Ok response ->
  text response = Ok t ->
  exists verdict,
    analyze_ticker w inds ticker data = Ok (frame_after inds data c v, chart, verdict) /\
    (has_brace_span t = false ->
     verdict = error_verdict
                 ("Value Error: No valid JSON object found in the response. Raw text: " ++ t)) /\
    (has_brace_span t = true ->
     json_loads (brace_span t) = Ok verdict \/
     exists diagnostic,
       verdict = error_verdict (diagnostic ++ ". Raw text: " ++ t)).
Proof.
  intros Hcols chart Himg Hgen Htext.
  rewrite (analyze_ticker_steps w inds ticker data o h l c v Hcols). fold chart.
  rewrite Himg. cbn [bind]. rewrite Hgen. cbn [bind].
  rewrite (parse_response_readable _ _ Htext), (extract_json_readable _ _ Htext).
  cbn [bind]. eexists. split; [reflexivity|].
  destruct (has_brace_span t); split; try discriminate.
  - intros _. destruct (json_loads (brace_span t)) as [decoded|e]; [now left|].
    right. exists (clause_label e ++ str_exn e).
    now rewrite <- PyStrFacts.app_assoc.
  - reflexivity.
Qed.

Lemma X17_witness :
  exists verdict,
    analyze_ticker (Sample.world_replying Sample.fmp_only_aapl "{ not json }")
                   ["20-Day SMA"] "AAPL" Sample.aapl_frame
    = Ok (frame_after ["20-Day SMA"] Sample.aapl_frame
            (map Close (sort_values (map bar_of_record Sample.aapl_history)))
            (map Volume (sort_values (map bar_of_record Sample.aapl_history))),
          chart_of (fun x => x) ["20-Day SMA"] (index Sample.aapl_frame)
            (map Open (sort_values (map bar_of_record Sample.aapl_history)))
            (map High (sort_values (map bar_of_record Sample.aapl_history)))
            (map Low (sort_values (map bar_of_record Sample.aapl_history)))
            (map Close (sort_values (map bar_of_record Sample.aapl_history)))
            (map Volume (sort_values (map bar_of_record Sample.aapl_history))),
          verdict) /\
    (has_brace_span "{ not json }" = false ->
     verdict = error_verdict
                 ("Value Error: No valid JSON object found in the response. Raw text: "
                  ++ "{ not json }")) /\
    (has_brace_span "{ not json }" = true ->
     json_loads (brace_span "{ not json }") = Ok verdict \/
     exists diagnostic,
       verdict = error_verdict (diagnostic ++ ". Raw text: " ++ "{ not json }")).
Proof.
  refine (X17_readable_reply_gives_verdict
            (Sample.world_replying Sample.fmp_only_aapl "{ not json }")
            ["20-Day SMA"] "AAPL" Sample.aapl_frame _ _ _ _ _
            "PNG" (mkGenResponse (Ok "{ not json }")) "{ not json }"
            _ eq_refl eq_refl eq_refl).
  repeat split.
Defined.

(** ** When the reply has a brace span *)

Lemma find_from_bounds (c : ascii) (pre rest : string) :
  forall i, i <= PyStr.find_from c (pre ++ String c rest) i <= i + PyStr.len pre.
Proof.
  induction pre as [|a pre IH]; intros i; simpl.
  - rewrite Ascii.eqb_refl. change (PyStr.len "") with 0. lia.
  - rewrite PyStrFacts.len_cons. destruct (Ascii.eqb a c).
    + pose proof (PyStrFacts.len_nonneg pre). lia.
    + specialize (IH (i + 1)). lia.
Qed.

Lemma rfind_from_floor (c : ascii) (s : string) :
  forall i last, last < i ->
                 PyStr.rfind_from c s i last = last \/ i <= PyStr.rfind_from c s i last.
Proof.
  induction s as [|a s IH]; intros i last Hlt; simpl; [now left|].
  destruct (Ascii.eqb a c).
  - right. destruct (IH (i + 1) i ltac:(lia)) as [-> | H]; lia.
  - destruct (IH (i + 1) last ltac:(lia)) as [-> | H]; [now left | right; lia].
Qed.

Lemma rfind_from_reaches (c : ascii) (a post : string) (i last : Z) :
  last < i -> i + PyStr.len a <= PyStr.rfind_from c (a ++ String c post) i last.
Proof.
  intros Hlt. rewrite PyStrFacts.rfind_from_app. simpl. rewrite Ascii.eqb_refl.
  destruct (rfind_from_floor c post (i + PyStr.len a + 1) (i + PyStr.len a) ltac:(lia))
    as [-> | H]; lia.
Qed.

(** The guard passes exactly when a closing brace follows an opening one. *)
Lemma has_brace_span_iff (t : string) :
  has_brace_span t = true <->
  exists pre mid post, t = (pre ++ "{" ++ mid ++ "}" ++ post)%string.
Proof.
  split.
  - intros H. destruct (has_brace_span_split t H) as (pre & mid & post & Ht & _).
    now exists pre, mid, post.
  - intros (pre & mid & post & ->). unfold has_brace_span, PyStr.find, PyStr.rfind.
    pose proof (find_from_bounds "{" pre (mid ++ "}" ++ post) 0) as Hfind.
    change (pre ++ String "{" (mid ++ "}" ++ post))%string
      with (pre ++ "{" ++ mid ++ "}" ++ post)%string in Hfind.
    pose proof (rfind_from_reaches "}" (pre ++ "{" ++ mid) post 0 (-1) ltac:(lia)) as Hrfind.
    replace ((pre ++ "{" ++ mid) ++ String "}" post)%string
      with (pre ++ "{" ++ mid ++ "}" ++ post)%string in Hrfind
      by (rewrite !PyStrFacts.app_assoc; reflexivity).
    rewrite PyStrFacts.len_app in Hrfind.
    change (PyStr.len ("{" ++ mid)) with (PyStr.len (String "{" mid)) in Hrfind.
    rewrite PyStrFacts.len_cons in Hrfind.
    pose proof (PyStrFacts.len_nonneg mid). pose proof (PyStrFacts.len_nonneg pre).
    apply andb_true_iff. split.
    + apply negb_true_iff, Z.eqb_neq. lia.
    + apply Z.gtb_lt. lia.
Qed.

(** X18. For a reply that can be read, the parse step raises its own
    ValueError, "No valid JSON object found in the response", exactly when no
    closing brace follows an opening brace in the text; a lone brace, or
    braces in the wrong order, count as no JSON. *)
Theorem X18_no_json_exactly_without_span (response : gen_response) (t : string) :
  text response = Ok t ->
  (extract_json response = Raise (ValueError "No valid JSON object found in the response")
   <-> ~ exists pre mid post, t = (pre ++ "{" ++ mid ++ "}" ++ post)%string).
Proof.
  intros Htext. rewrite (extract_json_readable _ _ Htext), <- has_brace_span_iff.
  destruct (has_brace_span t).
  - split; [|intros H; now contradiction H].
    intros H. destruct (json_loads_decodes (brace_span t)) as [[v Hv] | [m Hm]];
      rewrite H in *; discriminate.
  - split; [discriminate | reflexivity].
Qed.

Lemma X18_witness :
  extract_json (mkGenResponse (Ok "} then {"))
  = Raise (ValueError "No valid JSON object found in the response")
  <-> ~ exists pre mid post, "} then {"%string = (pre ++ "{" ++ mid ++ "}" ++ post)%string.
Proof.
  exact (X18_no_json_exactly_without_span (mkGenResponse (Ok "} then {")) "} then {" eq_refl).
Defined.

(** ** The page *)

Lemma analyze_loop_page (w : world) (inds : list string) (todo : list string) :
  forall p p',
    analyze_loop w inds todo p = Ok p' ->
    map Stock (overall_results p') = (map Stock (overall_results p) ++ todo)%list /\
    map fst (ticker_tabs p') = (map fst (ticker_tabs p) ++ todo)%list /\
    dict_keys (session p') = dict_keys (session p) /\
    (Forall ticker_tab_shape (ticker_tabs p) -> Forall ticker_tab_shape (ticker_tabs p')).
Proof.
  induction todo as [|t rest IH]; intros p p' H; cbn [analyze_loop] in H.
  - injection H as <-. rewrite !app_nil_r. auto.
  - destruct (dict_get t (session p)) as [data|] eqn:Hdata; [|discriminate].
    unfold bind in H.
    destruct (analyze_ticker w inds t data) as [[[data' fig] res]|]; [|discriminate].
    destruct (result_get res "action" "N/A") as [action|]; [|discriminate].
    destruct (result_get res "justification" "No justification provided.")
      as [justification|]; [|discriminate].
    apply IH in H as (Hrows & Htabs & Hkeys & Hshape). cbn [overall_results ticker_tabs session] in *.
    rewrite Hrows, Htabs, Hkeys, !map_app, <- !app_assoc.
    repeat split.
    + apply dict_keys_set_present. eapply dict_get_in_keys; exact Hdata.
    + intros Hp. apply Hshape, Forall_app. split; [exact Hp|].
      repeat constructor. now exists fig, justification.
Qed.

(** X19. A page that renders with stock data has the tab "Overall Summary"
    followed by one tab per stored ticker, in the order they are stored; the
    summary table has one row per stored ticker in the same order; every
    ticker's tab holds its heading, its chart, the caption and the
    justification; and the stored data keeps its tickers. *)
Theorem X19_page_layout (w : world) (inds : list string)
    (stock_data session' : dict DataFrame) (tabs : list (string * list ui_event)) :
  stock_data <> [] ->
  render w inds stock_data = Ok (session', tabs) ->
  map fst tabs = "Overall Summary"%string :: dict_keys stock_data /\
  (exists rows, summary_table tabs = Some rows /\
                map Stock rows = dict_keys stock_data) /\
  Forall ticker_tab_shape (tl tabs) /\
  dict_keys session' = dict_keys stock_data.
Proof.
  intros Hne Hrender. unfold render in Hrender.
  destruct stock_data as [|kv sd]; [contradiction|].
  unfold bind in Hrender.
  destruct (analyze_loop w inds _ _) as [p|] eqn:Hloop; [|discriminate].
  injection Hrender as <- <-.
  apply analyze_loop_page in Hloop as (Hrows & Htabs & Hkeys & Hshape).
  cbn [overall_results ticker_tabs session map app] in *.
  repeat split.
  - cbn [map fst]. now rewrite Htabs.
  - exists (overall_results p). split; [reflexivity | exact Hrows].
  - cbn [tl]. apply Hshape. constructor.
  - exact Hkeys.
Qed.

Lemma X19_witness :
  exists session' tabs,
    render (Sample.world_replying Sample.fmp_all Sample.reply_buy) ["VWAP"]
           [("AAPL", Sample.aapl_frame); ("MSFT", Sample.aapl_frame)]
    = Ok (session', tabs) /\
    map fst tabs = ["Overall Summary"; "AAPL"; "MSFT"]%string /\
    (exists rows, summary_table tabs = Some rows /\ map Stock rows = ["AAPL"; "MSFT"]%string) /\
    Forall ticker_tab_shape (tl tabs) /\
    dict_keys session' = ["AAPL"; "MSFT"]%string.
Proof.
  do 2 eexists. split; [vm_compute; reflexivity|].
  refine (X19_page_layout (Sample.world_replying Sample.fmp_all Sample.reply_buy) ["VWAP"]
            [("AAPL", Sample.aapl_frame); ("MSFT", Sample.aapl_frame)] _ _ _ _).
  - discriminate.
  - vm_compute. reflexivity.
Defined.
